(** * Cost-center synchronisation scripts: a shallow embedding

    The repository holds three generations of one script that copies the
    members of an enterprise team into a billing cost center:

    - [sync_team_to_cost_center.py]: one POST per member (module [PerUser]);
    - [test.py]: batched POSTs behind a retrying executor (module [Bulk]);
    - [sync_team_cost_center_exact.py]: fetches both sides, computes the
      three-way difference and adds and removes members (module [Exact]).

    Python values are embedded as follows.  A [str] is a [string] whose
    characters are code points below 256: that is the whole range for HTTP
    header values (decoded as Latin-1) and a restriction for response bodies.
    An [int] is a [Z].  A decoded JSON document is a [Json] tree.  A raised
    exception is a [Raise] result.  The HTTP transport, the random generator
    and the clock are the capabilities of a [World] that every effectful
    function threads through. *)

From Stdlib Require Import String Ascii ZArith List QArith Lia Lqa DecimalString.
From stdpp Require Import base gmap sets list strings.

Local Close Scope Q_scope.
Local Open Scope Z_scope.

(** ** Python strings *)

Module Str.

Definition code (c : ascii) : N := N_of_ascii c.

Definition between (lo hi : N) (c : ascii) : bool :=
  ((lo <=? code c) && (code c <=? hi))%N.

(** [str.lower] on one code point below 256: the ASCII capitals and the
    Latin-1 capitals U+00C0 to U+00DE, the multiplication sign apart. *)
Definition lower_char (c : ascii) : ascii :=
  if between 65 90 c || (between 192 222 c && negb (code c =? 215)%N)
  then ascii_of_N (code c + 32)
  else c.

Fixpoint lower (s : string) : string :=
  match s with
  | EmptyString => EmptyString
  | String c t => String (lower_char c) (lower t)
  end.

(** [c.isspace()] below 256. *)
Definition isspace_char (c : ascii) : bool :=
  between 9 13 c || between 28 32 c || (code c =? 133)%N || (code c =? 160)%N.

(** [c.isdigit()] below 256: the ten decimal digits, and the superscript
    digits U+00B2, U+00B3 and U+00B9. *)
Definition isdigit_char (c : ascii) : bool :=
  between 48 57 c || (code c =? 178)%N || (code c =? 179)%N || (code c =? 185)%N.

(** A character that [int] reads as a decimal digit. *)
Definition isdecimal_char (c : ascii) : bool := between 48 57 c.

Fixpoint all_chars (p : ascii → bool) (s : string) : bool :=
  match s with
  | EmptyString => true
  | String c t => p c && all_chars p t
  end.

(** Truth value of a string: [bool(s)]. *)
Definition nonempty (s : string) : bool :=
  match s with
  | EmptyString => false
  | String _ _ => true
  end.

(** [s.isdigit()]. *)
Definition isdigit (s : string) : bool := nonempty s && all_chars isdigit_char s.

Fixpoint digits_value (acc : Z) (s : string) : Z :=
  match s with
  | EmptyString => acc
  | String c t => digits_value (10 * acc + Z.of_N (code c - 48)) t
  end.

(** The default of [sys.int_max_str_digits]: the longest string of digits
    that [int] converts. *)
Definition int_max_str_digits : nat := 4300.

(** [int(s)] for a string that passed [isdigit]: [None] stands for the
    ValueError that a superscript digit causes, and that a string of more
    than [int_max_str_digits] digits causes, leading zeros counted. *)
Definition int_of_digits (s : string) : option Z :=
  if nonempty s && all_chars isdecimal_char s
     && (String.length s <=? int_max_str_digits)%nat
  then Some (digits_value 0 s)
  else None.

(** [str(n)] for an int. *)
Definition of_int (n : Z) : string := NilZero.string_of_int (Z.to_int n).

(** [needle in hay]. *)
Fixpoint contains (needle hay : string) : bool :=
  String.prefix needle hay ||
  match hay with
  | EmptyString => false
  | String _ t => contains needle t
  end.

(** [s.find(c)] for a one-character [c]: the first index, or -1. *)
Fixpoint find_char (c : ascii) (s : string) : Z :=
  match s with
  | EmptyString => -1
  | String d t =>
      if Ascii.eqb d c then 0
      else let i := find_char c t in if i <? 0 then -1 else i + 1
  end.

(** [s[:n]] for a literal [n] that is not negative. *)
Definition take (n : nat) (s : string) : string := String.substring 0 n s.

(** [s[lo:hi]] for [0 <= lo <= hi]. *)
Definition slice (s : string) (lo hi : Z) : string :=
  String.substring (Z.to_nat lo) (Z.to_nat (hi - lo)) s.

(** [s.split(c)] for a one-character separator. *)
Fixpoint split (sep : ascii) (s : string) : list string :=
  match s with
  | EmptyString => [EmptyString]
  | String c t =>
      if Ascii.eqb c sep then EmptyString :: split sep t
      else match split sep t with
           | [] => [String c EmptyString]
           | p :: ps => String c p :: ps
           end
  end.

Fixpoint lstrip (s : string) : string :=
  match s with
  | EmptyString => EmptyString
  | String c t => if isspace_char c then lstrip t else s
  end.

Fixpoint rstrip (s : string) : string :=
  match s with
  | EmptyString => EmptyString
  | String c t =>
      match rstrip t with
      | EmptyString => if isspace_char c then EmptyString else String c EmptyString
      | t' => String c t'
      end
  end.

(** [s.strip()]. *)
Definition strip (s : string) : string := rstrip (lstrip s).

(** [s.replace(a, b)] for one-character [a] and [b]. *)
Fixpoint replace_char (a b : ascii) (s : string) : string :=
  match s with
  | EmptyString => EmptyString
  | String c t => String (if Ascii.eqb c a then b else c) (replace_char a b t)
  end.

Definition quote : string := String (ascii_of_N 34) EmptyString.

End Str.

(** ** Continuation header *)

(** The marker [rel="next"] of a Link header segment. *)
Definition rel_next : string := "rel=" +:+ Str.quote +:+ "next" +:+ Str.quote.

(** The [for part in parts] loop of [parse_next_link]. *)
Fixpoint first_next (parts : list string) : option string :=
  match parts with
  | [] => None
  | part :: rest =>
      if Str.contains rel_next part then
        let start := Str.find_char "<" part + 1 in
        let end_ := Str.find_char ">" part in
        if (0 <? start) && (start <? end_)
        then Some (Str.slice part start end_)
        else first_next rest
      else first_next rest
  end.

(** [parse_next_link], the same in the three scripts.  The argument is
    [resp.headers.get("Link")], [None] when the header is absent. *)
Definition parse_next_link (link_header : option string) : option string :=
  match link_header with
  | None => None
  | Some h =>
      if negb (Str.nonempty h) then None
      else first_next (map Str.strip (Str.split "," h))
  end.

(** ** Python values, requests and responses *)

(** A decoded JSON document.  Numbers are restricted to integers; a dict
    keeps its keys in document order, as Python dicts do. *)
#[warnings="-register-all"]
Inductive Json : Type :=
| JNull
| JBool (b : bool)
| JNum (n : Z)
| JStr (s : string)
| JList (items : list Json)
| JDict (fields : list (string * Json)).

(** [bool(v)]. *)
Definition truthy (v : Json) : bool :=
  match v with
  | JNull => false
  | JBool b => b
  | JNum n => negb (n =? 0)
  | JStr s => Str.nonempty s
  | JList items => match items with [] => false | _ => true end
  | JDict fields => match fields with [] => false | _ => true end
  end.

Definition is_dict (v : Json) : bool :=
  match v with JDict _ => true | _ => false end.

Definition is_list (v : Json) : bool :=
  match v with JList _ => true | _ => false end.

(** [key in d] on the fields of a dict, whose keys are distinct. *)
Fixpoint dict_has (key : string) (fields : list (string * Json)) : bool :=
  match fields with
  | [] => false
  | (k, _) :: rest => String.eqb k key || dict_has key rest
  end.

(** [d.get(key, default)]. *)
Fixpoint dict_get_default (key : string) (fields : list (string * Json))
    (default : Json) : Json :=
  match fields with
  | [] => default
  | (k, v) :: rest => if String.eqb k key then v else dict_get_default key rest default
  end.

(** [d.get(key)]: a missing key gives Python's [None], which is also what
    a JSON null decodes to. *)
Definition dict_get (key : string) (fields : list (string * Json)) : Json :=
  dict_get_default key fields JNull.

(** [a or b]. *)
Definition or_else (a b : Json) : Json := if truthy a then a else b.

Inductive Exn : Type :=
| SystemExit (message : string)
| ValueError
| TypeError
| AttributeError
| AssertionError
| OverflowError
| RequestException (message : string)
| Unmodelled.

(** [except Exception] catches everything but the process exit.
    [Unmodelled] marks a run that leaves the modelled fragment (a login that
    is a JSON number or boolean, where [logins] is declared [list[str]]; a
    sleep so long that its outcome depends on the clock of the machine);
    nothing handles it. *)
Definition is_Exception (e : Exn) : bool :=
  match e with
  | SystemExit _ | Unmodelled => false
  | _ => true
  end.

Inductive Result (A : Type) : Type :=
| Return (a : A)
| Raise (e : Exn)
| OutOfFuel.
Arguments Return {A} a.
Arguments Raise {A} e.
Arguments OutOfFuel {A}.

(** [str(e)] in a handler.  Only the failures of the HTTP client are ever
    caught, the other exceptions are raised outside every [try] block. *)
Definition exn_str (e : Exn) : string :=
  match e with
  | SystemExit m | RequestException m => m
  | _ => EmptyString
  end.

Inductive Method : Type := GET | POST | DELETE.

Record Request : Type := mkRequest {
  req_method : Method;
  req_url : string;
  req_headers : list (string * string);
  req_json : option Json;
  req_timeout : Z
}.

(** A [requests.Response].  [headers] is keyed by the lower-cased header
    name, which is how the case-insensitive [resp.headers.get] looks a name
    up; [json] is [None] when [resp.json()] raises. *)
Record Response : Type := mkResponse {
  status_code : Z;
  headers : gmap string string;
  text : string;
  json : option Json
}.

(** What the HTTP client gives back: a response, whatever its status, or
    an exception of its own (connection error, timeout). *)
Inductive Answer : Type :=
| Responded (resp : Response)
| Failed (message : string).

Definition headers_get (name : string) (resp : Response) : option string :=
  headers resp !! Str.lower name.

(** [github_headers]. *)
Definition github_headers (token : string) : list (string * string) :=
  [ ("Authorization", "Bearer " +:+ token);
    ("Accept", "application/vnd.github+json");
    ("X-GitHub-Api-Version", "2022-11-28") ].

(** ** The world *)

(** The state that a run threads through: the state of the remote server,
    the requests sent so far, the number of random draws made, the sleeps
    taken, and the page progress lines printed (page number and number of
    items), each list oldest first.  The other printed lines are left out. *)
Record World (St : Type) : Type := mkWorld {
  srv : St;
  sent : list Request;
  draws : nat;
  slept : list Q;
  pages : list (Z * Z)
}.
Arguments mkWorld {St}.
Arguments srv {St}.
Arguments sent {St}.
Arguments draws {St}.
Arguments slept {St}.
Arguments pages {St}.

Definition M (St A : Type) : Type := World St → Result A * World St.

Definition raise {St A} (e : Exn) : M St A := fun w => (Raise e, w).

Definition lift {St A} (r : Result A) : M St A := fun w => (r, w).

#[global] Instance M_ret {St} : MRet (M St) := fun A a w => (Return a, w).

(** Sequencing: an exception of the first action ends the sequence. *)
#[global] Instance M_bind {St} : MBind (M St) := fun A B k m w =>
  match m w with
  | (Return a, w') => k a w'
  | (Raise e, w') => (Raise e, w')
  | (OutOfFuel, w') => (OutOfFuel, w')
  end.

(** [try: m except Exception as e: h e]. *)
Definition try_except {St A} (m : M St A) (h : Exn → M St A) : M St A :=
  fun w =>
    match m w with
    | (Raise e, w') => if is_Exception e then h e w' else (Raise e, w')
    | r => r
    end.

(** [random.random()] gives a number from 0 to 1: a value of the stream of
    draws that lies outside these bounds is read as the nearest bound. *)
Definition unit_draw (q : Q) : Q :=
  if Qle_bool q 0 then 0%Q else if Qle_bool 1 q then 1%Q else q.

(** The longest sleep, in seconds, whose outcome the model fixes. *)
Definition sleep_horizon : Z := 10 ^ 9.

(** The largest number of nanoseconds that [time.sleep] can hold. *)
Definition sleep_nanoseconds_max : Z := 2 ^ 63 - 1.

(** What a server and a random generator give to one run. *)
Section Capabilities.

Context {St : Type}.

(** [transport s r]: the answer to request [r] of a server in state [s],
    and the next state. *)
Variable transport : St → Request → Answer * St.

(** [random_unit n]: the value of the [n]-th call of [random.random()]. *)
Variable random_unit : nat → Q.

(** [requests.request(method, url, headers=..., json=..., timeout=...)]. *)
Definition requests_request (r : Request) : M St Response :=
  fun w =>
    let '(answer, s') := transport (srv w) r in
    (match answer with
     | Responded resp => Return resp
     | Failed m => Raise (RequestException m)
     end,
     mkWorld s' (sent w ++ [r]) (draws w) (slept w) (pages w)).

(** [random.uniform(a, b)], which is [a + (b - a) * random.random()];
    floating-point rounding is left out, times are rationals. *)
Definition random_uniform (a b : Q) : M St Q :=
  fun w =>
    (Return (a + (b - a) * unit_draw (random_unit (draws w)))%Q,
     mkWorld (srv w) (sent w) (S (draws w)) (slept w) (pages w)).

(** [time.sleep(d)]: a negative duration is refused with a ValueError, and
    a duration of more than [sleep_nanoseconds_max] nanoseconds with an
    OverflowError.  Below that, a sleep longer than [sleep_horizon] is
    started or refused with an OSError by the time the machine has been up
    (the kernel refuses a sleep that ends after the last instant of its
    clock): such a sleep is outside the model. *)
Definition time_sleep (d : Q) : M St unit :=
  fun w =>
    if negb (Qle_bool 0 d) then (Raise ValueError, w)
    else if negb (Qle_bool (d * inject_Z (10 ^ 9)) (inject_Z sleep_nanoseconds_max))
    then (Raise OverflowError, w)
    else if negb (Qle_bool d (inject_Z sleep_horizon)) then (Raise Unmodelled, w)
    else (Return tt, mkWorld (srv w) (sent w) (draws w) (slept w ++ [d]) (pages w)).

(** The progress line of a fetched page. *)
Definition print_page (page items : Z) : M St unit :=
  fun w =>
    (Return tt,
     mkWorld (srv w) (sent w) (draws w) (slept w) (pages w ++ [(page, items)])).

End Capabilities.

Arguments time_sleep {St} d w : simpl never.

(** ** Code shared by the three scripts *)

Definition nl : string := String (ascii_of_N 10) EmptyString.

(** [x in (a, b, ...)] on status codes. *)
Definition status_in (x : Z) (codes : list Z) : bool := bool_decide (x ∈ codes).

(** The first loop of [extract_memberships]: the wrapper keys, in order. *)
Fixpoint first_wrapper (keys : list string) (fields : list (string * Json))
    : option (list Json) :=
  match keys with
  | [] => None
  | key :: rest =>
      if dict_has key fields then
        match dict_get key fields with
        | JList items => Some items
        | _ => first_wrapper rest fields
        end
      else first_wrapper rest fields
  end.

(** The second loop: the first value that is a list, and is empty or
    starts with a dict. *)
Fixpoint first_record_list (fields : list (string * Json)) : option (list Json) :=
  match fields with
  | [] => None
  | (_, JList []) :: _ => Some []
  | (_, JList (JDict f :: items)) :: _ => Some (JDict f :: items)
  | _ :: rest => first_record_list rest
  end.

Definition extract_memberships (payload : Json) : list Json :=
  match payload with
  | JList items => items
  | JDict fields =>
      match first_wrapper ["memberships"; "items"; "value"; "data"] fields with
      | Some items => items
      | None =>
          match first_record_list fields with
          | Some items => items
          | None => []
          end
      end
  | _ => []
  end.

(** One turn of [for m in memberships]: the login appended, if any. *)
Definition member_login (m : Json) : option Json :=
  match m with
  | JDict fields =>
      let user := or_else (dict_get "user" fields) (JDict []) in
      let login :=
        match user with
        | JDict user_fields => dict_get "login" user_fields
        | _ => JNull
        end in
      let login := or_else login (dict_get "login" fields) in
      if truthy login then Some login else None
  | _ => None
  end.

Definition append_logins (logins memberships : list Json) : list Json :=
  fold_left
    (fun acc m => match member_login m with Some login => acc ++ [login] | None => acc end)
    memberships logins.

(** Hashing the collected logins, which set membership and set
    construction do first: a list or a dict is unhashable. *)
Fixpoint identities (logins : list Json) : Result (list string) :=
  match logins with
  | [] => Return []
  | JStr s :: rest =>
      match identities rest with
      | Return names => Return (s :: names)
      | r => r
      end
  | (JList _ | JDict _) :: _ => Raise TypeError
  | _ :: _ => Raise Unmodelled
  end.

(** The de-duplication loop: [seen] is the set, [unique] the list built. *)
Fixpoint dedup_loop (logins : list string) (seen : gset string) (unique : list string)
    : list string :=
  match logins with
  | [] => unique
  | x :: rest =>
      if decide (x ∈ seen) then dedup_loop rest seen unique
      else dedup_loop rest ({[x]} ∪ seen) (unique ++ [x])
  end.

Definition dedup (logins : list string) : list string := dedup_loop logins ∅ [].

(** A row of the report that [sync_team_to_cost_center.py] and [test.py]
    write: the columns [login], [result] and [message]. *)
Record ResultRow : Type := mkResultRow {
  rr_login : string;
  rr_result : string;
  rr_message : string
}.

(** ** [sync_team_to_cost_center.py] *)

Module PerUser.
Section Script.

Context {St : Type}.
Variable transport : St → Request → Answer * St.

(** The part of [add_user_to_cost_center] after the request. *)
Definition add_outcome (url login : string) (resp : Response) : Result (bool * string) :=
  let http := " (HTTP " +:+ Str.of_int (status_code resp) +:+ ")" in
  if status_in (status_code resp) [200; 201; 202; 204] then
    Return (true, "Added " +:+ login +:+ http)
  else if status_in (status_code resp) [409; 422] then
    let body := Str.lower (Str.take 500 (text resp)) in
    if Str.contains "already" body || Str.contains "exists" body
       || Str.contains "has already been taken" body || Str.contains "conflict" body
    then Return (false, "Skip " +:+ login +:+ ": already in cost center" +:+ http)
    else Return (false, "Skip " +:+ login +:+ ": not added" +:+ http
                        +:+ " body=" +:+ Str.take 500 (text resp))
  else
    Raise (SystemExit ("Add to cost center failed for " +:+ login +:+ nl
             +:+ "URL: " +:+ url +:+ nl
             +:+ "HTTP " +:+ Str.of_int (status_code resp) +:+ nl
             +:+ "Response (first 1000 chars):" +:+ nl +:+ Str.take 1000 (text resp))).

Definition add_user_to_cost_center (base enterprise cost_center_id token login : string)
    : M St (bool * string) :=
  let url := base +:+ "/enterprises/" +:+ enterprise
               +:+ "/settings/billing/cost-centers/" +:+ cost_center_id +:+ "/resource" in
  let payload := JDict [("users", JList [JStr login])] in
  resp ← requests_request transport
           (mkRequest POST url (github_headers token) (Some payload) 30);
  lift (add_outcome url login resp).

(** The [while next_url] loop of [fetch_enterprise_team_member_logins]. *)
Fixpoint fetch_loop (token : string) (fuel : nat) (next_url : option string)
    (page : Z) (logins : list Json) {struct fuel} : M St (list Json) :=
  match next_url with
  | None => mret logins
  | Some url =>
      if negb (Str.nonempty url) then mret logins
      else
        match fuel with
        | O => lift OutOfFuel
        | S fuel' =>
            resp ← requests_request transport
                     (mkRequest GET url (github_headers token) None 30);
            if negb (status_code resp =? 200) then
              raise (SystemExit
                ("Fetch memberships failed (page " +:+ Str.of_int page +:+ ")" +:+ nl
                 +:+ "URL: " +:+ url +:+ nl
                 +:+ "HTTP " +:+ Str.of_int (status_code resp) +:+ nl
                 +:+ "Response (first 1000 chars):" +:+ nl
                 +:+ Str.take 1000 (text resp)))
            else
              match json resp with
              | None =>
                  raise (SystemExit
                    ("Non-JSON response (page " +:+ Str.of_int page +:+ ")" +:+ nl
                     +:+ "URL: " +:+ url +:+ nl
                     +:+ "HTTP " +:+ Str.of_int (status_code resp) +:+ nl
                     +:+ "Body (first 1000 chars):" +:+ nl
                     +:+ Str.take 1000 (text resp)))
              | Some payload =>
                  let memberships := extract_memberships payload in
                  print_page page (Z.of_nat (length memberships));;
                  let logins := append_logins logins memberships in
                  let next_url := parse_next_link (headers_get "Link" resp) in
                  let page := page + 1 in
                  if 200 <? page then
                    raise (SystemExit
                      "Aborting: too many pages (possible pagination loop).")
                  else fetch_loop token fuel' next_url page logins
              end
        end
  end.

(** As in the other scripts, the page guard makes 200 fuel enough. *)
Definition fetch_enterprise_team_member_logins
    (base enterprise team_slug token : string) : M St (list string) :=
  let url := base +:+ "/enterprises/" +:+ enterprise
               +:+ "/teams/" +:+ team_slug +:+ "/memberships" in
  logins ← fetch_loop token 200 (Some url) 1 [];
  names ← lift (identities logins);
  mret (dedup names).

(** The [for login in members] loop of [main]. *)
Fixpoint add_phase (base enterprise cost_center_id token : string)
    (members : list string) (results : list ResultRow) (added skipped : Z)
    : M St (list ResultRow * Z * Z) :=
  match members with
  | [] => mret (results, added, skipped)
  | login :: rest =>
      outcome ← add_user_to_cost_center base enterprise cost_center_id token login;
      let ok : bool := fst outcome in
      let msg : string := snd outcome in
      add_phase base enterprise cost_center_id token rest
        (results ++ [mkResultRow login (if ok then "added" else "skipped") msg])
        (if ok then added + 1 else added)
        (if ok then skipped else skipped + 1)
  end.

(** [main], from the fetch to the counts of the summary: reading the
    configuration and writing the CSV file are left out. *)
Definition main (base enterprise team_slug cost_center_id token : string)
    : M St (list ResultRow * Z * Z) :=
  members ← fetch_enterprise_team_member_logins base enterprise team_slug token;
  add_phase base enterprise cost_center_id token members [] 0 0.

End Script.
End PerUser.

(** ** Ranges and list slices *)

(** The iteration of [range(start, stop, step)] for a step that is not
    zero: [fuel] bounds the number of elements produced. *)
Fixpoint range_loop (fuel : nat) (i stop step : Z) : list Z :=
  match fuel with
  | O => []
  | S fuel' =>
      if (if 0 <? step then i <? stop else stop <? i)
      then i :: range_loop fuel' (i + step) stop step
      else []
  end.

(** [range(start, stop, step)]; a zero step is a ValueError.  A range has
    at most [|stop - start|] elements, which is the fuel given. *)
Definition py_range (start stop step : Z) : Result (list Z) :=
  if step =? 0 then Raise ValueError
  else Return (range_loop (Z.to_nat (Z.abs (stop - start))) start stop step).

(** A slice bound brought into [0, n], as slicing does: a negative bound
    counts from the end. *)
Definition clamp_index (n i : Z) : Z :=
  if i <? 0 then Z.max 0 (i + n) else Z.min i n.

(** [xs[lo:hi]]. *)
Definition list_slice {A} (xs : list A) (lo hi : Z) : list A :=
  let n := Z.of_nat (length xs) in
  let l := clamp_index n lo in
  let h := clamp_index n hi in
  take (Z.to_nat (h - l)) (drop (Z.to_nat l) xs).

(** ** [test.py] *)

Module Bulk.

(** [chunked]: [[xs[i : i + size] for i in range(0, len(xs), size)]]. *)
Definition chunked (xs : list string) (size : Z) : Result (list (list string)) :=
  match py_range 0 (Z.of_nat (length xs)) size with
  | Return starts => Return (map (fun i => list_slice xs i (i + size)) starts)
  | Raise e => Raise e
  | OutOfFuel => OutOfFuel
  end.

(** The text that [is_secondary_rate_limit] searches: the lower-cased
    [message] of a JSON dict, or the lower-cased body when [resp.json()]
    or the attribute lookups raise. *)
Definition rate_limit_text (resp : Response) : string :=
  match json resp with
  | Some (JDict fields) =>
      match or_else (dict_get "message" fields) (JStr EmptyString) with
      | JStr msg => Str.lower msg
      | _ => Str.lower (text resp)
      end
  | _ => Str.lower (text resp)
  end.

Definition is_secondary_rate_limit (resp : Response) : bool :=
  Str.contains "secondary rate limit" (rate_limit_text resp).

Section Script.

Context {St : Type}.
Variable transport : St → Request → Answer * St.
Variable random_unit : nat → Q.

(** The sleep computed for a 403 or 429 response at a given attempt. *)
Definition backoff_delay (resp : Response) (attempt max_backoff_seconds : Z) : M St Q :=
  let exponential :=
    jitter ← random_uniform random_unit 0 (3 # 2);
    mret (inject_Z (Z.min max_backoff_seconds (2 ^ attempt)) + jitter)%Q in
  match headers_get "Retry-After" resp with
  | Some retry_after =>
      if Str.nonempty retry_after && Str.isdigit retry_after then
        match Str.int_of_digits retry_after with
        | Some seconds => mret (inject_Z seconds)
        | None => raise ValueError
        end
      else exponential
  | None => exponential
  end.

(** The [for attempt in range(max_retries)] loop of
    [request_with_backoff]: [todo] attempts are left, [last] is the last
    response received.  The line printed before a sleep shows the duration
    with one decimal; for an int too large for a float this raises the
    OverflowError that [time_sleep] gives for such a duration. *)
Fixpoint backoff_loop (r : Request) (max_backoff_seconds : Z)
    (todo : nat) (attempt : Z) (last : option Response) : M St Response :=
  match todo with
  | O =>
      match last with
      | Some resp => mret resp
      | None => raise AssertionError
      end
  | S todo' =>
      resp ← requests_request transport r;
      if negb (status_in (status_code resp) [403; 429]) then mret resp
      else
        sleep_s ← backoff_delay resp attempt max_backoff_seconds;
        if (status_code resp =? 429) || is_secondary_rate_limit resp then
          time_sleep sleep_s;;
          backoff_loop r max_backoff_seconds todo' (attempt + 1) (Some resp)
        else mret resp
  end.

Definition request_with_backoff (method : Method) (url : string)
    (headers : list (string * string)) (json : option Json)
    (timeout max_retries max_backoff_seconds : Z) : M St Response :=
  backoff_loop (mkRequest method url headers json timeout) max_backoff_seconds
    (Z.to_nat max_retries) 0 None.

(** The [while next_url] loop of [fetch_enterprise_team_member_logins]. *)
Fixpoint fetch_loop (token : string) (fuel : nat) (next_url : option string)
    (page : Z) (logins : list Json) {struct fuel} : M St (list Json) :=
  match next_url with
  | None => mret logins
  | Some url =>
      if negb (Str.nonempty url) then mret logins
      else
        match fuel with
        | O => lift OutOfFuel
        | S fuel' =>
            resp ← request_with_backoff GET url (github_headers token) None 30 8 60;
            if negb (status_code resp =? 200) then
              raise (SystemExit
                ("Fetch memberships failed (page " +:+ Str.of_int page +:+ ")" +:+ nl
                 +:+ "URL: " +:+ url +:+ nl
                 +:+ "HTTP " +:+ Str.of_int (status_code resp) +:+ nl
                 +:+ "Response (first 1000 chars):" +:+ nl
                 +:+ Str.take 1000 (text resp)))
            else
              match json resp with
              | None =>
                  raise (SystemExit
                    ("Non-JSON response (page " +:+ Str.of_int page +:+ ")" +:+ nl
                     +:+ "URL: " +:+ url +:+ nl
                     +:+ "HTTP " +:+ Str.of_int (status_code resp) +:+ nl
                     +:+ "Body (first 1000 chars):" +:+ nl
                     +:+ Str.take 1000 (text resp)))
              | Some payload =>
                  let memberships := extract_memberships payload in
                  print_page page (Z.of_nat (length memberships));;
                  let logins := append_logins logins memberships in
                  let next_url := parse_next_link (headers_get "Link" resp) in
                  let page := page + 1 in
                  if 200 <? page then
                    raise (SystemExit
                      "Aborting: too many pages (possible pagination loop).")
                  else
                    pause ← random_uniform random_unit (1 # 10) (3 # 10);
                    time_sleep pause;;
                    fetch_loop token fuel' next_url page logins
              end
        end
  end.

(** The page guard lets the loop body run 200 times at most, so 200 is
    fuel enough ([bulk_fetch_loop_fuel] below). *)
Definition fetch_enterprise_team_member_logins
    (base enterprise team_slug token : string) : M St (list string) :=
  let url := base +:+ "/enterprises/" +:+ enterprise
               +:+ "/teams/" +:+ team_slug +:+ "/memberships" in
  logins ← fetch_loop token 200 (Some url) 1 [];
  names ← lift (identities logins);
  mret (dedup names).

(** The part of [add_users_to_cost_center_bulk] after the request. *)
Definition add_outcome (url : string) (logins : list string) (resp : Response)
    : Result (bool * string) :=
  let size := "batch size=" +:+ Str.of_int (Z.of_nat (length logins)) in
  let http := " (HTTP " +:+ Str.of_int (status_code resp) +:+ ")" in
  if status_in (status_code resp) [200; 201; 202; 204] then
    Return (true, "Added " +:+ size +:+ http)
  else if status_in (status_code resp) [409; 422] then
    let body := Str.lower (Str.take 800 (text resp)) in
    if Str.contains "already" body || Str.contains "exists" body
       || Str.contains "has already been taken" body || Str.contains "conflict" body
    then Return (false, "Skip " +:+ size +:+ ": already present" +:+ http)
    else Return (false, "Skip " +:+ size +:+ ": not added" +:+ http
                        +:+ " body=" +:+ Str.take 800 (text resp))
  else
    Raise (SystemExit ("Add to cost center failed for " +:+ size +:+ nl
             +:+ "URL: " +:+ url +:+ nl
             +:+ "HTTP " +:+ Str.of_int (status_code resp) +:+ nl
             +:+ "Response (first 1000 chars):" +:+ nl +:+ Str.take 1000 (text resp))).

Definition add_users_to_cost_center_bulk
    (base enterprise cost_center_id token : string) (logins : list string)
    (max_retries : Z) : M St (bool * string) :=
  let url := base +:+ "/enterprises/" +:+ enterprise
               +:+ "/settings/billing/cost-centers/" +:+ cost_center_id +:+ "/resource" in
  let payload := JDict [("users", JList (map JStr logins))] in
  resp ← request_with_backoff POST url (github_headers token) (Some payload)
           30 max_retries 60;
  lift (add_outcome url logins resp).

(** The [for idx, batch in enumerate(batches, start=1)] loop of [main]. *)
Fixpoint batch_phase (base enterprise cost_center_id token : string)
    (max_retries : Z) (inter_batch_min inter_batch_max : Q)
    (batches : list (list string)) (results : list ResultRow) (added skipped : Z)
    : M St (list ResultRow * Z * Z) :=
  match batches with
  | [] => mret (results, added, skipped)
  | batch :: rest =>
      outcome ← add_users_to_cost_center_bulk base enterprise cost_center_id token
                  batch max_retries;
      let ok : bool := fst outcome in
      let msg : string := snd outcome in
      let results :=
        results ++ map (fun login =>
                          mkResultRow login (if ok then "added" else "skipped") msg)
                       batch in
      let size := Z.of_nat (length batch) in
      pause ← random_uniform random_unit inter_batch_min inter_batch_max;
      time_sleep pause;;
      batch_phase base enterprise cost_center_id token max_retries
        inter_batch_min inter_batch_max rest results
        (if ok then added + size else added)
        (if ok then skipped else skipped + size)
  end.

(** [main], from the fetch to the counts of the summary; [chunk_size],
    the two pacing bounds and [max_retries] are the tuning knobs read from
    the environment.  Reading the configuration and writing the CSV file
    are left out. *)
Definition main (base enterprise team_slug cost_center_id token : string)
    (chunk_size : Z) (inter_batch_min inter_batch_max : Q) (max_retries : Z)
    : M St (list ResultRow * Z * Z) :=
  members ← fetch_enterprise_team_member_logins base enterprise team_slug token;
  batches ← lift (chunked members chunk_size);
  batch_phase base enterprise cost_center_id token max_retries
    inter_batch_min inter_batch_max batches [] 0 0.

End Script.
End Bulk.

(** ** [sync_team_cost_center_exact.py] *)

(** The places where the script walks through a Python set.  The order of
    such a walk follows the hash values of the strings, which change from
    one process to the next: it is a parameter of the run. *)
Inductive IterSite : Type :=
| CostCenterLogins
| UsersToAdd
| UsersToRemove
| UsersAlreadySynced.

(** What holds of every walk through a set: each member once. *)
Definition walks_each_once (order : gset string → list string) : Prop :=
  ∀ s : gset string, NoDup (order s) ∧ ∀ x, x ∈ order s ↔ x ∈ s.

Record Plan : Type := mkPlan {
  users_to_add : gset string;
  users_to_remove : gset string;
  users_already_synced : gset string
}.

(** A row of the CSV report. *)
Record Row : Type := mkRow {
  row_login : string;
  row_action : string;
  row_status : string;
  row_message : string
}.

(** What [main] prints as its summary, with the rows it writes. *)
Record Summary : Type := mkSummary {
  results : list Row;
  added_count : Z;
  removed_count : Z;
  synced_count : Z;
  error_count : Z
}.

Module Exact.

(** The [Calculate differences] step of [main]. *)
Definition sync_plan (team_members cost_center_users : list string) : Plan :=
  let team_set : gset string := list_to_set team_members in
  let cost_center_set : gset string := list_to_set cost_center_users in
  mkPlan (team_set ∖ cost_center_set)
         (cost_center_set ∖ team_set)
         (team_set ∩ cost_center_set).

(** The elements that [len(resources)] and [for resource in resources]
    see: a string gives its characters and a dict its keys; [None] is the
    TypeError of [len] on a value that has no length. *)
Definition resource_items (resources : Json) : option (list Json) :=
  match resources with
  | JList items => Some items
  | JStr s => Some (map (fun c => JStr (String c EmptyString)) (list_ascii_of_string s))
  | JDict fields => Some (map (fun kv => JStr (fst kv)) fields)
  | _ => None
  end.

(** One turn of [for resource in resources]: the name appended, if any. *)
Definition user_name (resource : Json) : option Json :=
  match resource with
  | JDict fields =>
      match dict_get "type" fields with
      | JStr t =>
          if String.eqb t "User" && truthy (dict_get "name" fields)
          then Some (dict_get "name" fields)
          else None
      | _ => None
      end
  | _ => None
  end.

Definition user_names (resources : list Json) : list Json :=
  fold_left
    (fun acc r => match user_name r with Some name => acc ++ [name] | None => acc end)
    resources [].

(** The part of [add_user_to_cost_center] after the request. *)
Definition add_outcome (url login : string) (resp : Response) : Result (bool * string) :=
  if status_in (status_code resp) [200; 201; 202; 204] then
    Return (true, "Added " +:+ login)
  else if status_in (status_code resp) [409; 422] then
    let body := Str.lower (Str.take 500 (text resp)) in
    if Str.contains "already" body || Str.contains "exists" body
    then Return (false, "Skip " +:+ login +:+ ": already exists")
    else Return (false, "Skip " +:+ login +:+ ": " +:+ Str.take 500 (text resp))
  else
    Raise (SystemExit ("Add to cost center failed for " +:+ login +:+ nl
             +:+ "URL: " +:+ url +:+ nl
             +:+ "HTTP " +:+ Str.of_int (status_code resp) +:+ nl
             +:+ "Response: " +:+ Str.take 1000 (text resp))).

(** The part of [remove_user_from_cost_center] after the request. *)
Definition remove_outcome (url login : string) (resp : Response)
    : Result (bool * string) :=
  if status_in (status_code resp) [200; 201; 202; 204] then
    Return (true, "Removed " +:+ login)
  else if status_code resp =? 400 then
    let body := Str.lower (Str.take 500 (text resp)) in
    if Str.contains "no resources" body
    then Return (false, "Skip " +:+ login
                        +:+ ": not in cost center (API says no resources to remove)")
    else Return (false, "Skip " +:+ login +:+ ": " +:+ Str.take 500 (text resp))
  else if status_code resp =? 404 then
    Return (false, "Skip " +:+ login +:+ ": endpoint or user not found (HTTP 404)")
  else
    Raise (SystemExit ("Remove from cost center failed for " +:+ login +:+ nl
             +:+ "URL: " +:+ url +:+ nl
             +:+ "HTTP " +:+ Str.of_int (status_code resp) +:+ nl
             +:+ "Response: " +:+ Str.take 1000 (text resp))).

Section Script.

Context {St : Type}.
Variable transport : St → Request → Answer * St.
Variable set_order : IterSite → gset string → list string.

(** [requests.get(url, headers=github_headers(token), timeout=30)]. *)
Definition requests_get (url token : string) : M St Response :=
  requests_request transport (mkRequest GET url (github_headers token) None 30).

(** The [while next_url] loop of [fetch_enterprise_team_member_logins]. *)
Fixpoint fetch_loop (token : string) (fuel : nat) (next_url : option string)
    (page : Z) (logins : list Json) {struct fuel} : M St (list Json) :=
  match next_url with
  | None => mret logins
  | Some url =>
      if negb (Str.nonempty url) then mret logins
      else
        match fuel with
        | O => lift OutOfFuel
        | S fuel' =>
            resp ← requests_get url token;
            if negb (status_code resp =? 200) then
              raise (SystemExit
                ("Fetch team memberships failed (page " +:+ Str.of_int page +:+ ")" +:+ nl
                 +:+ "URL: " +:+ url +:+ nl
                 +:+ "HTTP " +:+ Str.of_int (status_code resp) +:+ nl
                 +:+ "Response: " +:+ Str.take 1000 (text resp)))
            else
              match json resp with
              | None =>
                  raise (SystemExit
                    ("Non-JSON response (page " +:+ Str.of_int page +:+ ")" +:+ nl
                     +:+ "URL: " +:+ url +:+ nl
                     +:+ "Body: " +:+ Str.take 1000 (text resp)))
              | Some payload =>
                  let memberships := extract_memberships payload in
                  print_page page (Z.of_nat (length memberships));;
                  let logins := append_logins logins memberships in
                  let next_url := parse_next_link (headers_get "Link" resp) in
                  let page := page + 1 in
                  if 200 <? page then raise (SystemExit "Aborting: too many pages")
                  else fetch_loop token fuel' next_url page logins
              end
        end
  end.

(** The page guard lets the loop body run 200 times at most, so 200 is
    fuel enough ([exact_fetch_loop_fuel] below). *)
Definition fetch_enterprise_team_member_logins
    (base enterprise team_slug token : string) : M St (list string) :=
  let url := base +:+ "/enterprises/" +:+ enterprise
               +:+ "/teams/" +:+ team_slug +:+ "/memberships" in
  logins ← fetch_loop token 200 (Some url) 1 [];
  names ← lift (identities logins);
  mret (dedup names).

(** [list(set(logins))]. *)
Definition unique_logins (names : list string) : list string :=
  set_order CostCenterLogins (list_to_set names).

Definition fetch_cost_center_users
    (base enterprise cost_center_id token : string) : M St (list string) :=
  let url := base +:+ "/enterprises/" +:+ enterprise
               +:+ "/settings/billing/cost-centers/" +:+ cost_center_id in
  resp ← requests_get url token;
  if status_code resp =? 404 then mret []
  else if negb (status_code resp =? 200) then
    raise (SystemExit
      ("Fetch cost center users failed" +:+ nl
       +:+ "URL: " +:+ url +:+ nl
       +:+ "HTTP " +:+ Str.of_int (status_code resp) +:+ nl
       +:+ "Response: " +:+ Str.take 1000 (text resp)))
  else
    match json resp with
    | None =>
        raise (SystemExit
          ("Non-JSON response from cost center" +:+ nl
           +:+ "Body: " +:+ Str.take 1000 (text resp)))
    | Some (JDict fields) =>
        match resource_items (dict_get_default "resources" fields (JList [])) with
        | None => raise TypeError
        | Some resources =>
            names ← lift (identities (user_names resources));
            mret (unique_logins names)
        end
    | Some _ => raise AttributeError
    end.

Definition resources_url (base enterprise cost_center_id suffix : string) : string :=
  base +:+ "/enterprises/" +:+ enterprise
    +:+ "/settings/billing/cost-centers/" +:+ cost_center_id +:+ suffix.

Definition add_user_to_cost_center (base enterprise cost_center_id token login : string)
    : M St (bool * string) :=
  let url := resources_url base enterprise cost_center_id "/resources" in
  let payload := JDict [("users", JList [JStr login])] in
  resp ← requests_request transport
           (mkRequest POST url (github_headers token) (Some payload) 30);
  lift (add_outcome url login resp).

Definition remove_user_from_cost_center
    (base enterprise cost_center_id token login : string) : M St (bool * string) :=
  let url := resources_url base enterprise cost_center_id "/resource" in
  let payload := JDict [("users", JList [JStr login])] in
  resp ← requests_request transport
           (mkRequest DELETE url (github_headers token) (Some payload) 30);
  lift (remove_outcome url login resp).

(** One of the two mutation loops of [main]: [mutate] is the call made
    for each login, [action] and [verb] are the words of the report. *)
Fixpoint mutation_phase (mutate : string → M St (bool * string))
    (action verb : string) (logins : list string)
    (results : list Row) (done_count error_count : Z)
    : M St (list Row * Z * Z) :=
  match logins with
  | [] => mret (results, done_count, error_count)
  | login :: rest =>
      '(results, done_count, error_count) ←
        try_except
          (outcome ← mutate login;
           let ok : bool := fst outcome in
           let msg : string := snd outcome in
           mret (results ++ [mkRow login action (if ok then "success" else "skipped") msg],
                 if ok then done_count + 1 else done_count,
                 error_count))
          (fun e =>
             let error_msg := "Error " +:+ verb +:+ " " +:+ login +:+ ": " +:+ exn_str e in
             mret (results ++ [mkRow login action "error" error_msg],
                   done_count, error_count + 1));
      mutation_phase mutate action verb rest results done_count error_count
  end.

(** The part of [main] that follows the two fetches. *)
Definition main_from_plan (base enterprise cost_center_id token : string)
    (team_members cost_center_users : list string) : M St (Plan * Summary) :=
  let plan := sync_plan team_members cost_center_users in
  '(results, added, errors) ←
    mutation_phase (add_user_to_cost_center base enterprise cost_center_id token)
      "add" "adding" (set_order UsersToAdd (users_to_add plan)) [] 0 0;
  '(results, removed, errors) ←
    mutation_phase (remove_user_from_cost_center base enterprise cost_center_id token)
      "remove" "removing" (set_order UsersToRemove (users_to_remove plan))
      results 0 errors;
  let synced := set_order UsersAlreadySynced (users_already_synced plan) in
  let results :=
    results ++ map (fun login => mkRow login "none" "already_synced" "Already in sync")
                   synced in
  mret (plan, mkSummary results added removed (Z.of_nat (length synced)) errors).

(** [main], from the first fetch to the summary: reading the
    configuration and writing the CSV file are left out. *)
Definition main (base enterprise team_slug cost_center_id token : string)
    : M St (Plan * Summary) :=
  team_members ← fetch_enterprise_team_member_logins base enterprise team_slug token;
  cost_center_users ← fetch_cost_center_users base enterprise cost_center_id token;
  main_from_plan base enterprise cost_center_id token team_members cost_center_users.

End Script.
End Exact.

(** ** Notions used in the statements *)

(** [part] reads [pre<u>post]: the first [<] opens, the first [>] closes,
    and the locator [u] between them is not empty. *)
Definition bracketed (part pre u post : string) : Prop :=
  part = pre +:+ String "<" (u +:+ String ">" post) ∧
  Str.find_char "<" pre = -1 ∧
  Str.find_char ">" pre = -1 ∧
  Str.find_char ">" u = -1 ∧
  u ≠ EmptyString.

(** The segments that [parse_next_link] walks through. *)
Definition segments (h : string) : list string := map Str.strip (Str.split "," h).

(** The header of the specification's example. *)
Definition example_link : string :=
  "<https://x/y?page=2>; rel=" +:+ Str.quote +:+ "next" +:+ Str.quote
  +:+ ", <https://x/y?page=1>; rel=" +:+ Str.quote +:+ "prev" +:+ Str.quote.

(** [x] stands somewhere before [y] in [l]. *)
Definition precedes (l : list string) (x y : string) : Prop :=
  ∃ a b c, l = a ++ (x :: (b ++ (y :: c))).

(** [y] occurs in [l], and only after the first occurrence of [x]. *)
Definition first_seen_before (l : list string) (x y : string) : Prop :=
  ∃ a b, l = a ++ x :: b ∧ (x ∉ a) ∧ (y ∉ a) ∧ y ∈ b ∧ x ≠ y.

(** [n] times the character [c]. *)
Fixpoint repeat_char (c : ascii) (n : nat) : string :=
  match n with
  | O => EmptyString
  | S n' => String c (repeat_char c n')
  end.

(** The part of a body that the per-user classifiers look at: its first
    500 characters, lower-cased. *)
Definition inspected (resp : Response) : string := Str.lower (Str.take 500 (text resp)).

(** A response with a status, a body and nothing else. *)
Definition plain_response (status : Z) (body : string) : Response :=
  mkResponse status ∅ body None.

(** The request that [Exact.add_user_to_cost_center] sends. *)
Definition add_request (base enterprise cost_center_id token login : string) : Request :=
  mkRequest POST (Exact.resources_url base enterprise cost_center_id "/resources")
    (github_headers token) (Some (JDict [("users", JList [JStr login])])) 30.

(** The request that [Exact.remove_user_from_cost_center] sends. *)
Definition remove_request (base enterprise cost_center_id token login : string) : Request :=
  mkRequest DELETE (Exact.resources_url base enterprise cost_center_id "/resource")
    (github_headers token) (Some (JDict [("users", JList [JStr login])])) 30.

(** A 403 or 429 response that [request_with_backoff] answers by a sleep
    and a new attempt. *)
Definition retryable (resp : Response) : bool :=
  (status_code resp =? 429)
  || ((status_code resp =? 403) && Bulk.is_secondary_rate_limit resp).

(** The Retry-After header, when it passes [isdigit], is made of decimal
    digits only, and of no more of them than [int] converts. *)
Definition retry_after_readable (resp : Response) : bool :=
  match headers_get "Retry-After" resp with
  | Some retry_after =>
      negb (Str.isdigit retry_after)
      || (Str.all_chars Str.isdecimal_char retry_after
          && (String.length retry_after <=? Str.int_max_str_digits)%nat)
  | None => true
  end.

(** The Retry-After header holds a non-negative decimal integer. *)
Definition retry_after_seconds (resp : Response) : option Z :=
  match headers_get "Retry-After" resp with
  | Some retry_after => Str.int_of_digits retry_after
  | None => None
  end.

(** The character U+00B2, superscript two, as a header value. *)
Definition superscript_two : string := String (ascii_of_N 178) EmptyString.

(** A response with a status, a body and a Retry-After header. *)
Definition throttled_response (status : Z) (body retry_after : string) : Response :=
  mkResponse status {[ "retry-after" := retry_after ]} body None.

(** A server that gives the same answer to every request. *)
Definition constant_server (resp : Response) (s : unit) (r : Request) : Answer * unit :=
  (Responded resp, s).

(** A server that plays a list of responses, the last one for ever. *)
Definition scripted_server (default : Response) (s : list Response) (r : Request)
    : Answer * list Response :=
  match s with
  | [] => (Responded default, [])
  | resp :: rest => (Responded resp, rest)
  end.

(** A generator whose every draw is one half. *)
Definition half (n : nat) : Q := 1 # 2.

Definition initial_world {St} (s : St) : World St := mkWorld s [] 0 [] [].

(** The value of [min(max_backoff_seconds, 2**attempt) + random.uniform(0, 1.5)]
    when the next draw of the generator is the [n]-th. *)
Definition exponential_sleep (random_unit : nat → Q) (max_backoff_seconds : Z)
    (attempt : Z) (n : nat) : Q :=
  (inject_Z (Z.min max_backoff_seconds (2 ^ attempt))
   + (0 + ((3 # 2) - 0) * unit_draw (random_unit n)))%Q.

(** The sleep due for a retryable response at a given attempt. *)
Definition sleep_for {St} (random_unit : nat → Q) (max_backoff_seconds : Z)
    (resp : Response) (attempt : Z) (w : World St) : Q :=
  match retry_after_seconds resp with
  | Some seconds => inject_Z seconds
  | None => exponential_sleep random_unit max_backoff_seconds attempt (draws w)
  end.

(** A duration that [time.sleep] takes: not negative and within the
    horizon of the model. *)
Definition sleepable (d : Q) : Prop := (0 <= d)%Q ∧ (d <= inject_Z sleep_horizon)%Q.

(** The sleep that the Retry-After header asks for, if any, is within the
    horizon of the model. *)
Definition retry_after_in_reach (resp : Response) : bool :=
  match retry_after_seconds resp with
  | Some seconds => seconds <=? sleep_horizon
  | None => true
  end.

(** The world after one request [r] that the server answers. *)
Definition after_request {St} (r : Request) (w : World St) (s' : St) : World St :=
  mkWorld s' (sent w ++ [r]) (draws w) (slept w) (pages w).

(** A server that answers every request by a page with a next locator. *)
Definition always_next {St} (transport : St → Request → Answer * St) : Prop :=
  ∀ s r, ∃ resp s',
    transport s r = (Responded resp, s') ∧
    status_code resp = 200 ∧
    is_Some (json resp) ∧
    is_Some (parse_next_link (headers_get "Link" resp)).

(** A page with no member and a next locator. *)
Definition looping_page : Response :=
  mkResponse 200 {[ "link" := example_link ]} "[]" (Some (JList [])).

(** The request that [Exact.fetch_cost_center_users] sends. *)
Definition cost_center_request (base enterprise cost_center_id token : string) : Request :=
  mkRequest GET
    (base +:+ "/enterprises/" +:+ enterprise
       +:+ "/settings/billing/cost-centers/" +:+ cost_center_id)
    (github_headers token) None 30.

(** A cost center with the users bob and alice, in this order. *)
Definition bob_alice_center : Response :=
  mkResponse 200 ∅ "{...}"
    (Some (JDict [("resources",
                   JList [JDict [("type", JStr "User"); ("name", JStr "bob")];
                          JDict [("type", JStr "User"); ("name", JStr "alice")]])])).

(** One admissible walk through a set: the order of its [elements]. *)
Definition elements_walk (site : IterSite) (s : gset string) : list string := elements s.

(** ** Notions used in the further facts *)

(** The wrapper keys of [extract_memberships], in the order tried. *)
Definition wrapper_keys : list string := ["memberships"; "items"; "value"; "data"].

(** [key] carries a list in the dict. *)
Definition list_valued (fields : list (string * Json)) (key : string) : Prop :=
  ∃ items, dict_get key fields = JList items.

(** A list that the second loop of [extract_memberships] accepts. *)
Definition record_like (items : list Json) : bool :=
  match items with
  | [] => true
  | JDict _ :: _ => true
  | _ => false
  end.

(** [p] is a piece of [s]. *)
Definition piece_of (p s : string) : Prop := ∃ a b, s = a +:+ p +:+ b.

(** The number of rows of a report with a given status. *)
Definition count_status (status : string) (rows : list Row) : Z :=
  Z.of_nat (length (filter (fun row => row_status row = status) rows)).

(** A server that fails on every request, with a given message. *)
Definition failing_server (message : string) (s : unit) (r : Request) : Answer * unit :=
  (Failed message, s).

(** The locator that a page gives for the next one. *)
Definition next_locator (resp : Response) : option string :=
  parse_next_link (headers_get "Link" resp).

(** The membership records of a page. *)
Definition page_members (resp : Response) : list Json :=
  match json resp with
  | Some payload => extract_memberships payload
  | None => []
  end.

(** A page that the fetch loops read: status 200 and a JSON body. *)
Definition readable_page (resp : Response) : Prop :=
  status_code resp = 200 ∧ is_Some (json resp).

(** A readable page that names a next one. *)
Definition linked_page (resp : Response) : Prop :=
  readable_page resp ∧ is_Some (next_locator resp).

(** The request that the fetch loops send for a page. *)
Definition page_request (token url : string) : Request :=
  mkRequest GET url (github_headers token) None 30.

(** The logins of a sequence of pages, page after page. *)
Definition chain_logins (chain : list Response) : list Json :=
  flat_map (fun resp => omap member_login (page_members resp)) chain.

(** The progress lines of a sequence of pages, numbered from [first]. *)
Fixpoint progress_lines (first : Z) (chain : list Response) : list (Z * Z) :=
  match chain with
  | [] => []
  | resp :: rest =>
      (first, Z.of_nat (length (page_members resp))) :: progress_lines (first + 1) rest
  end.

(** A page with one member and no next locator. *)
Definition closing_page (login : string) : Response :=
  mkResponse 200 ∅ "[...]" (Some (JList [JDict [("login", JStr login)]])).

(** A page with one member and a next locator. *)
Definition opening_page (login : string) : Response :=
  mkResponse 200 {[ "link" := example_link ]} "[...]"
    (Some (JList [JDict [("user", JDict [("login", JStr login)])]])).

(** The number of rows of a report with a given result. *)
Definition count_result (result : string) (rows : list ResultRow) : Z :=
  Z.of_nat (length (filter (fun row => rr_result row = result) rows)).

(** The request that [PerUser.add_user_to_cost_center] sends. *)
Definition per_user_request (base enterprise cost_center_id token login : string)
    : Request :=
  mkRequest POST
    (base +:+ "/enterprises/" +:+ enterprise
       +:+ "/settings/billing/cost-centers/" +:+ cost_center_id +:+ "/resource")
    (github_headers token) (Some (JDict [("users", JList [JStr login])])) 30.

(** The request that [Bulk.add_users_to_cost_center_bulk] sends. *)
Definition bulk_request (base enterprise cost_center_id token : string)
    (logins : list string) : Request :=
  mkRequest POST
    (base +:+ "/enterprises/" +:+ enterprise
       +:+ "/settings/billing/cost-centers/" +:+ cost_center_id +:+ "/resource")
    (github_headers token) (Some (JDict [("users", JList (map JStr logins))])) 30.

(** The requests of a run that sends each batch a given number of times. *)
Definition batch_requests (base enterprise cost_center_id token : string)
    (batches : list (list string)) (counts : list nat) : list Request :=
  concat (zip_with
            (fun batch n =>
               replicate n (bulk_request base enterprise cost_center_id token batch))
            batches counts).

(** The pauses of [random.uniform(a, b)] for [count] draws from the
    [first]-th on. *)
Definition pauses (random_unit : nat → Q) (a b : Q) (first count : nat) : list Q :=
  map (fun n => (a + (b - a) * unit_draw (random_unit n))%Q) (seq first count).

(** ** Notions of the continuation header *)







(** * Facts *)

(* [set_solver] clears hypotheses that some goals do not have. *)
#[local] Set Warnings "-clear-no-such-hyp".

(** ** Strings *)

Lemma append_empty (s : string) : EmptyString +:+ s = s.
Proof. reflexivity. Qed.

Lemma append_cons (c : ascii) (t s : string) : String c t +:+ s = String c (t +:+ s).
Proof. reflexivity. Qed.

Lemma append_assoc (a b c : string) : (a +:+ b) +:+ c = a +:+ (b +:+ c).
Proof. induction a as [|d t IH]; rewrite ?append_empty, ?append_cons; congruence. Qed.

Lemma length_append (a b : string) :
  String.length (a +:+ b) = (String.length a + String.length b)%nat.
Proof.
  induction a as [|d t IH]; rewrite ?append_empty, ?append_cons; simpl; congruence.
Qed.

Lemma find_char_lower_bound (c : ascii) (s : string) : -1 ≤ Str.find_char c s.
Proof.
  induction s as [|d t IH]; simpl; [lia|].
  destruct (Ascii.eqb d c); [lia|].
  destruct (Z.ltb_spec (Str.find_char c t) 0); lia.
Qed.

(** A found character splits the string at its first occurrence. *)
Lemma find_char_split (c : ascii) (s : string) :
  0 ≤ Str.find_char c s →
  ∃ pre post,
    s = pre +:+ String c post ∧
    Z.of_nat (String.length pre) = Str.find_char c s ∧
    Str.find_char c pre = -1.
Proof.
  induction s as [|d t IH]; simpl; [lia|].
  destruct (Ascii.eqb_spec d c) as [->|Hne].
  - intros _. exists EmptyString, t. auto.
  - destruct (Z.ltb_spec (Str.find_char c t) 0) as [Hlt|Hge]; [lia|].
    intros _. destruct (IH Hge) as (pre & post & -> & Hlen & Habs).
    exists (String d pre), post. simpl.
    destruct (Ascii.eqb_spec d c); [done|].
    rewrite Habs. simpl. split; [done|]. split; [lia|done].
Qed.

Lemma find_char_app (c : ascii) (pre s : string) :
  Str.find_char c pre = -1 →
  Str.find_char c (pre +:+ s) =
    if Str.find_char c s <? 0 then -1
    else Z.of_nat (String.length pre) + Str.find_char c s.
Proof.
  induction pre as [|d t IH]; rewrite ?append_empty, ?append_cons; simpl.
  - intros _. pose proof (find_char_lower_bound c s).
    destruct (Z.ltb_spec (Str.find_char c s) 0); lia.
  - destruct (Ascii.eqb d c); [lia|].
    destruct (Z.ltb_spec (Str.find_char c t) 0) as [Hlt|Hge]; [|lia].
    intros _. pose proof (find_char_lower_bound c t).
    rewrite IH by lia.
    destruct (Z.ltb_spec (Str.find_char c s) 0); simpl; [done|].
    destruct (Z.ltb_spec (Z.of_nat (String.length t) + Str.find_char c s) 0); lia.
Qed.

Lemma find_char_app_found (c : ascii) (pre s : string) :
  Str.find_char c pre = -1 → 0 ≤ Str.find_char c s →
  Str.find_char c (pre +:+ s) = Z.of_nat (String.length pre) + Str.find_char c s.
Proof.
  intros Habs Hpos. rewrite find_char_app by done.
  destruct (Z.ltb_spec (Str.find_char c s) 0); lia.
Qed.

Lemma find_char_here (c : ascii) (s : string) : Str.find_char c (String c s) = 0.
Proof. simpl. by rewrite Ascii.eqb_refl. Qed.

Lemma substring_skip (pre s : string) (n : nat) :
  String.substring (String.length pre) n (pre +:+ s) = String.substring 0 n s.
Proof. induction pre as [|d t IH]; rewrite ?append_empty, ?append_cons; simpl; done. Qed.

Lemma substring_prefix (u s : string) :
  String.substring 0 (String.length u) (u +:+ s) = u.
Proof.
  induction u as [|d t IH]; rewrite ?append_empty, ?append_cons; simpl;
    [by destruct s|]. by rewrite IH.
Qed.

(** The slice between the two brackets of [pre<u>post]. *)
Lemma slice_between (pre u post : string) (a b : ascii) :
  Str.slice (pre +:+ String a (u +:+ String b post))
    (Z.of_nat (String.length pre) + 1)
    (Z.of_nat (String.length pre) + 1 + Z.of_nat (String.length u)) = u.
Proof.
  unfold Str.slice.
  replace (Z.to_nat (Z.of_nat (String.length pre) + 1))
    with (String.length (pre +:+ String a EmptyString)).
  2:{ rewrite length_append. simpl. lia. }
  replace (Z.to_nat _) with (String.length u) by lia.
  replace (pre +:+ String a (u +:+ String b post))
    with ((pre +:+ String a EmptyString) +:+ (u +:+ String b post)).
  2:{ by rewrite append_assoc. }
  rewrite substring_skip. apply substring_prefix.
Qed.

(** ** The continuation header *)

Lemma nonempty_length (u : string) : u ≠ EmptyString → (0 < String.length u)%nat.
Proof. destruct u; simpl; [done|lia]. Qed.

Lemma bracketed_indices (part pre u post : string) :
  bracketed part pre u post →
  Str.find_char "<" part = Z.of_nat (String.length pre) ∧
  Str.find_char ">" part =
    Z.of_nat (String.length pre) + 1 + Z.of_nat (String.length u).
Proof.
  intros (-> & Hlt & Hgt & Hu & Hne). split.
  - rewrite find_char_app_found; rewrite ?find_char_here; try done. lia.
  - assert (Hin : Str.find_char ">" (u +:+ String ">" post)
                  = Z.of_nat (String.length u)).
    { rewrite find_char_app_found; rewrite ?find_char_here; try done. lia. }
    assert (Hin' : Str.find_char ">" (String "<" (u +:+ String ">" post))
                   = 1 + Z.of_nat (String.length u)).
    { change (String "<" (u +:+ String ">" post))
        with (String "<" EmptyString +:+ (u +:+ String ">" post)).
      rewrite find_char_app_found; rewrite ?Hin; try done. lia. }
    rewrite find_char_app_found; rewrite ?Hin'; try done; lia.
Qed.

(** The two tests of the loop body pass on a bracketed segment, and the
    slice taken is the locator. *)
Lemma bracketed_slice (part pre u post : string) :
  bracketed part pre u post →
  let start := Str.find_char "<" part + 1 in
  let end_ := Str.find_char ">" part in
  (0 <? start) && (start <? end_) = true ∧ Str.slice part start end_ = u.
Proof.
  intros Hb. destruct (bracketed_indices _ _ _ _ Hb) as [-> ->].
  pose proof Hb as (-> & _ & _ & _ & Hne%nonempty_length). simpl. split.
  - apply andb_true_intro. split; [apply Z.ltb_lt|apply Z.ltb_lt]; lia.
  - apply slice_between.
Qed.

(** Conversely, a segment that passes the two tests is bracketed around
    the slice taken. *)
Lemma slice_bracketed (part : string) :
  let start := Str.find_char "<" part + 1 in
  let end_ := Str.find_char ">" part in
  (0 <? start) && (start <? end_) = true →
  ∃ pre post, bracketed part pre (Str.slice part start end_) post.
Proof.
  intros start end_ [Hs%Z.ltb_lt He%Z.ltb_lt]%andb_prop. subst start end_.
  destruct (find_char_split "<" part) as (pre & rest & Hpart & Hlen & Hlt); [lia|].
  assert (Hgt : Str.find_char ">" pre = -1).
  { pose proof (find_char_lower_bound ">" pre).
    destruct (Z.eq_dec (Str.find_char ">" pre) (-1)) as [|Hne]; [done|].
    destruct (find_char_split ">" pre) as (a & b & Hpre & Hla & Ha); [lia|].
    assert (Hfound : Str.find_char ">" part = Z.of_nat (String.length a)).
    { rewrite Hpart, Hpre, append_assoc, append_cons.
      rewrite find_char_app_found; rewrite ?find_char_here; try done. lia. }
    assert (String.length a ≤ String.length pre)%nat.
    { rewrite Hpre, length_append. lia. }
    lia. }
  assert (Hrest : Str.find_char ">" part =
                  Z.of_nat (String.length pre) + 1 + Str.find_char ">" rest
                  ∧ 0 ≤ Str.find_char ">" rest).
  { pose proof (find_char_lower_bound ">" rest).
    assert (Hin : Str.find_char ">" (String "<" rest) =
                  if Str.find_char ">" rest <? 0 then -1
                  else 1 + Str.find_char ">" rest).
    { change (String "<" rest) with (String "<" EmptyString +:+ rest).
      by rewrite find_char_app. }
    assert (Hp : Str.find_char ">" part =
                 if Str.find_char ">" (String "<" rest) <? 0 then -1
                 else Z.of_nat (String.length pre)
                      + Str.find_char ">" (String "<" rest)).
    { rewrite Hpart at 1. by rewrite find_char_app. }
    rewrite Hin in Hp.
    destruct (Z.ltb_spec (Str.find_char ">" rest) 0);
      destruct (Z.ltb_spec (1 + Str.find_char ">" rest) 0);
      destruct (Z.ltb_spec (-1) 0); lia. }
  destruct Hrest as [Hend Hpos].
  destruct (find_char_split ">" rest) as (u & post & Hr & Hlu & Hu); [done|].
  exists pre, post.
  assert (Hslice : Str.slice part (Str.find_char "<" part + 1) (Str.find_char ">" part) = u).
  { rewrite Hend, <- Hlen, <- Hlu. rewrite Hpart, Hr. apply slice_between. }
  rewrite Hslice. repeat split; try done.
  - by rewrite Hpart, Hr.
  - intros ->. simpl in Hlu. lia.
Qed.

Lemma first_next_unmarked (parts : list string) :
  Forall (fun p => Str.contains rel_next p = false) parts → first_next parts = None.
Proof. induction 1 as [|p ps Hp _ IH]; simpl; [done|]. by rewrite Hp. Qed.

Lemma first_next_sound (parts : list string) (u : string) :
  first_next parts = Some u →
  ∃ part pre post,
    part ∈ parts ∧ Str.contains rel_next part = true ∧ bracketed part pre u post.
Proof.
  induction parts as [|p ps IH]; simpl; [done|].
  destruct (Str.contains rel_next p) eqn:Hm.
  - destruct (_ && _) eqn:Ht.
    + intros [= <-]. destruct (slice_bracketed p Ht) as (pre & post & Hb).
      exists p, pre, post. split; [left|done].
    + intros (part & pre & post & Hin & H)%IH. exists part, pre, post.
      split; [by right|done].
  - intros (part & pre & post & Hin & H)%IH. exists part, pre, post.
    split; [by right|done].
Qed.

Lemma first_next_selects (before after : list string) (part pre u post : string) :
  Forall (fun p => Str.contains rel_next p = false) before →
  Str.contains rel_next part = true →
  bracketed part pre u post →
  first_next (before ++ part :: after) = Some u.
Proof.
  intros Hbefore Hm Hb. induction Hbefore as [|p ps Hp _ IH]; simpl.
  - rewrite Hm. destruct (bracketed_slice _ _ _ _ Hb) as [-> ->]. done.
  - by rewrite Hp.
Qed.

(** ** De-duplication *)

Lemma list_to_set_snoc (u : list string) (x : string) :
  ({[x]} ∪ list_to_set u : gset string) = list_to_set (u ++ [x]).
Proof. rewrite list_to_set_app_L. simpl. set_solver. Qed.

(** The loop started on what it has built so far, one element more. *)
Lemma dedup_loop_snoc (l u : list string) (z : string) :
  dedup_loop (l ++ [z]) (list_to_set u) u =
    let r := dedup_loop l (list_to_set u) u in
    if decide (z ∈ r) then r else r ++ [z].
Proof.
  revert u. induction l as [|x l IH]; intros u; simpl.
  - destruct (decide (z ∈ list_to_set u)) as [Hin|Hout];
      destruct (decide (z ∈ u)) as [Hin'|Hout']; try done.
    + by rewrite elem_of_list_to_set in Hin.
    + exfalso. by apply Hout, elem_of_list_to_set.
  - destruct (decide (x ∈ list_to_set u)); [apply IH|].
    rewrite list_to_set_snoc. apply IH.
Qed.

Lemma dedup_loop_elem (l u : list string) (x : string) :
  x ∈ dedup_loop l (list_to_set u) u ↔ x ∈ u ∨ x ∈ l.
Proof.
  revert u. induction l as [|y l IH]; intros u; simpl.
  - set_solver.
  - destruct (decide (y ∈ list_to_set u)) as [Hin|Hout].
    + rewrite IH. rewrite elem_of_list_to_set in Hin. set_solver.
    + rewrite list_to_set_snoc, IH. set_solver.
Qed.

Lemma dedup_elem (l : list string) (x : string) : x ∈ dedup l ↔ x ∈ l.
Proof.
  unfold dedup. change (∅ : gset string) with (list_to_set [] : gset string).
  rewrite dedup_loop_elem. set_solver.
Qed.

Lemma dedup_nil : dedup [] = [].
Proof. reflexivity. Qed.

(** An element seen before changes nothing, a new one goes to the end. *)
Lemma dedup_snoc (l : list string) (z : string) :
  dedup (l ++ [z]) = if decide (z ∈ l) then dedup l else dedup l ++ [z].
Proof.
  unfold dedup. pose proof (dedup_loop_snoc l [] z) as H. simpl in H.
  rewrite H. clear H. fold (dedup l).
  destruct (decide (z ∈ dedup l)) as [Hin|Hout];
    destruct (decide (z ∈ l)) as [Hin'|Hout']; try done.
  - by rewrite dedup_elem in Hin.
  - exfalso. by apply Hout, dedup_elem.
Qed.

Lemma dedup_NoDup (l : list string) : NoDup (dedup l).
Proof.
  induction l as [|z l IH] using rev_ind; [constructor|].
  rewrite dedup_snoc. destruct (decide (z ∈ l)) as [Hin|Hout]; [done|].
  apply NoDup_app. split; [done|]. split; [|apply NoDup_singleton].
  intros x Hx Hz. rewrite dedup_elem in Hx. rewrite list_elem_of_singleton in Hz.
  by subst.
Qed.

Ltac reassoc := repeat (rewrite <- app_assoc; simpl); try done.

Lemma snoc_middle (a b : list string) (x y : string) :
  a ++ (x :: (b ++ [y])) = (a ++ x :: b) ++ [y].
Proof. reassoc. Qed.

Lemma precedes_snoc (r : list string) (z x y : string) :
  precedes (r ++ [z]) x y ↔ precedes r x y ∨ (x ∈ r ∧ y = z).
Proof.
  unfold precedes. split.
  - intros (a & b & c & Heq).
    destruct c as [|c0 c _] using rev_ind.
    + right. rewrite snoc_middle in Heq.
      apply app_inj_tail in Heq as [-> ->]. split; [set_solver|done].
    + left. exists a, b, c.
      assert (E : a ++ (x :: (b ++ (y :: (c ++ [c0]))))
                  = (a ++ (x :: (b ++ (y :: c)))) ++ [c0]).
      { reassoc. }
      rewrite E in Heq. by apply app_inj_tail in Heq as [-> _].
  - intros [(a & b & c & ->)|[(a & b & ->)%list_elem_of_split ->]].
    + exists a, b, (c ++ [z]). reassoc.
    + exists a, b, []. reassoc.
Qed.

Lemma first_seen_before_snoc (l : list string) (z x y : string) :
  first_seen_before (l ++ [z]) x y ↔
  first_seen_before l x y ∨ (x ∈ l ∧ y = z ∧ z ∉ l).
Proof.
  unfold first_seen_before. split.
  - intros (a & b & Heq & Hxa & Hya & Hyb & Hne).
    destruct b as [|b0 b _] using rev_ind; [by apply elem_of_nil in Hyb|].
    rewrite snoc_middle in Heq.
    apply app_inj_tail in Heq as [-> ->].
    apply elem_of_app in Hyb as [Hyb|Hyb].
    + left. by exists a, b.
    + rewrite list_elem_of_singleton in Hyb. subst y.
      destruct (decide (b0 ∈ a ++ x :: b)) as [Hin|Hout].
      * left. exists a, b. set_solver.
      * right. set_solver.
  - intros [(a & b & -> & Hxa & Hya & Hyb & Hne)|(Hx & -> & Hz)].
    + exists a, (b ++ [z]). split; [reassoc|set_solver].
    + apply list_elem_of_split_l in Hx as (a & b & -> & Hxa).
      exists a, (b ++ [z]). split; [reassoc|set_solver].
Qed.

(** The order of the result is the order of first appearance. *)
Lemma dedup_order (l : list string) (x y : string) :
  precedes (dedup l) x y ↔ first_seen_before l x y.
Proof.
  induction l as [|z l IH] using rev_ind.
  - unfold precedes, first_seen_before. rewrite dedup_nil. split.
    + intros (a & b & c & Heq). by destruct a.
    + intros (a & b & Heq & _). by destruct a.
  - rewrite dedup_snoc, first_seen_before_snoc.
    destruct (decide (z ∈ l)) as [Hin|Hout].
    + rewrite IH. set_solver.
    + rewrite precedes_snoc, IH, dedup_elem. set_solver.
Qed.

(** ** Chunking *)

Section Chunked.

Variable xs : list string.
Variable size : Z.
Hypothesis size_pos : 0 < size.

Let n : Z := Z.of_nat (length xs).

(** A chunk that starts inside the list. *)
Lemma list_slice_chunk (i : Z) :
  0 ≤ i < n →
  list_slice xs i (i + size) = take (Z.to_nat size) (drop (Z.to_nat i) xs).
Proof.
  intros Hi. unfold list_slice, clamp_index. fold n.
  destruct (Z.ltb_spec i 0); [lia|].
  destruct (Z.ltb_spec (i + size) 0); [lia|].
  rewrite (Z.min_l i n) by lia.
  destruct (Z.le_ge_cases (i + size) n) as [Hle|Hge].
  - rewrite Z.min_l by lia. f_equal. lia.
  - rewrite Z.min_r by lia.
    rewrite !take_ge; [done| |]; rewrite length_drop; subst n; lia.
Qed.

Lemma list_slice_chunk_length (i : Z) :
  0 ≤ i < n →
  Z.of_nat (length (list_slice xs i (i + size))) = Z.min size (n - i).
Proof.
  intros Hi. rewrite list_slice_chunk by done.
  rewrite length_take, length_drop. subst n. lia.
Qed.

(** The starts that the range still has to produce from [i] on: they are
    the multiples of [size] below [n], and the chunks taken at them make
    up the rest of the list. *)
Lemma range_loop_chunks (fuel : nat) (i : Z) :
  0 ≤ i → n - i ≤ Z.of_nat fuel →
  let starts := range_loop fuel i n size in
  concat (map (fun j => list_slice xs j (j + size)) starts)
    = drop (Z.to_nat i) xs ∧
  Forall (fun j => 0 ≤ j < n) starts ∧
  (∀ k j, starts !! k = Some j → j = i + Z.of_nat k * size) ∧
  size * (Z.of_nat (length starts) - 1) < Z.max 0 (n - i)
    ≤ size * Z.of_nat (length starts).
Proof.
  revert i. induction fuel as [|fuel IH]; intros i Hi Hfuel; simpl.
  - repeat split; try done; try lia.
    rewrite drop_ge; [done|subst n; lia].
  - destruct (Z.ltb_spec 0 size) as [_|]; [|lia].
    destruct (Z.ltb_spec i n) as [Hlt|Hge].
    + destruct (IH (i + size)) as (Hcat & Hall & Hnth & Hlen); [lia|lia|].
      simpl. repeat split.
      * rewrite Hcat, list_slice_chunk by lia.
        replace (Z.to_nat (i + size)) with (Z.to_nat i + Z.to_nat size)%nat by lia.
        rewrite <- drop_drop. apply take_drop.
      * constructor; [lia|done].
      * intros [|k] j; simpl; [intros [= <-]; lia|].
        intros ->%Hnth. lia.
      * rewrite Nat2Z.inj_succ. revert Hlen.
        generalize (Nat2Z.is_nonneg (length (range_loop fuel (i + size) n size))).
        generalize (Z.of_nat (length (range_loop fuel (i + size) n size))).
        intros L HL Hlen. rewrite (Z.max_r 0 (n - i)) by lia.
        destruct (Z.max_spec 0 (n - (i + size))) as [[? Hm]|[? Hm]];
          rewrite Hm in Hlen; [nia|].
        assert (L = 0) as -> by nia. lia.
      * rewrite Nat2Z.inj_succ. revert Hlen.
        generalize (Z.of_nat (length (range_loop fuel (i + size) n size))).
        intros L Hlen. rewrite (Z.max_r 0 (n - i)) by lia.
        destruct (Z.max_spec 0 (n - (i + size))) as [[? Hm]|[? Hm]];
          rewrite Hm in Hlen; nia.
    + simpl. repeat split; try done; try lia.
      rewrite drop_ge; [done|subst n; lia].
Qed.

End Chunked.

(** C7: for a positive chunk size, [chunked] returns chunks whose
    concatenation is the input; every chunk has between 1 and [size]
    elements; the chunk of index [k] is the [size] elements of the input
    from position [k * size] on (fewer at the end); the number of chunks is
    the ceiling of [|xs| / size], the least [m] with [|xs| ≤ size * m]; and
    the empty input gives no chunk at all. *)
Theorem chunked_spec (xs : list string) (size : Z) :
  0 < size →
  ∃ chunks,
    Bulk.chunked xs size = Return chunks ∧
    concat chunks = xs ∧
    Forall (fun c => 0 < Z.of_nat (length c) ≤ size) chunks ∧
    (∀ k c, chunks !! k = Some c →
            c = take (Z.to_nat size) (drop (k * Z.to_nat size) xs)) ∧
    size * (Z.of_nat (length chunks) - 1) < Z.of_nat (length xs)
      ≤ size * Z.of_nat (length chunks) ∧
    Z.of_nat (length chunks) = (Z.of_nat (length xs) + size - 1) / size ∧
    (xs = [] → chunks = []).
Proof.
  intros Hsize.
  set (n := Z.of_nat (length xs)).
  set (starts := range_loop (Z.to_nat (Z.abs (n - 0))) 0 n size).
  destruct (range_loop_chunks xs size Hsize (Z.to_nat (Z.abs (n - 0))) 0)
    as (Hcat & Hall & Hnth & Hlen); [lia|lia|]. fold n starts in Hcat, Hall, Hnth, Hlen.
  exists (map (fun j => list_slice xs j (j + size)) starts).
  assert (Hcount : size * (Z.of_nat (length starts) - 1) < n
                   ≤ size * Z.of_nat (length starts)).
  { rewrite Z.max_r in Hlen by lia. by rewrite Z.sub_0_r in Hlen. }
  split; [|split; [|split; [|split; [|split; [|split]]]]].
  - unfold Bulk.chunked, py_range. fold n.
    destruct (Z.eqb_spec size 0); [lia|done].
  - by rewrite Hcat.
  - apply Forall_map. eapply Forall_impl; [exact Hall|]. intros j Hj. simpl.
    rewrite list_slice_chunk_length by done. unfold n in *. lia.
  - intros k c. rewrite list_lookup_fmap.
    destruct (starts !! k) as [j|] eqn:Hk; [|done]. intros [= <-].
    pose proof (Hnth k j Hk) as ->.
    rewrite list_slice_chunk; [f_equal; f_equal; lia|done|].
    rewrite Forall_lookup in Hall. specialize (Hall k _ Hk). unfold n in *. lia.
  - by rewrite length_map.
  - rewrite length_map. apply Z.div_unique with (n + size - 1 - size * Z.of_nat (length starts));
      lia.
  - intros ->. destruct starts as [|j starts']; [done|]. simpl in Hcount. subst n.
    simpl in Hcount. nia.
Qed.

Lemma chunked_spec_witness :
  ∃ chunks,
    Bulk.chunked ["a"; "b"; "c"; "d"; "e"] 2 = Return chunks ∧
    concat chunks = ["a"; "b"; "c"; "d"; "e"] ∧
    Z.of_nat (length chunks) = 3.
Proof.
  destruct (chunked_spec ["a"; "b"; "c"; "d"; "e"] 2) as (chunks & H1 & H2 & _ & _ & _ & H3 & _);
    [lia|].
  exists chunks. split; [done|]. split; [done|]. exact H3.
Defined.

Example chunked_five : Bulk.chunked ["a"; "b"; "c"; "d"; "e"] 2
                       = Return [["a"; "b"]; ["c"; "d"]; ["e"]].
Proof. reflexivity. Qed.

Example chunked_zero_size : Bulk.chunked ["a"] 0 = Raise ValueError.
Proof. reflexivity. Qed.

(** ** The reconciliation plan *)

(** C1: the plan computed from the team members and the cost-center users
    has [to_add = team − center], [to_remove = center − team] and
    [already_synced = team ∩ center]; the three sets are pairwise disjoint,
    [to_add ∪ already_synced] is the team set and
    [to_remove ∪ already_synced] the cost-center set. *)
Theorem sync_plan_partition (team_members cost_center_users : list string) :
  let source : gset string := list_to_set team_members in
  let target : gset string := list_to_set cost_center_users in
  let plan := Exact.sync_plan team_members cost_center_users in
  users_to_add plan = source ∖ target ∧
  users_to_remove plan = target ∖ source ∧
  users_already_synced plan = source ∩ target ∧
  users_to_add plan ## users_to_remove plan ∧
  users_to_add plan ## users_already_synced plan ∧
  users_to_remove plan ## users_already_synced plan ∧
  users_to_add plan ∪ users_already_synced plan = source ∧
  users_to_remove plan ∪ users_already_synced plan = target.
Proof.
  intros source target plan. subst plan. unfold Exact.sync_plan. simpl.
  fold source target.
  repeat split; try done; try set_solver.
  - apply set_eq. intros x. destruct (decide (x ∈ target)); set_solver.
  - apply set_eq. intros x. destruct (decide (x ∈ source)); set_solver.
Qed.

Example sync_plan_scenario :
  let plan := Exact.sync_plan ["alice"; "bob"; "carol"] ["bob"; "dan"] in
  users_to_add plan = {["alice"; "carol"]} ∧
  users_to_remove plan = {["dan"]} ∧
  users_already_synced plan = {["bob"]}.
Proof. vm_compute. done. Qed.

(** ** Classification of mutation responses *)

Lemma status_in_true (x : Z) (codes : list Z) : x ∈ codes → status_in x codes = true.
Proof. intros H. unfold status_in. by apply bool_decide_eq_true. Qed.

Lemma status_in_false (x : Z) (codes : list Z) : x ∉ codes → status_in x codes = false.
Proof. intros H. unfold status_in. by apply bool_decide_eq_false. Qed.

(** Membership of a literal status in a literal tuple. *)
Ltac listed := simpl; rewrite ?elem_of_cons, ?elem_of_nil; lia.

Lemma conflict_not_success (x : Z) : x ∈ [409; 422] → x ∉ [200; 201; 202; 204].
Proof. rewrite !elem_of_cons, !elem_of_nil. lia. Qed.

Lemma other_not_success (x : Z) :
  x ∉ [200; 201; 202; 204; 409; 422] →
  (x ∉ [200; 201; 202; 204]) ∧ (x ∉ [409; 422]).
Proof. rewrite !elem_of_cons, !elem_of_nil. lia. Qed.

Section Phases.

Context {St : Type}.
Variable transport : St → Request → Answer * St.

(** A mutation that ends the process ends the loop of [main] at once:
    the handler of the loop does not catch the exit. *)
Lemma mutation_phase_exit (mutate : string → M St (bool * string))
    (action verb login : string) (rest : list string) (results : list Row)
    (done_count error_count : Z) (w w' : World St) (m : string) :
  mutate login w = (Raise (SystemExit m), w') →
  Exact.mutation_phase mutate action verb (login :: rest)
    results done_count error_count w = (Raise (SystemExit m), w').
Proof.
  intros Hm. simpl. unfold mbind, M_bind, try_except. by rewrite Hm.
Qed.

End Phases.

Section AddOutcome.

Variables (url login : string) (resp : Response).

Let status : Z := status_code resp.
Let http : string := " (HTTP " +:+ Str.of_int status +:+ ")".

Lemma add_outcome_success :
  status ∈ [200; 201; 202; 204] →
  Exact.add_outcome url login resp = Return (true, "Added " +:+ login) ∧
  PerUser.add_outcome url login resp = Return (true, "Added " +:+ login +:+ http).
Proof.
  intros H. unfold status, http in *. unfold Exact.add_outcome, PerUser.add_outcome.
  by rewrite (status_in_true _ _ H).
Qed.

Lemma add_outcome_present :
  status ∈ [409; 422] →
  Str.contains "already" (inspected resp) || Str.contains "exists" (inspected resp) = true →
  Exact.add_outcome url login resp
    = Return (false, "Skip " +:+ login +:+ ": already exists") ∧
  PerUser.add_outcome url login resp
    = Return (false, "Skip " +:+ login +:+ ": already in cost center" +:+ http).
Proof.
  intros H Hm. unfold status, http in *. unfold Exact.add_outcome, PerUser.add_outcome.
  rewrite (status_in_false _ _ (conflict_not_success _ H)), (status_in_true _ _ H).
  fold (inspected resp). rewrite Hm. done.
Qed.

Lemma add_outcome_present_per_user :
  status ∈ [409; 422] →
  Str.contains "conflict" (inspected resp)
    || Str.contains "has already been taken" (inspected resp) = true →
  PerUser.add_outcome url login resp
    = Return (false, "Skip " +:+ login +:+ ": already in cost center" +:+ http).
Proof.
  intros H Hm. unfold status, http in *. unfold PerUser.add_outcome.
  rewrite (status_in_false _ _ (conflict_not_success _ H)), (status_in_true _ _ H).
  fold (inspected resp).
  destruct (Str.contains "already" _), (Str.contains "exists" _),
    (Str.contains "has already been taken" _), (Str.contains "conflict" _); done.
Qed.

Lemma add_outcome_raw_exact :
  status ∈ [409; 422] →
  Str.contains "already" (inspected resp) || Str.contains "exists" (inspected resp) = false →
  Exact.add_outcome url login resp
    = Return (false, "Skip " +:+ login +:+ ": " +:+ Str.take 500 (text resp)).
Proof.
  intros H Hm. unfold status, http in *. unfold Exact.add_outcome.
  rewrite (status_in_false _ _ (conflict_not_success _ H)), (status_in_true _ _ H).
  fold (inspected resp). by rewrite Hm.
Qed.

Lemma add_outcome_raw_per_user :
  status ∈ [409; 422] →
  Str.contains "already" (inspected resp) || Str.contains "exists" (inspected resp)
    || Str.contains "has already been taken" (inspected resp)
    || Str.contains "conflict" (inspected resp) = false →
  PerUser.add_outcome url login resp
    = Return (false, "Skip " +:+ login +:+ ": not added" +:+ http
                     +:+ " body=" +:+ Str.take 500 (text resp)).
Proof.
  intros H Hm. unfold status, http in *. unfold PerUser.add_outcome.
  rewrite (status_in_false _ _ (conflict_not_success _ H)), (status_in_true _ _ H).
  fold (inspected resp). by rewrite Hm.
Qed.

Lemma add_outcome_failure :
  status ∉ [200; 201; 202; 204; 409; 422] →
  Exact.add_outcome url login resp
    = Raise (SystemExit ("Add to cost center failed for " +:+ login +:+ nl
               +:+ "URL: " +:+ url +:+ nl
               +:+ "HTTP " +:+ Str.of_int status +:+ nl
               +:+ "Response: " +:+ Str.take 1000 (text resp))) ∧
  PerUser.add_outcome url login resp
    = Raise (SystemExit ("Add to cost center failed for " +:+ login +:+ nl
               +:+ "URL: " +:+ url +:+ nl
               +:+ "HTTP " +:+ Str.of_int status +:+ nl
               +:+ "Response (first 1000 chars):" +:+ nl
               +:+ Str.take 1000 (text resp))).
Proof.
  intros [H1 H2]%other_not_success. unfold status, http in *.
  unfold Exact.add_outcome, PerUser.add_outcome.
  by rewrite (status_in_false _ _ H1), (status_in_false _ _ H2).
Qed.

End AddOutcome.

(** C2, as the scripts have it.  A status among 200, 201, 202 and 204 is a
    success.  On 409 and 422 the scripts look at the first 500 characters
    of the body, lower-cased: [already] or [exists] there make both scripts
    report the user as already present; [conflict] and
    [has already been taken] do so in [sync_team_to_cost_center.py]; with
    none of the four markers there the skip carries the first 500 characters
    of the body.  Every other status raises SystemExit, which the add loop of
    [main] lets through. *)
Theorem add_outcome_spec (url login : string) (resp : Response) :
  let status := status_code resp in
  let http := " (HTTP " +:+ Str.of_int status +:+ ")" in
  let seen := inspected resp in
  (status ∈ [200; 201; 202; 204] →
     Exact.add_outcome url login resp = Return (true, "Added " +:+ login) ∧
     PerUser.add_outcome url login resp = Return (true, "Added " +:+ login +:+ http)) ∧
  (status ∈ [409; 422] →
     Str.contains "already" seen || Str.contains "exists" seen = true →
     Exact.add_outcome url login resp
       = Return (false, "Skip " +:+ login +:+ ": already exists") ∧
     PerUser.add_outcome url login resp
       = Return (false, "Skip " +:+ login +:+ ": already in cost center" +:+ http)) ∧
  (status ∈ [409; 422] →
     Str.contains "conflict" seen || Str.contains "has already been taken" seen = true →
     PerUser.add_outcome url login resp
       = Return (false, "Skip " +:+ login +:+ ": already in cost center" +:+ http)) ∧
  (status ∈ [409; 422] →
     Str.contains "already" seen || Str.contains "exists" seen
       || Str.contains "has already been taken" seen
       || Str.contains "conflict" seen = false →
     Exact.add_outcome url login resp
       = Return (false, "Skip " +:+ login +:+ ": " +:+ Str.take 500 (text resp)) ∧
     PerUser.add_outcome url login resp
       = Return (false, "Skip " +:+ login +:+ ": not added" +:+ http
                        +:+ " body=" +:+ Str.take 500 (text resp))) ∧
  (status ∉ [200; 201; 202; 204; 409; 422] →
     (∃ m, Exact.add_outcome url login resp = Raise (SystemExit m)) ∧
     (∃ m, PerUser.add_outcome url login resp = Raise (SystemExit m)) ∧
     ∀ St (transport : St → Request → Answer * St) (w : World St) s'
       base enterprise cost_center_id token rest results added errors,
       transport (srv w) (add_request base enterprise cost_center_id token login)
         = (Responded resp, s') →
       ∃ m w',
         Exact.mutation_phase
           (Exact.add_user_to_cost_center transport base enterprise cost_center_id token)
           "add" "adding" (login :: rest) results added errors w
         = (Raise (SystemExit m), w')).
Proof.
  intros status http seen.
  split; [apply add_outcome_success|].
  split; [apply add_outcome_present|].
  split; [apply add_outcome_present_per_user|].
  split.
  { intros Hs Hm. split; [|by apply add_outcome_raw_per_user].
    apply add_outcome_raw_exact; [done|]. revert Hm. unfold seen.
    by destruct (Str.contains "already" _), (Str.contains "exists" _). }
  intros Hother. split; [|split].
  - eexists. apply (add_outcome_failure url login resp Hother).
  - eexists. apply (add_outcome_failure url login resp Hother).
  - intros St transport w s' base enterprise cost_center_id token rest results
      added errors Hsend.
    destruct (add_outcome_failure
                (Exact.resources_url base enterprise cost_center_id "/resources")
                login resp Hother) as [Hexit _].
    eexists _, _. apply mutation_phase_exit.
    unfold Exact.add_user_to_cost_center, mbind, M_bind, requests_request, lift.
    fold (add_request base enterprise cost_center_id token login).
    rewrite Hsend. by rewrite Hexit.
Qed.

Lemma add_outcome_spec_witness :
  Exact.add_outcome "u" "octocat" (plain_response 409 "User already exists")
    = Return (false, "Skip octocat: already exists") ∧
  ∃ m, Exact.add_outcome "u" "octocat" (plain_response 500 "oops") = Raise (SystemExit m).
Proof.
  split.
  - apply (proj1 (proj2 (add_outcome_spec "u" "octocat"
                           (plain_response 409 "User already exists"))));
      [listed|reflexivity].
  - destruct (add_outcome_spec "u" "octocat" (plain_response 500 "oops"))
      as (_ & _ & _ & _ & H).
    apply H. listed.
Defined.

(** C2 as stated fails twice.  A marker that occurs in the body after its
    first 500 characters is not seen: the skip carries the body.  And
    [sync_team_cost_center_exact.py] does not take [conflict] for a marker. *)
Lemma add_outcome_marker_counterexample :
  let late := repeat_char "x" 500 +:+ "already" in
  Str.contains "already" (Str.lower late) = true ∧
  PerUser.add_outcome "u" "octocat" (plain_response 409 late)
    = Return (false, "Skip octocat: not added (HTTP 409) body=" +:+ repeat_char "x" 500) ∧
  Exact.add_outcome "u" "octocat" (plain_response 409 late)
    = Return (false, "Skip octocat: " +:+ repeat_char "x" 500) ∧
  Str.contains "conflict" (Str.lower "Conflict") = true ∧
  Exact.add_outcome "u" "octocat" (plain_response 409 "Conflict")
    = Return (false, "Skip octocat: Conflict").
Proof. vm_compute. done. Qed.

Lemma remove_statuses (x : Z) :
  x ∉ [200; 201; 202; 204; 400; 404] ↔
  (x ∉ [200; 201; 202; 204]) ∧ x ≠ 400 ∧ x ≠ 404.
Proof. rewrite !elem_of_cons, !elem_of_nil. lia. Qed.

(** C3, as the script has it.  A status among 200, 201, 202 and 204 is a
    success.  On 400 the script looks at the first 500 characters of the
    body, lower-cased: [no resources] there makes it report the user as not
    in the cost center, otherwise the skip carries the first 500 characters
    of the body.  404 is a skip as not found.  SystemExit is raised exactly
    for the other statuses, and the remove loop of [main] lets it through. *)
Theorem remove_outcome_spec (url login : string) (resp : Response) :
  let status := status_code resp in
  (status ∈ [200; 201; 202; 204] →
     Exact.remove_outcome url login resp = Return (true, "Removed " +:+ login)) ∧
  (status = 400 → Str.contains "no resources" (inspected resp) = true →
     Exact.remove_outcome url login resp
       = Return (false, "Skip " +:+ login
                        +:+ ": not in cost center (API says no resources to remove)")) ∧
  (status = 400 → Str.contains "no resources" (inspected resp) = false →
     Exact.remove_outcome url login resp
       = Return (false, "Skip " +:+ login +:+ ": " +:+ Str.take 500 (text resp))) ∧
  (status = 404 →
     Exact.remove_outcome url login resp
       = Return (false, "Skip " +:+ login +:+ ": endpoint or user not found (HTTP 404)")) ∧
  ((∃ e, Exact.remove_outcome url login resp = Raise e)
     ↔ status ∉ [200; 201; 202; 204; 400; 404]) ∧
  (status ∉ [200; 201; 202; 204; 400; 404] →
     Exact.remove_outcome url login resp
       = Raise (SystemExit ("Remove from cost center failed for " +:+ login +:+ nl
                  +:+ "URL: " +:+ url +:+ nl
                  +:+ "HTTP " +:+ Str.of_int status +:+ nl
                  +:+ "Response: " +:+ Str.take 1000 (text resp))) ∧
     ∀ St (transport : St → Request → Answer * St) (w : World St) s'
       base enterprise cost_center_id token rest results removed errors,
       transport (srv w) (remove_request base enterprise cost_center_id token login)
         = (Responded resp, s') →
       ∃ m w',
         Exact.mutation_phase
           (Exact.remove_user_from_cost_center transport base enterprise
              cost_center_id token)
           "remove" "removing" (login :: rest) results removed errors w
         = (Raise (SystemExit m), w')).
Proof.
  intros status. subst status.
  assert (Hraise : ∀ u, status_code resp ∉ [200; 201; 202; 204; 400; 404] →
            Exact.remove_outcome u login resp
            = Raise (SystemExit ("Remove from cost center failed for " +:+ login +:+ nl
                       +:+ "URL: " +:+ u +:+ nl
                       +:+ "HTTP " +:+ Str.of_int (status_code resp) +:+ nl
                       +:+ "Response: " +:+ Str.take 1000 (text resp)))).
  { intros u (H1 & H2 & H3)%remove_statuses. unfold Exact.remove_outcome.
    rewrite (status_in_false _ _ H1).
    destruct (Z.eqb_spec (status_code resp) 400); [done|].
    destruct (Z.eqb_spec (status_code resp) 404); done. }
  split; [|split; [|split; [|split; [|split]]]].
  - intros H. unfold Exact.remove_outcome. by rewrite (status_in_true _ _ H).
  - intros H Hm. unfold Exact.remove_outcome. rewrite H. simpl.
    fold (inspected resp). by rewrite Hm.
  - intros H Hm. unfold Exact.remove_outcome. rewrite H. simpl.
    fold (inspected resp). by rewrite Hm.
  - intros H. unfold Exact.remove_outcome. rewrite H. done.
  - split; [|intros H; eexists; by apply Hraise].
    intros [e He]. apply remove_statuses. revert He. unfold Exact.remove_outcome.
    unfold status_in. case_bool_decide as Hok; [done|].
    destruct (Z.eqb_spec (status_code resp) 400);
      [by destruct (Str.contains _ _)|].
    destruct (Z.eqb_spec (status_code resp) 404); done.
  - intros Hother. split; [by apply Hraise|].
    intros St transport w s' base enterprise cost_center_id token rest results
      removed errors Hsend.
    eexists _, _. apply mutation_phase_exit.
    unfold Exact.remove_user_from_cost_center, mbind, M_bind, requests_request, lift.
    fold (remove_request base enterprise cost_center_id token login).
    rewrite Hsend. by rewrite Hraise.
Qed.

Lemma remove_outcome_spec_witness :
  Exact.remove_outcome "u" "octocat" (plain_response 400 "No resources to remove")
    = Return (false,
              "Skip octocat: not in cost center (API says no resources to remove)") ∧
  Exact.remove_outcome "u" "octocat" (plain_response 404 "Not Found")
    = Return (false, "Skip octocat: endpoint or user not found (HTTP 404)").
Proof.
  split.
  - apply (proj1 (proj2 (remove_outcome_spec "u" "octocat"
                           (plain_response 400 "No resources to remove"))));
      reflexivity.
  - apply (proj1 (proj2 (proj2 (proj2 (remove_outcome_spec "u" "octocat"
                                          (plain_response 404 "Not Found"))))));
      reflexivity.
Defined.

(** C3 as stated fails on a 400 whose body holds [no resources] after its
    first 500 characters: the skip carries the body. *)
Lemma remove_outcome_marker_counterexample :
  let late := repeat_char "x" 500 +:+ "no resources" in
  Str.contains "no resources" late = true ∧
  Exact.remove_outcome "u" "octocat" (plain_response 400 late)
    = Return (false, "Skip octocat: " +:+ repeat_char "x" 500).
Proof. vm_compute. done. Qed.

(** ** The retrying executor *)

Lemma all_chars_impl (p q : ascii → bool) (s : string) :
  (∀ c, p c = true → q c = true) →
  Str.all_chars p s = true → Str.all_chars q s = true.
Proof.
  intros Hpq. induction s as [|c t IH]; simpl; [done|].
  intros [Hc Ht]%andb_prop. by rewrite (Hpq c Hc), IH.
Qed.

Lemma decimal_isdigit (s : string) :
  Str.all_chars Str.isdecimal_char s = true → Str.all_chars Str.isdigit_char s = true.
Proof.
  apply all_chars_impl. intros c Hc. unfold Str.isdigit_char.
  unfold Str.isdecimal_char in Hc. by rewrite Hc.
Qed.

Lemma unit_draw_bounds (q : Q) : (0 <= unit_draw q)%Q ∧ (unit_draw q <= 1)%Q.
Proof.
  unfold unit_draw.
  destruct (Qle_bool q 0) eqn:H0; [split; lra|].
  destruct (Qle_bool 1 q) eqn:H1; [split; lra|].
  assert (¬ (q <= 0)%Q) by (rewrite <- Qle_bool_iff; congruence).
  assert (¬ (1 <= q)%Q) by (rewrite <- Qle_bool_iff; congruence).
  split; lra.
Qed.

(** A pause drawn between two sleepable bounds can be taken. *)
Lemma pause_sleepable (a b q : Q) :
  (0 <= a)%Q → (a <= b)%Q → (b <= inject_Z sleep_horizon)%Q →
  sleepable (a + (b - a) * unit_draw q).
Proof.
  intros Ha Hab Hb. destruct (unit_draw_bounds q) as [H0 H1].
  generalize dependent (unit_draw q). intros u H0 H1.
  assert (Hu : (0 <= (b - a) * u)%Q) by (apply Qmult_le_0_compat; lra).
  assert (Hv : (0 <= (b - a) * (1 - u))%Q) by (apply Qmult_le_0_compat; lra).
  split; lra.
Qed.

Lemma inject_Z_le (a b : Z) : a ≤ b → (inject_Z a <= inject_Z b)%Q.
Proof. intros H. unfold Qle, inject_Z. simpl. lia. Qed.

Lemma digits_value_bound (s : string) (acc : Z) : 0 ≤ acc → 0 ≤ Str.digits_value acc s.
Proof.
  revert acc. induction s as [|c t IH]; intros acc Hacc; simpl; [done|].
  apply IH. lia.
Qed.

Lemma retry_after_seconds_bound (resp : Response) (seconds : Z) :
  retry_after_seconds resp = Some seconds → 0 ≤ seconds.
Proof.
  unfold retry_after_seconds, Str.int_of_digits.
  destruct (headers_get "Retry-After" resp) as [ra|]; [|done].
  destruct (_ && _); [|done]. intros [= <-]. by apply digits_value_bound.
Qed.

(** A sleepable duration is slept, and recorded. *)
Lemma time_sleep_sleepable {St} (d : Q) (w : World St) :
  sleepable d →
  time_sleep d w
  = (Return tt, mkWorld (srv w) (sent w) (draws w) (slept w ++ [d]) (pages w)).
Proof.
  intros [H0 H1]. unfold time_sleep.
  assert (Hmax : (d * inject_Z (10 ^ 9) <= inject_Z sleep_nanoseconds_max)%Q).
  { unfold sleep_horizon in H1.
    change (inject_Z (10 ^ 9)) with (1000000000 # 1)%Q in *.
    change (inject_Z sleep_nanoseconds_max) with (9223372036854775807 # 1)%Q. lra. }
  apply Qle_bool_iff in H0, H1, Hmax. by rewrite H0, H1, Hmax.
Qed.

(** Whatever the duration, [time.sleep] ends, touches nothing but the
    record of sleeps, and records the duration exactly when it returns. *)
Lemma time_sleep_outcome {St} (d : Q) (w : World St) :
  let run := time_sleep d w in
  fst run ≠ OutOfFuel ∧
  srv (snd run) = srv w ∧ sent (snd run) = sent w ∧ draws (snd run) = draws w ∧
  pages (snd run) = pages w ∧
  match fst run with
  | Return _ => slept (snd run) = slept w ++ [d] ∧ sleepable d
  | _ => slept (snd run) = slept w
  end.
Proof.
  unfold time_sleep.
  destruct (Qle_bool 0 d) eqn:H0; simpl; [|done].
  destruct (Qle_bool (d * _) _); simpl; [|done].
  destruct (Qle_bool d _) eqn:H1; simpl; [|done].
  repeat split; try done; by apply Qle_bool_iff.
Qed.

(** The jitter keeps the exponential sleep within a second and a half of
    its base. *)
Lemma exponential_sleep_bounds (random_unit : nat → Q) (max_backoff_seconds attempt : Z)
    (n : nat) :
  (inject_Z (Z.min max_backoff_seconds (2 ^ attempt))
     <= exponential_sleep random_unit max_backoff_seconds attempt n)%Q ∧
  (exponential_sleep random_unit max_backoff_seconds attempt n
     <= inject_Z (Z.min max_backoff_seconds (2 ^ attempt)) + (3 # 2))%Q.
Proof.
  unfold exponential_sleep.
  destruct (unit_draw_bounds (random_unit n)) as [H0 H1].
  generalize dependent (unit_draw (random_unit n)). intros u H0 H1.
  generalize (inject_Z (Z.min max_backoff_seconds (2 ^ attempt))). intros b.
  split; lra.
Qed.

(** With a cap between 0 and two seconds less than the horizon, every
    exponential sleep can be taken. *)
Lemma exponential_sleep_sleepable (random_unit : nat → Q)
    (max_backoff_seconds attempt : Z) (n : nat) :
  0 ≤ max_backoff_seconds ≤ sleep_horizon - 2 →
  sleepable (exponential_sleep random_unit max_backoff_seconds attempt n).
Proof.
  intros Hcap.
  destruct (exponential_sleep_bounds random_unit max_backoff_seconds attempt n)
    as [Hlo Hhi].
  assert (H2 : 0 ≤ 2 ^ attempt) by (apply Z.pow_nonneg; lia).
  assert (Hmin : 0 ≤ Z.min max_backoff_seconds (2 ^ attempt) ≤ sleep_horizon - 2) by lia.
  destruct Hmin as [Hmin0 Hmin1].
  apply inject_Z_le in Hmin0, Hmin1. 
  generalize dependent (inject_Z (Z.min max_backoff_seconds (2 ^ attempt))).
  intros m Hlo Hhi Hmin0 Hmin1.
  change (inject_Z 0) with 0%Q in Hmin0.
  change (inject_Z (sleep_horizon - 2)) with (999999998 # 1)%Q in Hmin1.
  split; [lra|]. change (inject_Z sleep_horizon) with (1000000000 # 1)%Q. lra.
Qed.

Lemma sleep_for_sleepable {St} (random_unit : nat → Q) (max_backoff_seconds : Z)
    (resp : Response) (attempt : Z) (w : World St) :
  0 ≤ max_backoff_seconds ≤ sleep_horizon - 2 →
  retry_after_in_reach resp = true →
  sleepable (sleep_for random_unit max_backoff_seconds resp attempt w).
Proof.
  intros Hcap Hreach. unfold sleep_for. unfold retry_after_in_reach in Hreach.
  destruct (retry_after_seconds resp) as [seconds|] eqn:Hs.
  - apply retry_after_seconds_bound in Hs. apply Z.leb_le in Hreach.
    split; [change 0%Q with (inject_Z 0)|]; by apply inject_Z_le.
  - by apply exponential_sleep_sleepable.
Qed.

Section Backoff.

Context {St : Type}.
Variable transport : St → Request → Answer * St.
Variable random_unit : nat → Q.
Variable r : Request.
Variable max_backoff_seconds : Z.

Lemma backoff_delay_seconds (resp : Response) (attempt seconds : Z) (w : World St) :
  retry_after_seconds resp = Some seconds →
  Bulk.backoff_delay random_unit resp attempt max_backoff_seconds w
    = (Return (inject_Z seconds), w).
Proof.
  unfold retry_after_seconds, Bulk.backoff_delay.
  destruct (headers_get "Retry-After" resp) as [ra|]; [|done].
  intros Hint. rewrite Hint. unfold Str.int_of_digits in Hint.
  destruct (Str.nonempty ra && Str.all_chars Str.isdecimal_char ra) eqn:Hd; [|done].
  apply andb_prop in Hd as [Hne Hall]. unfold Str.isdigit.
  by rewrite Hne, (decimal_isdigit _ Hall).
Qed.

Lemma backoff_delay_exponential (resp : Response) (attempt : Z) (w : World St) :
  retry_after_seconds resp = None →
  retry_after_readable resp = true →
  Bulk.backoff_delay random_unit resp attempt max_backoff_seconds w
    = (Return (exponential_sleep random_unit max_backoff_seconds attempt (draws w)),
       mkWorld (srv w) (sent w) (S (draws w)) (slept w) (pages w)).
Proof.
  unfold retry_after_seconds, retry_after_readable, Bulk.backoff_delay.
  destruct (headers_get "Retry-After" resp) as [ra|]; [|done].
  unfold Str.int_of_digits, Str.isdigit.
  destruct (Str.nonempty ra); simpl; [|done].
  destruct (Str.all_chars Str.isdigit_char ra); simpl; [|done].
  destruct (Str.all_chars Str.isdecimal_char ra); simpl; [|done].
  by destruct (String.length ra <=? Str.int_max_str_digits)%nat.
Qed.

Lemma backoff_delay_unreadable (resp : Response) (attempt : Z) (w : World St) :
  retry_after_readable resp = false →
  Bulk.backoff_delay random_unit resp attempt max_backoff_seconds w
    = (Raise ValueError, w).
Proof.
  unfold retry_after_readable, Bulk.backoff_delay.
  destruct (headers_get "Retry-After" resp) as [ra|]; [|done].
  intros [Hd Hn]%orb_false_elim. apply negb_false_iff in Hd.
  rewrite Hd. unfold Str.isdigit in Hd. apply andb_prop in Hd as [Hne _].
  rewrite Hne. simpl. unfold Str.int_of_digits. rewrite Hne. simpl. by rewrite Hn.
Qed.

(** A status other than 403 and 429 is returned at once. *)
Lemma backoff_loop_other (todo : nat) (attempt : Z) (last : option Response)
    (w : World St) (resp : Response) (s' : St) :
  transport (srv w) r = (Responded resp, s') →
  status_code resp ∉ [403; 429] →
  Bulk.backoff_loop transport random_unit r max_backoff_seconds (S todo) attempt last w
    = (Return resp, after_request r w s').
Proof.
  intros Hsend Hstatus. simpl. unfold mbind, M_bind, requests_request.
  rewrite Hsend. by rewrite (status_in_false _ _ Hstatus).
Qed.


(** A 429, or a 403 that is a secondary rate limit, is followed by the
    sleep and by the next attempt. *)
Lemma backoff_loop_retry (todo : nat) (attempt : Z) (last : option Response)
    (w : World St) (resp : Response) (s' : St) :
  transport (srv w) r = (Responded resp, s') →
  retryable resp = true →
  retry_after_readable resp = true →
  sleepable (sleep_for random_unit max_backoff_seconds resp attempt w) →
  ∃ w',
    Bulk.backoff_loop transport random_unit r max_backoff_seconds (S todo) attempt last w
      = Bulk.backoff_loop transport random_unit r max_backoff_seconds
          todo (attempt + 1) (Some resp) w' ∧
    srv w' = s' ∧ sent w' = sent w ++ [r] ∧
    slept w' = slept w ++ [sleep_for random_unit max_backoff_seconds resp attempt w] ∧
    pages w' = pages w.
Proof.
  intros Hsend Hretry Hreadable Hsleep. simpl.
  unfold mbind, M_bind, requests_request. rewrite Hsend.
  assert (Hin : status_in (status_code resp) [403; 429] = true).
  { apply status_in_true. unfold retryable in Hretry.
    destruct (Z.eqb_spec (status_code resp) 429) as [->|]; [listed|].
    destruct (Z.eqb_spec (status_code resp) 403) as [->|]; [listed|done]. }
  assert (Hgo : (status_code resp =? 429) || Bulk.is_secondary_rate_limit resp = true).
  { unfold retryable in Hretry. destruct (status_code resp =? 429); [done|].
    simpl in *. by apply andb_prop in Hretry as [_ ->]. }
  rewrite Hin, Hgo. simpl. unfold sleep_for in *.
  destruct (retry_after_seconds resp) as [seconds|] eqn:Hs.
  - rewrite (backoff_delay_seconds _ _ _ _ Hs).
    rewrite (time_sleep_sleepable _ _ Hsleep). by eexists.
  - rewrite (backoff_delay_exponential _ _ _ Hs Hreadable).
    rewrite (time_sleep_sleepable _ _ Hsleep). by eexists.
Qed.

(** An unreadable Retry-After on a 403 or 429 ends the call with a
    ValueError, whatever the body says. *)
Lemma backoff_loop_unreadable (todo : nat) (attempt : Z) (last : option Response)
    (w : World St) (resp : Response) (s' : St) :
  transport (srv w) r = (Responded resp, s') →
  status_code resp ∈ [403; 429] →
  retry_after_readable resp = false →
  Bulk.backoff_loop transport random_unit r max_backoff_seconds (S todo) attempt last w
    = (Raise ValueError, after_request r w s').
Proof.
  intros Hsend Hstatus Hreadable. simpl.
  unfold mbind, M_bind, requests_request. rewrite Hsend.
  rewrite (status_in_true _ _ Hstatus). simpl.
  by rewrite (backoff_delay_unreadable _ _ _ Hreadable).
Qed.

(** When every answer is retryable, the loop makes all its attempts,
    sleeps after each, and returns the last response received. *)
Lemma backoff_loop_exhausted (todo : nat) :
  0 ≤ max_backoff_seconds ≤ sleep_horizon - 2 →
  (∀ s, ∃ resp s', transport s r = (Responded resp, s') ∧
                   retryable resp = true ∧ retry_after_readable resp = true ∧
                   retry_after_in_reach resp = true) →
  ∀ (attempt : Z) (last : option Response) (w : World St),
    (todo = 0%nat → is_Some last) →
    ∃ resp w',
      Bulk.backoff_loop transport random_unit r max_backoff_seconds todo attempt last w
        = (Return resp, w') ∧
      match todo with
      | O => last = Some resp
      | S _ => retryable resp = true ∧
               ∃ s, transport s r = (Responded resp, srv w')
      end ∧
      length (sent w') = (length (sent w) + todo)%nat ∧
      length (slept w') = (length (slept w) + todo)%nat.
Proof.
  intros Hcap Hserver. induction todo as [|todo IH]; intros attempt last w Hlast.
  - destruct (Hlast eq_refl) as [resp ->]. exists resp, w. simpl.
    rewrite !Nat.add_0_r. done.
  - destruct (Hserver (srv w)) as (resp & s' & Hsend & Hretry & Hreadable & Hreach).
    destruct (backoff_loop_retry todo attempt last w resp s' Hsend Hretry Hreadable
                (sleep_for_sleepable _ _ _ _ _ Hcap Hreach))
      as (w1 & -> & Hsrv & Hsent & Hslept & _).
    destruct (IH (attempt + 1) (Some resp) w1) as (resp' & w' & Heq & Hlast' & Hs & Hz);
      [by eexists|].
    exists resp', w'. split; [done|]. split; [|split].
    + destruct todo as [|todo']; [|done].
      injection Hlast' as <-. simpl in Heq. injection Heq as <-.
      split; [done|]. exists (srv w). by rewrite Hsrv.
    + rewrite Hs, Hsent, length_app. simpl. lia.
    + rewrite Hz, Hslept, length_app. simpl. lia.
Qed.

End Backoff.


(** C4, at the input where the code departs from it: a 403 that is not
    a secondary rate limit and carries the Retry-After value U+00B2 is
    not returned, the call ends with a ValueError. *)
Theorem forbidden_superscript_retry_after :
  let resp := throttled_response 403 "Forbidden" superscript_two in
  retryable resp = false ∧
  Str.isdigit superscript_two = true ∧
  Str.int_of_digits superscript_two = None ∧
  Bulk.request_with_backoff (constant_server resp) half GET "u" [] None 30 8 60
    (initial_world tt)
  = (Raise ValueError,
     mkWorld tt [mkRequest GET "u" [] None 30] 0 [] []).
Proof. vm_compute. done. Qed.

(** C5, at the input where the code departs from it: a 429 whose
    Retry-After value is U+00B2, which is not a non-negative integer, is not
    followed by the exponential sleep: the call ends with a ValueError and
    no sleep is taken. *)
Theorem throttled_superscript_retry_after :
  let resp := throttled_response 429 "slow down" superscript_two in
  retryable resp = true ∧
  retry_after_seconds resp = None ∧
  Bulk.request_with_backoff (constant_server resp) half GET "u" [] None 30 8 60
    (initial_world tt)
  = (Raise ValueError,
     mkWorld tt [mkRequest GET "u" [] None 30] 0 [] []).
Proof. vm_compute. done. Qed.

(** The executor on the examples of the specification. *)
Example backoff_two_throttles :
  let run := Bulk.request_with_backoff (scripted_server (plain_response 200 "ok")) half
               GET "u" [] None 30 8 60
               (initial_world [plain_response 429 "a"; plain_response 429 "b"]) in
  fst run = Return (plain_response 200 "ok") ∧
  slept (snd run) = [(7 # 4)%Q; (11 # 4)%Q] ∧
  length (sent (snd run)) = 3%nat.
Proof. vm_compute. done. Qed.

Example backoff_retry_after_five :
  slept (snd (Bulk.request_with_backoff
                (constant_server (throttled_response 429 "slow down" "5")) half
                GET "u" [] None 30 3 60 (initial_world tt)))
  = [5%Q; 5%Q; 5%Q].
Proof. vm_compute. done. Qed.

(** After eight throttled attempts, each followed by its sleep, the last
    response comes back as it is. *)
Lemma request_with_backoff_exhausted {St} (transport : St → Request → Answer * St)
    (random_unit : nat → Q) (method : Method) (url : string)
    (headers : list (string * string)) (json : option Json) (timeout : Z)
    (w : World St) :
  let r := mkRequest method url headers json timeout in
  (∀ s, ∃ resp s', transport s r = (Responded resp, s') ∧
                   retryable resp = true ∧ retry_after_readable resp = true ∧
                   retry_after_in_reach resp = true) →
  ∃ resp w',
    Bulk.request_with_backoff transport random_unit method url headers json timeout 8 60 w
      = (Return resp, w') ∧
    retryable resp = true ∧
    (∃ s, transport s r = (Responded resp, srv w')) ∧
    length (sent w') = (length (sent w) + 8)%nat ∧
    length (slept w') = (length (slept w) + 8)%nat.
Proof.
  intros r Hserver. unfold Bulk.request_with_backoff. fold r.
  destruct (backoff_loop_exhausted transport random_unit r 60 8 ltac:(done) Hserver
              0 None w)
    as (resp & w' & Heq & [Hretry Hlast] & Hsent & Hslept); [done|].
  by exists resp, w'.
Qed.

(** ** Pagination *)

Lemma parse_next_link_nonempty (h : option string) (u : string) :
  parse_next_link h = Some u → Str.nonempty u = true.
Proof.
  destruct h as [h|]; [|done]. unfold parse_next_link.
  destruct (negb (Str.nonempty h)); [done|].
  intros (part & pre & post & _ & _ & Hb)%first_next_sound.
  destruct Hb as (_ & _ & _ & _ & Hne). by destruct u.
Qed.

Lemma identities_fuel (logins : list Json) : identities logins ≠ OutOfFuel.
Proof.
  induction logins as [|x l IH]; simpl; [done|].
  destruct x; try done. by destruct (identities l).
Qed.

Lemma nonempty_append_r (a b : string) :
  Str.nonempty b = true → Str.nonempty (a +:+ b) = true.
Proof. destruct a; [by rewrite append_empty|done]. Qed.

Section ExactPagination.

Context {St : Type}.
Variable transport : St → Request → Answer * St.
Variable token : string.

Local Abbreviation fetch_loop := (Exact.fetch_loop transport token).

(** The loop body runs 200 times at most: with the fuel that the page
    counter leaves room for, the loop ends, and it sends one request and
    prints at most one progress line for each turn. *)
Lemma exact_fetch_loop_bound (fuel : nat) :
  ∀ (next_url : option string) (page : Z) (logins : list Json) (w : World St),
    page ≤ 200 → 201 - page ≤ Z.of_nat fuel →
    let run := fetch_loop fuel next_url page logins w in
    fst run ≠ OutOfFuel ∧
    Z.of_nat (length (sent (snd run))) ≤ Z.of_nat (length (sent w)) + (201 - page) ∧
    Z.of_nat (length (pages (snd run))) ≤ Z.of_nat (length (pages w)) + (201 - page).
Proof.
  induction fuel as [|fuel IH]; intros next_url page logins w Hpage Hfuel; [lia|].
  destruct next_url as [url|]; [|simpl; repeat split; [done|lia|lia]].
  simpl. destruct (Str.nonempty url); simpl; [|repeat split; [done|lia|lia]].
  unfold mbind, M_bind, Exact.requests_get, requests_request.
  destruct (transport (srv w) _) as [[resp|m] s'];
    [|simpl; rewrite length_app; simpl; repeat split; [done|lia|lia]].
  destruct (status_code resp =? 200); simpl;
    [|rewrite length_app; simpl; repeat split; [done|lia|lia]].
  destruct (json resp) as [payload|]; simpl;
    [|rewrite length_app; simpl; repeat split; [done|lia|lia]].
  destruct (Z.ltb_spec 200 (page + 1)) as [Hlast|Hmore]; simpl.
  - rewrite !length_app. simpl. repeat split; [done|lia|lia].
  - unfold raise, print_page. simpl.
    match goal with |- context [Exact.fetch_loop _ _ fuel ?n ?p ?l ?w1] =>
      destruct (IH n p l w1) as (H1 & H2 & H3); [lia|lia|] end.
    simpl in H2, H3. rewrite !length_app in H2, H3. simpl in H2, H3.
    repeat split; [done|lia|lia].
Qed.

(** More fuel than the page counter leaves room for changes nothing. *)
Lemma exact_fetch_loop_fuel (fuel1 : nat) :
  ∀ (fuel2 : nat) (next_url : option string) (page : Z) (logins : list Json)
    (w : World St),
    page ≤ 200 → 201 - page ≤ Z.of_nat fuel1 → 201 - page ≤ Z.of_nat fuel2 →
    fetch_loop fuel1 next_url page logins w = fetch_loop fuel2 next_url page logins w.
Proof.
  induction fuel1 as [|fuel1 IH]; intros fuel2 next_url page logins w Hpage H1 H2; [lia|].
  destruct fuel2 as [|fuel2]; [lia|].
  destruct next_url as [url|]; [|done].
  simpl. destruct (Str.nonempty url); simpl; [|done].
  unfold mbind, M_bind, Exact.requests_get, requests_request.
  destruct (transport (srv w) _) as [[resp|m] s']; [|done].
  destruct (status_code resp =? 200); simpl; [|done].
  destruct (json resp) as [payload|]; simpl; [|done].
  destruct (Z.ltb_spec 200 (page + 1)) as [Hlast|Hmore]; simpl; [done|].
  apply IH; lia.
Qed.

(** Against such a server the loop fetches every page up to the 200th and
    then gives up. *)
Lemma exact_fetch_loop_always_next (fuel : nat) :
  always_next transport →
  ∀ (url : string) (page : Z) (logins : list Json) (w : World St),
    Str.nonempty url = true →
    1 ≤ page ≤ 200 → 201 - page ≤ Z.of_nat fuel →
    ∃ w',
      fetch_loop fuel (Some url) page logins w
        = (Raise (SystemExit "Aborting: too many pages"), w') ∧
      Z.of_nat (length (sent w')) = Z.of_nat (length (sent w)) + (201 - page) ∧
      Z.of_nat (length (pages w')) = Z.of_nat (length (pages w)) + (201 - page).
Proof.
  intros Hserver.
  induction fuel as [|fuel IH]; intros url page logins w Hurl Hpage Hfuel; [lia|].
  simpl. rewrite Hurl. simpl.
  unfold mbind, M_bind, Exact.requests_get, requests_request.
  destruct (Hserver (srv w) (mkRequest GET url (github_headers token) None 30))
    as (resp & s' & -> & -> & [payload ->] & [next Hnext]).
  simpl. rewrite Hnext.
  destruct (Z.ltb_spec 200 (page + 1)) as [Hlast|Hmore]; simpl.
  - eexists. split; [done|]. simpl. rewrite !length_app. simpl. lia.
  - unfold print_page. simpl.
    match goal with |- context [Exact.fetch_loop _ _ fuel _ ?p ?l ?w1] =>
      destruct (IH next p l w1) as (w' & -> & H2 & H3);
        [by eapply parse_next_link_nonempty|lia|lia|] end.
    exists w'. split; [done|].
    simpl in H2, H3. rewrite !length_app in H2, H3. simpl in H2, H3. lia.
Qed.

End ExactPagination.

Section BulkPagination.

Context {St : Type}.
Variable transport : St → Request → Answer * St.
Variable random_unit : nat → Q.
Variable token : string.

Local Abbreviation fetch_loop := (Bulk.fetch_loop transport random_unit token).

Lemma backoff_delay_world (resp : Response) (attempt mb : Z) (w : World St) :
  let run := Bulk.backoff_delay random_unit resp attempt mb w in
  fst run ≠ OutOfFuel ∧ sent (snd run) = sent w ∧ pages (snd run) = pages w.
Proof.
  unfold Bulk.backoff_delay.
  destruct (headers_get "Retry-After" resp) as [ra|]; [|done].
  destruct (Str.nonempty ra && Str.isdigit ra); [|done].
  by destruct (Str.int_of_digits ra).
Qed.

(** The executor always ends; it sends at most [todo] requests and
    prints no progress line. *)
Lemma backoff_loop_bound (r : Request) (mb : Z) (todo : nat) :
  ∀ (attempt : Z) (last : option Response) (w : World St),
    let run := Bulk.backoff_loop transport random_unit r mb todo attempt last w in
    fst run ≠ OutOfFuel ∧
    (length (sent (snd run)) ≤ length (sent w) + todo)%nat ∧
    pages (snd run) = pages w.
Proof.
  induction todo as [|todo IH]; intros attempt last w; simpl.
  - destruct last; simpl; repeat split; (done || lia).
  - unfold mbind, M_bind, requests_request.
    destruct (transport (srv w) r) as [[resp|m] s']; simpl;
      [|rewrite length_app; simpl; repeat split; (done || lia)].
    destruct (negb (status_in (status_code resp) [403; 429])); simpl;
      [rewrite length_app; simpl; repeat split; (done || lia)|].
    match goal with |- context [Bulk.backoff_delay _ _ _ _ ?w1] =>
      pose proof (backoff_delay_world resp attempt mb w1) as (Hf & Hs & Hp);
      destruct (Bulk.backoff_delay random_unit resp attempt mb w1) as [[d|e|] w2]
    end; simpl in *; [| |done].
    + assert (length (sent w2) = S (length (sent w))) as Hlen
        by (rewrite Hs, length_app; simpl; lia).
      destruct ((status_code resp =? 429) || Bulk.is_secondary_rate_limit resp); simpl.
      * pose proof (time_sleep_outcome d w2) as (Ht & _ & Hts & _ & Htp & _).
        destruct (time_sleep d w2) as [[[]|e|] w3]; simpl in *; [| |done].
        -- destruct (IH (attempt + 1) (Some resp) w3) as (H1 & H2 & H3).
           simpl in H2, H3. rewrite Hts in H2. repeat split; [done|lia|congruence].
        -- rewrite Hts. repeat split; [done|lia|congruence].
      * repeat split; (done || lia).
    + rewrite Hs, length_app. simpl. repeat split; (done || lia).
Qed.

Lemma bulk_fetch_loop_bound (fuel : nat) :
  ∀ (next_url : option string) (page : Z) (logins : list Json) (w : World St),
    page ≤ 200 → 201 - page ≤ Z.of_nat fuel →
    let run := fetch_loop fuel next_url page logins w in
    fst run ≠ OutOfFuel ∧
    Z.of_nat (length (sent (snd run)))
      ≤ Z.of_nat (length (sent w)) + 8 * (201 - page) ∧
    Z.of_nat (length (pages (snd run))) ≤ Z.of_nat (length (pages w)) + (201 - page).
Proof.
  induction fuel as [|fuel IH]; intros next_url page logins w Hpage Hfuel; [lia|].
  destruct next_url as [url|]; [|simpl; repeat split; [done|lia|lia]].
  simpl. destruct (Str.nonempty url); simpl; [|repeat split; [done|lia|lia]].
  unfold mbind, M_bind, Bulk.request_with_backoff.
  change (Z.to_nat 8) with 8%nat.
  match goal with |- context [Bulk.backoff_loop _ _ ?r ?mb ?t ?a ?l w] =>
    pose proof (backoff_loop_bound r mb t a l w) as (Hf & Hs & Hp);
    destruct (Bulk.backoff_loop transport random_unit r mb t a l w) as [[resp|e|] w1]
  end; simpl fst in *; simpl snd in *;
    [|rewrite Hp; repeat split; [done|lia|lia]|done].
  destruct (status_code resp =? 200); simpl;
    [|rewrite Hp; repeat split; [done|lia|lia]].
  destruct (json resp) as [payload|]; simpl;
    [|rewrite Hp; repeat split; [done|lia|lia]].
  destruct (Z.ltb_spec 200 (page + 1)) as [Hlast|Hmore]; simpl.
  - rewrite Hp, !length_app. simpl. repeat split; [done|lia|lia].
  - unfold raise, print_page, random_uniform. simpl.
    assert (length (pages w1) = length (pages w)) as Hlen by congruence.
    match goal with |- context [time_sleep ?d ?w2] =>
      pose proof (time_sleep_outcome d w2) as (Ht & _ & Hts & _ & Htp & _);
      destruct (time_sleep d w2) as [[[]|e|] w3]
    end; simpl in *; [| |done].
    + match goal with |- context [Bulk.fetch_loop _ _ _ fuel ?n ?p ?l w3] =>
        destruct (IH n p l w3) as (H1 & H2 & H3); [lia|lia|] end.
      rewrite Hts in H2. rewrite Htp, !length_app in H3. simpl in H3.
      repeat split; [done|lia|lia].
    + rewrite Hts, Htp, !length_app. simpl. repeat split; [done|lia|lia].
Qed.

Lemma bulk_fetch_loop_fuel (fuel1 : nat) :
  ∀ (fuel2 : nat) (next_url : option string) (page : Z) (logins : list Json)
    (w : World St),
    page ≤ 200 → 201 - page ≤ Z.of_nat fuel1 → 201 - page ≤ Z.of_nat fuel2 →
    fetch_loop fuel1 next_url page logins w = fetch_loop fuel2 next_url page logins w.
Proof.
  induction fuel1 as [|fuel1 IH]; intros fuel2 next_url page logins w Hpage H1 H2; [lia|].
  destruct fuel2 as [|fuel2]; [lia|].
  destruct next_url as [url|]; [|done].
  simpl. destruct (Str.nonempty url); simpl; [|done].
  unfold mbind, M_bind.
  destruct (Bulk.request_with_backoff _ _ _ _ _ _ _ _ _ w) as [[resp|e|] w1]; try done.
  destruct (status_code resp =? 200); simpl; [|done].
  destruct (json resp) as [payload|]; simpl; [|done].
  destruct (Z.ltb_spec 200 (page + 1)) as [Hlast|Hmore]; simpl; [done|].
  unfold random_uniform. simpl.
  match goal with |- context [time_sleep ?d ?w2] =>
    destruct (time_sleep d w2) as [[[]|e|] w3]
  end; [|done|done].
  apply IH; lia.
Qed.

Lemma bulk_fetch_loop_always_next (fuel : nat) :
  always_next transport →
  ∀ (url : string) (page : Z) (logins : list Json) (w : World St),
    Str.nonempty url = true →
    1 ≤ page ≤ 200 → 201 - page ≤ Z.of_nat fuel →
    ∃ w',
      fetch_loop fuel (Some url) page logins w
        = (Raise (SystemExit "Aborting: too many pages (possible pagination loop)."),
           w') ∧
      Z.of_nat (length (sent w')) = Z.of_nat (length (sent w)) + (201 - page) ∧
      Z.of_nat (length (pages w')) = Z.of_nat (length (pages w)) + (201 - page) ∧
      Z.of_nat (length (slept w')) = Z.of_nat (length (slept w)) + (200 - page).
Proof.
  intros Hserver.
  induction fuel as [|fuel IH]; intros url page logins w Hurl Hpage Hfuel; [lia|].
  simpl. rewrite Hurl. simpl.
  unfold mbind, M_bind, Bulk.request_with_backoff.
  destruct (Hserver (srv w) (mkRequest GET url (github_headers token) None 30))
    as (resp & s' & Hsend & Hstatus & [payload Hjson] & [next Hnext]).
  change (Z.to_nat 8) with 8%nat.
  rewrite (backoff_loop_other transport random_unit _ 60 7 0 None w resp s' Hsend)
    by (rewrite Hstatus; listed).
  rewrite Hstatus, Hjson. simpl. rewrite Hnext.
  destruct (Z.ltb_spec 200 (page + 1)) as [Hlast|Hmore]; simpl.
  - eexists. split; [done|]. simpl. rewrite !length_app. simpl. lia.
  - unfold print_page, random_uniform. simpl.
    rewrite time_sleep_sleepable by (apply pause_sleepable; done).
    match goal with |- context [Bulk.fetch_loop _ _ _ fuel _ ?p ?l ?w1] =>
      destruct (IH next p l w1) as (w' & -> & H2 & H3 & H4);
        [by eapply parse_next_link_nonempty|lia|lia|] end.
    exists w'. split; [done|].
    simpl in H2, H3, H4. rewrite !length_app in H2, H3, H4. simpl in H2, H3, H4. lia.
Qed.

End BulkPagination.

Lemma memberships_url_nonempty (base enterprise team_slug : string) :
  Str.nonempty (base +:+ "/enterprises/" +:+ enterprise
                  +:+ "/teams/" +:+ team_slug +:+ "/memberships") = true.
Proof. by apply nonempty_append_r. Qed.

Lemma looping_page_always_next : always_next (constant_server looping_page).
Proof.
  intros s r. exists looping_page, s. split; [done|]. split; [done|].
  split; [by eexists|]. eexists. by vm_compute.
Qed.

(** C9: the membership fetch of [sync_team_cost_center_exact.py] and of
    [test.py] always ends.  The loop body runs 200 times at most, whatever
    the server answers: the fuel of 200 turns is never used up, more fuel
    gives the same run, and the run sends at most 200 requests (200 times the
    8 attempts of the executor in [test.py]) and prints at most 200 progress
    lines.  Against a server that gives a next locator on every page, the
    fetch aborts with the too-many-pages exit after exactly 200 pages. *)
Theorem pagination_guard {St} (transport : St → Request → Answer * St)
    (random_unit : nat → Q) (base enterprise team_slug token : string) (w : World St) :
  let url := base +:+ "/enterprises/" +:+ enterprise
               +:+ "/teams/" +:+ team_slug +:+ "/memberships" in
  let exact :=
    Exact.fetch_enterprise_team_member_logins transport base enterprise team_slug token w in
  let bulk :=
    Bulk.fetch_enterprise_team_member_logins transport random_unit
      base enterprise team_slug token w in
  (fst exact ≠ OutOfFuel ∧
   (length (sent (snd exact)) ≤ length (sent w) + 200)%nat ∧
   (length (pages (snd exact)) ≤ length (pages w) + 200)%nat) ∧
  (fst bulk ≠ OutOfFuel ∧
   (length (sent (snd bulk)) ≤ length (sent w) + 1600)%nat ∧
   (length (pages (snd bulk)) ≤ length (pages w) + 200)%nat) ∧
  (∀ fuel, (200 ≤ fuel)%nat →
     Exact.fetch_loop transport token fuel (Some url) 1 [] w
       = Exact.fetch_loop transport token 200 (Some url) 1 [] w ∧
     Bulk.fetch_loop transport random_unit token fuel (Some url) 1 [] w
       = Bulk.fetch_loop transport random_unit token 200 (Some url) 1 [] w) ∧
  (always_next transport →
     (∃ w', exact = (Raise (SystemExit "Aborting: too many pages"), w') ∧
            length (sent w') = (length (sent w) + 200)%nat ∧
            length (pages w') = (length (pages w) + 200)%nat) ∧
     (∃ w', bulk = (Raise (SystemExit
                      "Aborting: too many pages (possible pagination loop)."), w') ∧
            length (sent w') = (length (sent w) + 200)%nat ∧
            length (pages w') = (length (pages w) + 200)%nat)).
Proof.
  intros url exact bulk. split; [|split; [|split]].
  - subst exact. unfold Exact.fetch_enterprise_team_member_logins. fold url.
    unfold mbind, M_bind, lift, mret, M_ret.
    pose proof (exact_fetch_loop_bound transport token 200 (Some url) 1 [] w
                  ltac:(lia) ltac:(lia)) as (H1 & H2 & H3).
    destruct (Exact.fetch_loop transport token 200 (Some url) 1 [] w) as [[logins|e|] w'];
      simpl in *; [|repeat split; (done || lia)|done].
    pose proof (identities_fuel logins).
    destruct (identities logins); simpl; repeat split; (done || lia).
  - subst bulk. unfold Bulk.fetch_enterprise_team_member_logins. fold url.
    unfold mbind, M_bind, lift, mret, M_ret.
    pose proof (bulk_fetch_loop_bound transport random_unit token 200 (Some url) 1 [] w
                  ltac:(lia) ltac:(lia)) as (H1 & H2 & H3).
    destruct (Bulk.fetch_loop transport random_unit token 200 (Some url) 1 [] w)
      as [[logins|e|] w'];
      simpl in *; [|repeat split; (done || lia)|done].
    pose proof (identities_fuel logins).
    destruct (identities logins); simpl; repeat split; (done || lia).
  - intros fuel Hfuel. split.
    + apply exact_fetch_loop_fuel; lia.
    + apply bulk_fetch_loop_fuel; lia.
  - intros Hserver. split.
    + destruct (exact_fetch_loop_always_next transport token 200 Hserver url 1 [] w)
        as (w' & Heq & H2 & H3);
        [apply memberships_url_nonempty|lia|lia|].
      exists w'. subst exact. unfold Exact.fetch_enterprise_team_member_logins.
      fold url. unfold mbind, M_bind. rewrite Heq. split; [done|]. lia.
    + destruct (bulk_fetch_loop_always_next transport random_unit token 200 Hserver
                  url 1 [] w) as (w' & Heq & H2 & H3 & _);
        [apply memberships_url_nonempty|lia|lia|].
      exists w'. subst bulk. unfold Bulk.fetch_enterprise_team_member_logins.
      fold url. unfold mbind, M_bind. rewrite Heq. split; [done|]. lia.
Qed.

Lemma pagination_guard_witness :
  ∃ w',
    Exact.fetch_enterprise_team_member_logins (constant_server looping_page)
      "https://api.github.com" "acme" "devs" "token" (initial_world tt)
    = (Raise (SystemExit "Aborting: too many pages"), w') ∧
    length (sent w') = 200%nat ∧
    length (pages w') = 200%nat.
Proof.
  destruct (pagination_guard (constant_server looping_page) half
              "https://api.github.com" "acme" "devs" "token" (initial_world tt))
    as (_ & _ & _ & Hloop).
  destruct (Hloop looping_page_always_next) as [(w' & Heq & Hs & Hp) _].
  exists w'. split; [exact Heq|]. split; [exact Hs|exact Hp].
Defined.

(** ** The two identity lists *)

Lemma elements_walk_each_once (site : IterSite) : walks_each_once (elements_walk site).
Proof.
  intros s. split; [apply NoDup_elements|]. intros x. apply elem_of_elements.
Qed.

Lemma unique_logins_each_once (order : IterSite → gset string → list string)
    (names : list string) :
  walks_each_once (order CostCenterLogins) →
  NoDup (Exact.unique_logins order names) ∧
  ∀ x, x ∈ Exact.unique_logins order names ↔ x ∈ names.
Proof.
  intros Horder. unfold Exact.unique_logins.
  destruct (Horder (list_to_set names)) as [Hnd Hel]. split; [done|].
  intros x. rewrite Hel. apply elem_of_list_to_set.
Qed.

(** What the team fetch returns is the result of the de-duplication loop. *)
Lemma team_fetch_dedup {St} (transport : St → Request → Answer * St)
    (random_unit : nat → Q) (base enterprise team_slug token : string)
    (w w' : World St) (members : list string) :
  Exact.fetch_enterprise_team_member_logins transport base enterprise team_slug token w
    = (Return members, w') ∨
  Bulk.fetch_enterprise_team_member_logins transport random_unit
    base enterprise team_slug token w = (Return members, w') →
  ∃ names, members = dedup names.
Proof.
  unfold Exact.fetch_enterprise_team_member_logins,
    Bulk.fetch_enterprise_team_member_logins, mbind, M_bind, lift, mret, M_ret.
  intros [H|H]; revert H.
  - destruct (Exact.fetch_loop _ _ _ _ _ _ _) as [[logins|e|] w1]; try done.
    destruct (identities logins) as [names|e|]; try done.
    intros [= <- _]. by exists names.
  - destruct (Bulk.fetch_loop _ _ _ _ _ _ _ _) as [[logins|e|] w1]; try done.
    destruct (identities logins) as [names|e|]; try done.
    intros [= <- _]. by exists names.
Qed.

(** What the cost-center fetch returns is empty or a walk through a set. *)
Lemma cost_center_fetch_unique {St} (transport : St → Request → Answer * St)
    (order : IterSite → gset string → list string)
    (base enterprise cost_center_id token : string)
    (w w' : World St) (users : list string) :
  Exact.fetch_cost_center_users transport order base enterprise cost_center_id token w
    = (Return users, w') →
  users = [] ∨ ∃ names, users = Exact.unique_logins order names.
Proof.
  unfold Exact.fetch_cost_center_users, mbind, M_bind, lift, mret, M_ret,
    Exact.requests_get, requests_request.
  destruct (transport (srv w) _) as [[resp|m] s']; [|done].
  destruct (status_code resp =? 404); [intros [= <- _]; by left|].
  destruct (negb (status_code resp =? 200)); [done|].
  destruct (json resp) as [[| | | | |fields]|]; try done.
  destruct (Exact.resource_items _) as [resources|]; [|done].
  destruct (identities _) as [names|e|]; try done.
  intros [= <- _]. right. by exists names.
Qed.

(** C6, as the scripts have it.  The team-member list is the result of
    the de-duplication loop: each distinct login once, in the order of first
    appearance.  The cost-center list is [list(set(logins))]: each distinct
    login once, in the order in which Python walks through the set, which is
    not the order of first appearance. *)
Theorem dedup_spec :
  (∀ l : list string,
     NoDup (dedup l) ∧
     (∀ x, x ∈ dedup l ↔ x ∈ l) ∧
     (∀ x y, precedes (dedup l) x y ↔ first_seen_before l x y)) ∧
  (∀ St (transport : St → Request → Answer * St) random_unit
     base enterprise team_slug token w w' members,
     Exact.fetch_enterprise_team_member_logins transport base enterprise team_slug token w
       = (Return members, w') ∨
     Bulk.fetch_enterprise_team_member_logins transport random_unit
       base enterprise team_slug token w = (Return members, w') →
     ∃ names, members = dedup names) ∧
  (∀ (order : IterSite → gset string → list string) (names : list string),
     walks_each_once (order CostCenterLogins) →
     NoDup (Exact.unique_logins order names) ∧
     ∀ x, x ∈ Exact.unique_logins order names ↔ x ∈ names) ∧
  (∀ St (transport : St → Request → Answer * St) order
     base enterprise cost_center_id token w w' users,
     Exact.fetch_cost_center_users transport order base enterprise cost_center_id token w
       = (Return users, w') →
     users = [] ∨ ∃ names, users = Exact.unique_logins order names).
Proof.
  split; [|split; [|split]].
  - intros l. split; [apply dedup_NoDup|]. split; [apply dedup_elem|apply dedup_order].
  - intros. by eapply team_fetch_dedup.
  - apply unique_logins_each_once.
  - intros. by eapply cost_center_fetch_unique.
Qed.

Lemma dedup_spec_witness :
  NoDup (Exact.unique_logins elements_walk ["bob"; "alice"; "bob"]) ∧
  dedup ["bob"; "alice"; "bob"] = ["bob"; "alice"] ∧
  NoDup (dedup ["bob"; "alice"; "bob"]).
Proof.
  destruct dedup_spec as (Hteam & _ & Hcenter & _).
  split; [|split].
  - apply (Hcenter elements_walk ["bob"; "alice"; "bob"]).
    apply elements_walk_each_once.
  - reflexivity.
  - apply (Hteam ["bob"; "alice"; "bob"]).
Defined.

(** C6 as stated fails on the cost-center list: with the users bob and
    alice in this order, a walk through the set that gives each member once
    returns alice before bob. *)
Lemma cost_center_order_counterexample :
  walks_each_once (elements_walk CostCenterLogins) ∧
  dedup ["bob"; "alice"] = ["bob"; "alice"] ∧
  Exact.unique_logins elements_walk ["bob"; "alice"] = ["alice"; "bob"] ∧
  fst (Exact.fetch_cost_center_users (constant_server bob_alice_center) elements_walk
         "https://api.github.com" "acme" "cc-1" "token" (initial_world tt))
  = Return ["alice"; "bob"].
Proof.
  split; [apply elements_walk_each_once|]. by vm_compute.
Qed.

(** ** The missing cost center *)

Lemma sync_plan_empty_center (team_members : list string) :
  Exact.sync_plan team_members [] = mkPlan (list_to_set team_members) ∅ ∅.
Proof.
  unfold Exact.sync_plan. simpl. f_equal; apply set_eq; set_solver.
Qed.

(** The scenario of the specification, every mutation answered by 201. *)
Example end_to_end_scenario :
  let run := Exact.main_from_plan (constant_server (plain_response 201 EmptyString))
               elements_walk "https://api.github.com" "acme" "cc-1" "token"
               ["alice"; "bob"; "carol"] ["bob"; "dan"] (initial_world tt) in
  ∃ plan summary,
    fst run = Return (plan, summary) ∧
    users_to_add plan = {["alice"; "carol"]} ∧
    users_to_remove plan = {["dan"]} ∧
    users_already_synced plan = {["bob"]} ∧
    map (fun row => (row_login row, row_action row, row_status row)) (results summary)
      = [("carol", "add", "success"); ("alice", "add", "success");
         ("dan", "remove", "success"); ("bob", "none", "already_synced")] ∧
    added_count summary = 2 ∧ removed_count summary = 1 ∧ error_count summary = 0.
Proof. eexists _, _. vm_compute. done. Qed.

(** * Further facts *)

(** ** Reading a page *)

Lemma dict_get_has (key : string) (fields : list (string * Json)) (items : list Json) :
  dict_get key fields = JList items → dict_has key fields = true.
Proof.
  unfold dict_get. induction fields as [|[k v] rest IH]; simpl; [done|].
  destruct (String.eqb k key); [done|]. apply IH.
Qed.

Lemma first_wrapper_priority (fields : list (string * Json))
    (before after : list string) (key : string) (items : list Json) :
  Forall (fun k => ¬ list_valued fields k) before →
  dict_get key fields = JList items →
  first_wrapper (before ++ key :: after) fields = Some items.
Proof.
  intros Hbefore Hkey. induction Hbefore as [|k ks Hk _ IH]; simpl.
  - by rewrite (dict_get_has _ _ _ Hkey), Hkey.
  - destruct (dict_has k fields); [|done].
    destruct (dict_get k fields) eqn:Hget; try done.
    exfalso. apply Hk. by eexists.
Qed.

(** A dict answer is read through its wrapper keys in the fixed order
    memberships, items, value, data: the first of them that carries a list
    gives the page, wherever the key stands in the dict and whatever the
    other fields hold. *)
Theorem extract_memberships_priority (fields : list (string * Json))
    (before after : list string) (key : string) (items : list Json) :
  wrapper_keys = before ++ key :: after →
  Forall (fun k => ¬ list_valued fields k) before →
  dict_get key fields = JList items →
  extract_memberships (JDict fields) = items.
Proof.
  intros Hkeys Hbefore Hkey. unfold extract_memberships.
  change ["memberships"; "items"; "value"; "data"] with wrapper_keys.
  by rewrite Hkeys, (first_wrapper_priority _ _ _ _ _ Hbefore Hkey).
Qed.

Lemma extract_memberships_priority_witness :
  extract_memberships
    (JDict [("foo", JList [JDict []]); ("data", JList [JNum 1]); ("items", JList [JNum 2])])
  = [JNum 2].
Proof.
  apply (extract_memberships_priority _ ["memberships"] ["value"; "data"] "items").
  - reflexivity.
  - constructor; [|constructor]. intros [items H]. vm_compute in H. discriminate.
  - reflexivity.
Defined.

Lemma first_wrapper_from (keys : list string) (fields : list (string * Json))
    (items : list Json) :
  first_wrapper keys fields = Some items →
  ∃ key, key ∈ keys ∧ dict_get key fields = JList items.
Proof.
  induction keys as [|k ks IH]; simpl; [done|].
  destruct (dict_has k fields).
  - destruct (dict_get k fields) eqn:Hget;
      try (intros (key & Hin & H)%IH; exists key; split; [by right|done]).
    intros [= <-]. exists k. split; [left|done].
  - intros (key & Hin & H)%IH. exists key. split; [by right|done].
Qed.

Lemma dict_get_list_in (key : string) (fields : list (string * Json)) (items : list Json) :
  dict_get key fields = JList items → (key, JList items) ∈ fields.
Proof.
  unfold dict_get. induction fields as [|[k v] rest IH]; simpl; [done|].
  destruct (String.eqb_spec k key) as [->|Hne].
  - intros ->. left.
  - intros H. right. by apply IH.
Qed.

Lemma first_record_list_from (fields : list (string * Json)) (items : list Json) :
  first_record_list fields = Some items →
  record_like items = true ∧ ∃ key, (key, JList items) ∈ fields.
Proof.
  induction fields as [|[k v] rest IH]; simpl; [done|].
  assert (Hrest : first_record_list rest = Some items →
            record_like items = true ∧ ∃ key, (key, JList items) ∈ (k, v) :: rest).
  { intros (Hr & key & Hin)%IH. split; [done|]. exists key. by right. }
  destruct v as [| | | |l|]; try done.
  destruct l as [|x l]; [intros [= <-]; split; [done|]; exists k; left|].
  destruct x; try done.
  intros [= <-]. split; [done|]. exists k. left.
Qed.

(** Whatever the answer is, the page read from it is the answer itself
    when it is a list, the list held by one of the fields when it is a dict,
    and the empty page otherwise: an unknown shape never fails, it reads as
    no member. *)
Theorem extract_memberships_provenance (payload : Json) :
  let page := extract_memberships payload in
  payload = JList page ∨
  (∃ fields key, payload = JDict fields ∧ (key, JList page) ∈ fields) ∨
  (page = [] ∧ ¬ is_list payload).
Proof.
  intros page. subst page. destruct payload as [| | | |items|fields];
    try (right; right; split; [done|by intros []]).
  - by left.
  - unfold extract_memberships.
    destruct (first_wrapper ["memberships"; "items"; "value"; "data"] fields)
      as [items|] eqn:Hw.
    + apply first_wrapper_from in Hw as (key & _ & Hget).
      right. left. exists fields, key. split; [done|]. by apply dict_get_list_in.
    + destruct (first_record_list fields) as [items|] eqn:Hr.
      * apply first_record_list_from in Hr as (_ & key & Hin).
        right. left. by exists fields, key.
      * right. right. split; [done|]. by intros [].
Qed.

(** ** Collecting logins *)

Lemma append_logins_omap (logins memberships : list Json) :
  append_logins logins memberships = logins ++ omap member_login memberships.
Proof.
  unfold append_logins. revert logins.
  induction memberships as [|m ms IH]; intros logins; simpl.
  - by rewrite app_nil_r.
  - rewrite IH. destruct (member_login m); [|done]. by rewrite <- app_assoc.
Qed.

Lemma omap_length_le {A B} (f : A → option B) (l : list A) :
  (length (omap f l) ≤ length l)%nat.
Proof.
  induction l as [|x l IH]; [done|]. cbn. destruct (f x); cbn; fold (omap f l); lia.
Qed.

Lemma member_login_truthy (m login : Json) :
  member_login m = Some login → truthy login = true.
Proof.
  unfold member_login. destruct m; try done.
  destruct (truthy (or_else _ _)) eqn:Ht; [|done]. by intros [= <-].
Qed.

(** The logins of a page are appended to those of the pages before, in the
    order of the page; only truthy values are appended, the login of the
    nested [user] is preferred to the flat one, and an entry that is not a
    dict or has no login adds nothing. *)
Theorem append_logins_spec (logins memberships : list Json) :
  append_logins logins memberships = logins ++ omap member_login memberships ∧
  Forall (fun login => truthy login = true) (omap member_login memberships) ∧
  (length (append_logins logins memberships) ≤ length logins + length memberships)%nat ∧
  (∀ fields user_fields,
     dict_get "user" fields = JDict user_fields →
     truthy (dict_get "login" user_fields) = true →
     member_login (JDict fields) = Some (dict_get "login" user_fields)) ∧
  (∀ fields,
     truthy (dict_get "user" fields) = false →
     member_login (JDict fields)
       = if truthy (dict_get "login" fields) then Some (dict_get "login" fields)
         else None) ∧
  (∀ m, is_dict m = false → member_login m = None).
Proof.
  split; [apply append_logins_omap|]. split; [|split; [|split; [|split]]].
  - apply Forall_forall. intros login (m & _ & Hm)%list_elem_of_omap.
    by eapply member_login_truthy.
  - rewrite append_logins_omap, length_app.
    pose proof (omap_length_le member_login memberships). lia.
  - intros fields user_fields Huser Hlogin.
    assert (Hu : or_else (dict_get "user" fields) (JDict []) = JDict user_fields).
    { rewrite Huser. by destruct user_fields. }
    unfold member_login. rewrite Hu. cbv zeta. unfold or_else.
    by rewrite !Hlogin.
  - intros fields Huser. unfold member_login, or_else. rewrite Huser. simpl.
    done.
  - intros m Hm. by destruct m.
Qed.

(** ** De-duplication, again *)

(** A list without duplicates goes through the loop unchanged; so the loop
    is idempotent, and it never makes a list longer. *)
Theorem dedup_fixpoint (l : list string) :
  (NoDup l → dedup l = l) ∧
  dedup (dedup l) = dedup l ∧
  (length (dedup l) ≤ length l)%nat.
Proof.
  assert (Hfix : ∀ l : list string, NoDup l → dedup l = l).
  { clear l. intros l. induction l as [|z l IH] using rev_ind; [done|].
    intros [Hl [Hz _]]%NoDup_app. rewrite dedup_snoc.
    destruct (decide (z ∈ l)) as [Hin|Hout].
    - exfalso. apply (Hz z Hin). left.
    - by rewrite IH. }
  split; [apply Hfix|]. split; [apply Hfix, dedup_NoDup|].
  induction l as [|z l IH] using rev_ind; [done|].
  rewrite dedup_snoc, !length_app. simpl.
  destruct (decide (z ∈ l)); [lia|]. rewrite length_app. simpl. lia.
Qed.

Lemma dedup_fixpoint_witness : dedup ["bob"; "alice"] = ["bob"; "alice"].
Proof.
  apply (proj1 (dedup_fixpoint ["bob"; "alice"])).
  apply NoDup_cons. split; [|apply NoDup_singleton].
  rewrite list_elem_of_singleton. discriminate.
Defined.

(** ** The plan, applied *)

(** Removing the users to remove from the cost center and adding the users
    to add gives exactly the team; the plan asks for no change exactly when
    the two sides already hold the same users; and the plan depends on the
    two lists only through their sets of members. *)
Theorem sync_plan_converges (team_members cost_center_users : list string) :
  let source : gset string := list_to_set team_members in
  let target : gset string := list_to_set cost_center_users in
  let plan := Exact.sync_plan team_members cost_center_users in
  (target ∖ users_to_remove plan) ∪ users_to_add plan = source ∧
  (users_to_add plan = ∅ ∧ users_to_remove plan = ∅ ↔ source = target) ∧
  (∀ team' center',
     list_to_set team' = source → list_to_set center' = target →
     Exact.sync_plan team' center' = plan).
Proof.
  intros source target plan. subst plan. unfold Exact.sync_plan. simpl.
  fold source target. split; [|split].
  - apply set_eq. intros x.
    destruct (decide (x ∈ target)), (decide (x ∈ source)); set_solver.
  - split.
    + intros [Hadd Hremove]. apply set_eq. intros x.
      destruct (decide (x ∈ target)), (decide (x ∈ source)); set_solver.
    + intros ->. split; apply set_eq; set_solver.
  - intros team' center' Ht Hc. unfold Exact.sync_plan.
    change (list_to_set team') with (list_to_set team' : gset string).
    by rewrite Ht, Hc.
Qed.

Lemma append_logins_spec_witness :
  member_login (JDict [("login", JStr "flat");
                       ("user", JDict [("login", JStr "nested")])])
  = Some (JStr "nested").
Proof.
  destruct (append_logins_spec [] []) as (_ & _ & _ & Hnested & _).
  apply (Hnested _ [("login", JStr "nested")]); reflexivity.
Defined.

Lemma sync_plan_converges_witness :
  Exact.sync_plan ["bob"; "alice"; "bob"] ["dan"; "bob"]
  = Exact.sync_plan ["alice"; "bob"] ["bob"; "dan"].
Proof.
  destruct (sync_plan_converges ["alice"; "bob"] ["bob"; "dan"]) as (_ & _ & H).
  apply H; apply set_eq; set_solver.
Defined.

(** ** Chunking, again *)

(** A chunk size that is not positive: zero is refused by [range] with a
    ValueError, and a negative size gives no chunk at all, whatever the
    list holds. *)
Theorem chunked_nonpositive (xs : list string) (size : Z) :
  (size = 0 → Bulk.chunked xs size = Raise ValueError) ∧
  (size < 0 → Bulk.chunked xs size = Return []).
Proof.
  split.
  - intros ->. reflexivity.
  - intros Hneg. unfold Bulk.chunked, py_range.
    destruct (Z.eqb_spec size 0); [lia|].
    rewrite Z.sub_0_r.
    destruct (Z.to_nat (Z.abs (Z.of_nat (length xs)))) as [|fuel]; [done|]. simpl.
    destruct (Z.ltb_spec 0 size); [lia|].
    destruct (Z.ltb_spec (Z.of_nat (length xs)) 0); [lia|done].
Qed.

Lemma chunked_nonpositive_witness :
  Bulk.chunked ["a"; "b"; "c"] (-2) = Return [].
Proof. apply (proj2 (chunked_nonpositive ["a"; "b"; "c"] (-2))). lia. Defined.

(** The chunks of a positive size, by position and by number. *)
Lemma chunked_layout (xs : list string) (size : Z) (chunks : list (list string)) :
  0 < size →
  Bulk.chunked xs size = Return chunks →
  concat chunks = xs ∧
  (∀ k c, chunks !! k = Some c →
          c = take (Z.to_nat size) (drop (k * Z.to_nat size) xs)) ∧
  size * (Z.of_nat (length chunks) - 1) < Z.of_nat (length xs)
    ≤ size * Z.of_nat (length chunks).
Proof.
  intros Hsize. unfold Bulk.chunked, py_range.
  destruct (Z.eqb_spec size 0) as [|_]; [lia|]. intros [= <-].
  set (n := Z.of_nat (length xs)).
  set (starts := range_loop (Z.to_nat (Z.abs (n - 0))) 0 n size).
  destruct (range_loop_chunks xs size Hsize (Z.to_nat (Z.abs (n - 0))) 0)
    as (Hcat & Hall & Hnth & Hlen); [lia|lia|].
  fold n starts in Hcat, Hall, Hnth, Hlen.
  split; [by rewrite Hcat|]. split.
  - intros k c. rewrite list_lookup_fmap.
    destruct (starts !! k) as [j|] eqn:Hk; [|done]. intros [= <-].
    pose proof (Hnth k j Hk) as ->.
    rewrite list_slice_chunk; [f_equal; f_equal; lia|done|].
    rewrite Forall_lookup in Hall. specialize (Hall k _ Hk). unfold n in *. lia.
  - rewrite length_map. rewrite Z.max_r in Hlen by lia. by rewrite Z.sub_0_r in Hlen.
Qed.

(** For a positive size every chunk but the last is full, and a list that
    fits in one chunk is its only chunk. *)
Theorem chunked_full_chunks (xs : list string) (size : Z) (chunks : list (list string)) :
  0 < size →
  Bulk.chunked xs size = Return chunks →
  (∀ k c, chunks !! k = Some c → (S k < length chunks)%nat →
          Z.of_nat (length c) = size) ∧
  (xs ≠ [] → Z.of_nat (length xs) ≤ size → chunks = [xs]).
Proof.
  intros Hsize Hchunks.
  destruct (chunked_layout xs size chunks Hsize Hchunks) as (Hcat & Hnth & Hcount).
  split.
  - intros k c Hk Hlast. rewrite (Hnth k c Hk).
    rewrite length_take, length_drop.
    assert (size * Z.of_nat (S k) ≤ size * (Z.of_nat (length chunks) - 1)) by nia.
    nia.
  - intros Hne Hfit.
    assert (0 < length xs)%nat by (destruct xs; simpl; [done|lia]).
    assert (length chunks = 1%nat) as Hone by nia.
    destruct chunks as [|c [|c' cs]]; simpl in Hone; try lia.
    simpl in Hcat. rewrite app_nil_r in Hcat. by subst c.
Qed.

Lemma chunked_full_chunks_witness :
  Bulk.chunked ["a"; "b"] 5 = Return [["a"; "b"]] ∧
  ∀ k c, [["a"; "b"; "c"]; ["d"; "e"; "f"]; ["g"]] !! k = Some c → (S k < 3)%nat →
         Z.of_nat (length c) = 3.
Proof.
  split; [reflexivity|].
  apply (proj1 (chunked_full_chunks ["a"; "b"; "c"; "d"; "e"; "f"; "g"] 3
                  [["a"; "b"; "c"]; ["d"; "e"; "f"]; ["g"]] ltac:(lia) eq_refl)).
Defined.

(** ** Strings, again *)

Lemma find_char_absent_app (c : ascii) (a b : string) :
  Str.find_char c (a +:+ b) = -1 ↔ Str.find_char c a = -1 ∧ Str.find_char c b = -1.
Proof.
  pose proof (find_char_lower_bound c a). pose proof (find_char_lower_bound c b).
  destruct (Z.eq_dec (Str.find_char c a) (-1)) as [Ha|Ha].
  - rewrite find_char_app by done.
    destruct (Z.ltb_spec (Str.find_char c b) 0); split; lia.
  - destruct (find_char_split c a) as (pre & post & Hsplit & Hlen & Hpre); [lia|].
    split; [|lia]. rewrite Hsplit, append_assoc, append_cons.
    rewrite find_char_app_found; rewrite ?find_char_here; try done; lia.
Qed.

Lemma piece_of_refl (s : string) : piece_of s s.
Proof.
  exists EmptyString, EmptyString. rewrite append_empty.
  induction s as [|c t IH]; [done|]. rewrite append_cons. by rewrite <- IH.
Qed.

Lemma append_empty_r (s : string) : s +:+ EmptyString = s.
Proof. induction s as [|c t IH]; [done|]. by rewrite append_cons, IH. Qed.

Lemma piece_of_trans (p q s : string) : piece_of p q → piece_of q s → piece_of p s.
Proof.
  intros (a & b & ->) (a' & b' & ->). exists (a' +:+ a), (b +:+ b').
  by rewrite !append_assoc.
Qed.

Lemma piece_of_absent (c : ascii) (p s : string) :
  piece_of p s → Str.find_char c s = -1 → Str.find_char c p = -1.
Proof.
  intros (a & b & ->) [_ [Hp _]%find_char_absent_app]%find_char_absent_app. done.
Qed.

Lemma lstrip_piece (s : string) : piece_of (Str.lstrip s) s.
Proof.
  induction s as [|c t IH]; simpl; [apply piece_of_refl|].
  destruct (Str.isspace_char c); [|apply piece_of_refl].
  destruct IH as (a & b & Heq). exists (String c a), b.
  by rewrite append_cons, <- Heq.
Qed.

Lemma rstrip_prefix (s : string) : ∃ rest, s = Str.rstrip s +:+ rest.
Proof.
  induction s as [|c t [rest Hrest]]; simpl; [by exists EmptyString|].
  destruct (Str.rstrip t) as [|d u] eqn:Ht.
  - rewrite append_empty in Hrest. destruct (Str.isspace_char c).
    + by exists (String c t).
    + exists t. by rewrite append_cons, append_empty.
  - exists rest. rewrite append_cons. by rewrite <- Hrest.
Qed.

Lemma rstrip_piece (s : string) : piece_of (Str.rstrip s) s.
Proof.
  destruct (rstrip_prefix s) as [rest Hrest]. exists EmptyString, rest.
  by rewrite append_empty.
Qed.

Lemma strip_piece (s : string) : piece_of (Str.strip s) s.
Proof.
  unfold Str.strip. eapply piece_of_trans; [apply rstrip_piece|apply lstrip_piece].
Qed.

(** The first part of a split is a prefix, the others are pieces, and
    none holds the separator. *)
Lemma split_shape (sep : ascii) (s : string) :
  ∃ p ps,
    Str.split sep s = p :: ps ∧
    (∃ b, s = p +:+ b) ∧ Str.find_char sep p = -1 ∧
    Forall (fun q => piece_of q s ∧ Str.find_char sep q = -1) ps.
Proof.
  induction s as [|c t (p & ps & Hsplit & [b Hb] & Hp & Hps)]; simpl.
  - exists EmptyString, []. repeat split; [by exists EmptyString|done].
  - rewrite Hsplit. destruct (Ascii.eqb_spec c sep) as [->|Hne].
    + exists EmptyString, (p :: ps). repeat split; [by exists (String sep t)|].
      constructor.
      * split; [|done]. exists (String sep EmptyString), b.
        by rewrite append_cons, append_empty, <- Hb.
      * eapply Forall_impl; [exact Hps|]. intros q [(a & b' & ->) Hq]. split; [|done].
        exists (String sep a), b'. by rewrite append_cons.
    + exists (String c p), ps. repeat split.
      * exists b. by rewrite append_cons, <- Hb.
      * simpl. destruct (Ascii.eqb_spec c sep); [done|]. by rewrite Hp.
      * eapply Forall_impl; [exact Hps|]. intros q [(a & b' & ->) Hq]. split; [|done].
        exists (String c a), b'. by rewrite append_cons.
Qed.

Lemma split_pieces (sep : ascii) (s : string) :
  Forall (fun p => piece_of p s ∧ Str.find_char sep p = -1) (Str.split sep s).
Proof.
  destruct (split_shape sep s) as (p & ps & -> & [b Hb] & Hp & Hps).
  constructor; [|done]. split; [|done]. exists EmptyString, b.
  by rewrite append_empty.
Qed.

Lemma segments_pieces (h : string) :
  Forall (fun p => piece_of p h ∧ Str.find_char "," p = -1) (segments h).
Proof.
  unfold segments. apply Forall_map.
  eapply Forall_impl; [apply split_pieces|]. intros p [Hp Hsep]. simpl. split.
  - eapply piece_of_trans; [apply strip_piece|done].
  - eapply piece_of_absent; [apply strip_piece|done].
Qed.

(** A locator that [parse_next_link] returns is a piece of the header that
    is not empty and holds no comma and no closing bracket: a next locator
    that contains a comma is never returned whole. *)
Theorem parse_next_link_locator (h u : string) :
  parse_next_link (Some h) = Some u →
  u ≠ EmptyString ∧
  piece_of u h ∧
  Str.find_char "," u = -1 ∧
  Str.find_char ">" u = -1.
Proof.
  unfold parse_next_link. destruct (negb (Str.nonempty h)); [done|].
  intros (part & pre & post & Hin & _ & Hb)%first_next_sound.
  fold (segments h) in Hin.
  pose proof (segments_pieces h) as Hall. rewrite Forall_forall in Hall.
  destruct (Hall part Hin) as [Hpiece Hcomma].
  destruct Hb as (Hpart & _ & _ & Hclose & Hne).
  assert (Hu : piece_of u part).
  { exists (pre +:+ String "<" EmptyString), (String ">" post).
    rewrite Hpart, append_assoc. done. }
  split; [done|]. split; [by eapply piece_of_trans|].
  split; [by eapply piece_of_absent|done].
Qed.

Lemma parse_next_link_locator_witness :
  piece_of "https://x/y?page=2" example_link ∧
  parse_next_link (Some ("<https://x/y?ids=1,2>; " +:+ rel_next)) = None.
Proof.
  split; [|reflexivity].
  apply (parse_next_link_locator example_link "https://x/y?page=2"). reflexivity.
Defined.

(** ** Markers in any case *)

Lemma lower_app (a b : string) : Str.lower (a +:+ b) = Str.lower a +:+ Str.lower b.
Proof.
  induction a as [|c t IH]; [done|]. rewrite append_cons. simpl.
  by rewrite IH, append_cons.
Qed.

Lemma prefix_app (n rest : string) : String.prefix n (n +:+ rest) = true.
Proof.
  induction n as [|c t IH]; [by destruct rest|]. rewrite append_cons. simpl.
  by destruct (ascii_dec c c).
Qed.

Lemma contains_prefix (n h : string) :
  String.prefix n h = true → Str.contains n h = true.
Proof. intros H. destruct h; cbn [Str.contains]; by rewrite H. Qed.

Lemma contains_piece (n h : string) : piece_of n h → Str.contains n h = true.
Proof.
  intros (a & b & ->). induction a as [|c t IH].
  - rewrite append_empty. apply contains_prefix, prefix_app.
  - rewrite append_cons. cbn [Str.contains]. rewrite IH. apply orb_true_r.
Qed.

Lemma prefix_piece (n h : string) : String.prefix n h = true → ∃ rest, h = n +:+ rest.
Proof.
  revert h. induction n as [|c t IH]; intros h; simpl.
  - intros _. by exists h.
  - destruct h as [|d u]; simpl; [done|].
    destruct (ascii_dec c d) as [->|]; [|done].
    intros [rest ->]%IH. by exists rest.
Qed.

Lemma piece_contains (n h : string) : Str.contains n h = true → piece_of n h.
Proof.
  induction h as [|c t IH]; cbn [Str.contains].
  - rewrite orb_false_r. intros [rest ->]%prefix_piece. by exists EmptyString, rest.
  - intros [Hp|Hc]%orb_prop.
    + apply prefix_piece in Hp as [rest ->]. by exists EmptyString, rest.
    + destruct (IH Hc) as (a & b & ->). exists (String c a), b. by rewrite append_cons.
Qed.

(** A match survives lower-casing both sides. *)
Lemma contains_lower (n h : string) :
  Str.contains n h = true → Str.contains (Str.lower n) (Str.lower h) = true.
Proof.
  intros (a & b & ->)%piece_contains. apply contains_piece.
  exists (Str.lower a), (Str.lower b). by rewrite !lower_app.
Qed.

Lemma take_all (n : nat) (s : string) : (String.length s ≤ n)%nat → Str.take n s = s.
Proof.
  unfold Str.take. revert n. induction s as [|c t IH]; intros n; simpl.
  - by destruct n.
  - destruct n as [|n]; [lia|]. intros H. simpl. rewrite IH; [done|lia].
Qed.

Lemma take_prefix (n : nat) (s : string) :
  ∃ rest, s = Str.take n s +:+ rest ∧ (String.length (Str.take n s) ≤ n)%nat.
Proof.
  unfold Str.take. revert n. induction s as [|c t IH]; intros n; simpl.
  - exists EmptyString. by destruct n; simpl; [|split; [done|lia]].
  - destruct n as [|n]; simpl.
    + exists (String c t). split; [done|lia].
    + destruct (IH n) as (rest & Hrest & Hlen). exists rest.
      rewrite append_cons. split; [by rewrite <- Hrest|lia].
Qed.

(** The marker of a removal is recognised in any mix of upper and lower
    case, when it stands within the first 500 characters of the body; for a
    body of at most 500 characters, that is anywhere in the body. *)
Theorem remove_marker_any_case (url login m : string) (resp : Response) :
  status_code resp = 400 →
  Str.lower m = "no resources" →
  Str.contains m (Str.take 500 (text resp)) = true ∨
  ((String.length (text resp) ≤ 500)%nat ∧ Str.contains m (text resp) = true) →
  Exact.remove_outcome url login resp
    = Return (false, "Skip " +:+ login
                     +:+ ": not in cost center (API says no resources to remove)").
Proof.
  intros Hstatus Hm Hfound.
  assert (Hseen : Str.contains "no resources" (inspected resp) = true).
  { rewrite <- Hm. apply contains_lower.
    destruct Hfound as [H|[Hlen H]]; [done|]. by rewrite take_all. }
  unfold Exact.remove_outcome. rewrite Hstatus. simpl.
  fold (inspected resp). by rewrite Hseen.
Qed.

Lemma remove_marker_any_case_witness :
  Exact.remove_outcome "u" "octocat" (plain_response 400 "NO Resources to remove")
    = Return (false,
              "Skip octocat: not in cost center (API says no resources to remove)").
Proof.
  apply (remove_marker_any_case "u" "octocat" "NO Resources");
    [reflexivity|reflexivity|].
  right. split; [simpl; lia|reflexivity].
Defined.

(** The markers [already] and [exists] of an addition are recognised in
    any mix of upper and lower case by the three scripts, when they stand
    within the part of the body that the script looks at: its first 500
    characters, 800 in [test.py]. *)
Theorem add_marker_any_case (url login m : string) (logins : list string)
    (resp : Response) :
  status_code resp ∈ [409; 422] →
  Str.lower m = "already" ∨ Str.lower m = "exists" →
  (Str.contains m (Str.take 500 (text resp)) = true →
     Exact.add_outcome url login resp
       = Return (false, "Skip " +:+ login +:+ ": already exists") ∧
     PerUser.add_outcome url login resp
       = Return (false, "Skip " +:+ login +:+ ": already in cost center"
                        +:+ " (HTTP " +:+ Str.of_int (status_code resp) +:+ ")")) ∧
  (Str.contains m (Str.take 800 (text resp)) = true →
     Bulk.add_outcome url logins resp
       = Return (false, "Skip " +:+ "batch size="
                        +:+ Str.of_int (Z.of_nat (length logins))
                        +:+ ": already present"
                        +:+ " (HTTP " +:+ Str.of_int (status_code resp) +:+ ")")).
Proof.
  intros Hstatus Hm. split.
  - intros Hfound%contains_lower. apply add_outcome_present; [done|].
    fold (inspected resp) in Hfound. destruct Hm as [Hm|Hm]; rewrite Hm in Hfound.
    + by rewrite Hfound.
    + rewrite Hfound. apply orb_true_r.
  - intros Hfound%contains_lower. unfold Bulk.add_outcome.
    rewrite (status_in_false _ _ (conflict_not_success _ Hstatus)),
      (status_in_true _ _ Hstatus).
    destruct Hm as [Hm|Hm]; rewrite Hm in Hfound; rewrite Hfound; simpl.
    + by rewrite append_assoc.
    + rewrite orb_true_r. simpl. by rewrite append_assoc.
Qed.

Lemma add_marker_any_case_witness :
  Exact.add_outcome "u" "octocat" (plain_response 422 "User ALREADY there")
    = Return (false, "Skip octocat: already exists").
Proof.
  apply (add_marker_any_case "u" "octocat" "ALREADY" []
           (plain_response 422 "User ALREADY there"));
    [listed|by left|reflexivity].
Defined.

(** ** The continuation header, cut and trimmed *)






















(** ** The segment that gives the locator *)








(** ** The retrying executor, again *)

Section BackoffCounts.

Context {St : Type}.
Variable transport : St → Request → Answer * St.
Variable random_unit : nat → Q.
Variable r : Request.
Variable max_backoff_seconds : Z.

Local Abbreviation loop := (Bulk.backoff_loop transport random_unit r max_backoff_seconds).

Lemma backoff_delay_quiet (resp : Response) (attempt : Z) (w : World St) :
  let run := Bulk.backoff_delay random_unit resp attempt max_backoff_seconds w in
  fst run ≠ OutOfFuel ∧ sent (snd run) = sent w ∧ slept (snd run) = slept w ∧
  pages (snd run) = pages w ∧ srv (snd run) = srv w.
Proof.
  unfold Bulk.backoff_delay.
  destruct (headers_get "Retry-After" resp) as [ra|]; [|done].
  destruct (Str.nonempty ra && Str.isdigit ra); [|done].
  by destruct (Str.int_of_digits ra).
Qed.

(** Requests and sleeps of one call: every request sent is [r], at most
    [todo] are sent, and a sleep is only taken after a request. *)
Lemma backoff_loop_counts (todo : nat) :
  ∀ (attempt : Z) (last : option Response) (w : World St),
    let run := loop todo attempt last w in
    fst run ≠ OutOfFuel ∧
    (∃ n, (n ≤ todo)%nat ∧ sent (snd run) = sent w ++ replicate n r ∧
          (length (slept (snd run)) ≤ length (slept w) + n)%nat) ∧
    pages (snd run) = pages w.
Proof.
  induction todo as [|todo IH]; intros attempt last w; simpl.
  - destruct last; simpl; (split; [done|]); (split; [|done]);
      exists 0%nat; simpl; rewrite app_nil_r; (split; [lia|]); (split; [done|lia]).
  - unfold mbind, M_bind, requests_request.
    destruct (transport (srv w) r) as [[resp|m] s']; simpl.
    2:{ split; [done|]. split; [|done]. exists 1%nat. simpl. split; [lia|].
        split; [done|lia]. }
    destruct (negb (status_in (status_code resp) [403; 429])); simpl.
    { split; [done|]. split; [|done]. exists 1%nat. simpl. split; [lia|].
      split; [done|lia]. }
    match goal with |- context [Bulk.backoff_delay _ _ _ _ ?w1] =>
      pose proof (backoff_delay_quiet resp attempt w1) as (Hf & Hs & Hz & Hp & _);
      destruct (Bulk.backoff_delay random_unit resp attempt max_backoff_seconds w1)
        as [[d|e|] w2]
    end; simpl in *; [| |done].
    + destruct ((status_code resp =? 429) || Bulk.is_secondary_rate_limit resp); simpl.
      * pose proof (time_sleep_outcome d w2) as (Ht & _ & Hts & _ & Htp & Htz).
        destruct (time_sleep d w2) as [[[]|e|] w3]; simpl in *; [| |done].
        -- destruct Htz as [Htz _].
           pose proof (IH (attempt + 1) (Some resp) w3)
             as (H1 & (n & Hn & Hsent & Hslept) & H3).
           destruct (Bulk.backoff_loop transport random_unit r max_backoff_seconds
                       todo (attempt + 1) (Some resp) w3) as [res w4].
           simpl in *. split; [done|]. split; [|congruence].
           exists (S n). split; [lia|]. rewrite Hsent, Hts, Hs. simpl.
           split; [by rewrite <- app_assoc|].
           rewrite Htz, length_app, Hz in Hslept. simpl in Hslept. lia.
        -- split; [done|]. split; [|congruence]. exists 1%nat. simpl.
           rewrite Hts, Htz, Hs, Hz. split; [lia|]. split; [done|lia].
      * split; [done|]. split; [|done]. exists 1%nat. simpl. rewrite Hs, Hz.
        split; [lia|]. split; [done|lia].
    + split; [done|]. split; [|done]. exists 1%nat. simpl. rewrite Hs, Hz.
      split; [lia|]. split; [done|lia].
Qed.

End BackoffCounts.

(** Whatever the server does, one call of the executor sends the same
    request at most [max_retries] times and nothing else, and it takes at
    most one sleep for each request sent. *)
Theorem request_with_backoff_bounded {St} (transport : St → Request → Answer * St)
    (random_unit : nat → Q) (method : Method) (url : string)
    (headers : list (string * string)) (json : option Json)
    (timeout max_retries max_backoff_seconds : Z) (w : World St) :
  let run := Bulk.request_with_backoff transport random_unit method url headers json
               timeout max_retries max_backoff_seconds w in
  ∃ n : nat,
    Z.of_nat n ≤ Z.max 0 max_retries ∧
    sent (snd run) = sent w ++ replicate n (mkRequest method url headers json timeout) ∧
    (length (slept (snd run)) ≤ length (slept w) + n)%nat.
Proof.
  intros run. subst run. unfold Bulk.request_with_backoff.
  destruct (backoff_loop_counts transport random_unit
              (mkRequest method url headers json timeout) max_backoff_seconds
              (Z.to_nat max_retries) 0 None w) as (_ & (n & Hn & Hsent & Hslept) & _).
  exists n. split; [lia|done].
Qed.

(** With no attempt allowed, the executor sends nothing and fails on its
    assertion that a response was received. *)
Theorem request_with_backoff_no_attempt {St} (transport : St → Request → Answer * St)
    (random_unit : nat → Q) (method : Method) (url : string)
    (headers : list (string * string)) (json : option Json)
    (timeout max_retries max_backoff_seconds : Z) (w : World St) :
  max_retries ≤ 0 →
  Bulk.request_with_backoff transport random_unit method url headers json
    timeout max_retries max_backoff_seconds w = (Raise AssertionError, w).
Proof.
  intros Hmax. unfold Bulk.request_with_backoff.
  replace (Z.to_nat max_retries) with 0%nat by lia. done.
Qed.

Lemma request_with_backoff_no_attempt_witness :
  Bulk.request_with_backoff (constant_server (plain_response 200 "ok")) half
    GET "u" [] None 30 0 60 (initial_world tt)
  = (Raise AssertionError, initial_world tt).
Proof. apply request_with_backoff_no_attempt. lia. Defined.



Section BackoffSchedule.

Context {St : Type}.
Variable transport : St → Request → Answer * St.
Variable random_unit : nat → Q.
Variable r : Request.
Variable max_backoff_seconds : Z.

Local Abbreviation loop := (Bulk.backoff_loop transport random_unit r max_backoff_seconds).

Lemma retryable_status (resp : Response) :
  retryable resp = true →
  status_in (status_code resp) [403; 429] = true ∧
  (status_code resp =? 429) || Bulk.is_secondary_rate_limit resp = true.
Proof.
  intros Hretry. split.
  - apply status_in_true. unfold retryable in Hretry.
    destruct (Z.eqb_spec (status_code resp) 429) as [->|]; [listed|].
    destruct (Z.eqb_spec (status_code resp) 403) as [->|]; [listed|done].
  - unfold retryable in Hretry. destruct (status_code resp =? 429); [done|].
    simpl in *. by apply andb_prop in Hretry as [_ ->].
Qed.


(** One attempt that the server throttles: the request, the delay [d]
    computed in the world [w1], and then the sleep. *)
Lemma backoff_loop_throttled (todo : nat) (attempt : Z) (last : option Response)
    (w w1 : World St) (resp : Response) (s' : St) (d : Q) :
  transport (srv w) r = (Responded resp, s') →
  retryable resp = true →
  Bulk.backoff_delay random_unit resp attempt max_backoff_seconds (after_request r w s')
    = (Return d, w1) →
  loop (S todo) attempt last w =
    match time_sleep d w1 with
    | (Return _, w2) => loop todo (attempt + 1) (Some resp) w2
    | (Raise e, w2) => (Raise e, w2)
    | (OutOfFuel, w2) => (OutOfFuel, w2)
    end.
Proof.
  intros Hsend [Hin Hgo]%retryable_status Hdelay. simpl.
  unfold mbind, M_bind, requests_request. rewrite Hsend, Hin. simpl.
  unfold after_request in Hdelay. rewrite Hdelay, Hgo.
  by destruct (time_sleep d w1) as [[[]|e|] w2].
Qed.


Lemma backoff_loop_retry_after (todo : nat) (seconds : Z) :
  seconds ≤ sleep_horizon →
  (∀ s, ∃ resp s', transport s r = (Responded resp, s') ∧
                   retryable resp = true ∧ retry_after_seconds resp = Some seconds) →
  ∀ (attempt : Z) (last : option Response) (w : World St),
    let run := loop todo attempt last w in
    slept (snd run) = slept w ++ replicate todo (inject_Z seconds) ∧
    draws (snd run) = draws w ∧
    sent (snd run) = sent w ++ replicate todo r.
Proof.
  intros Hreach Hserver. induction todo as [|todo IH]; intros attempt last w.
  - simpl. destruct last; simpl; by rewrite !app_nil_r.
  - destruct (Hserver (srv w)) as (resp & s' & Hsend & Hretry & Hseconds).
    cbv zeta.
    rewrite (backoff_loop_throttled todo attempt last w _ resp s' _ Hsend Hretry
               (backoff_delay_seconds random_unit max_backoff_seconds resp attempt
                  seconds (after_request r w s') Hseconds)).
    rewrite time_sleep_sleepable.
    2:{ split; [change 0%Q with (inject_Z 0)|]; apply inject_Z_le; [|done].
        by eapply retry_after_seconds_bound. }
    match goal with |- context [Bulk.backoff_loop _ _ _ _ todo ?a ?l ?w3] =>
      pose proof (IH a l w3) as (Hslept & Hdraws & Hsent);
      destruct (Bulk.backoff_loop transport random_unit r max_backoff_seconds
                  todo a l w3) as [res w4]
    end.
    simpl in *. rewrite Hslept, Hdraws, Hsent. split; [|split; [done|]].
    + by rewrite <- app_assoc.
    + by rewrite <- app_assoc.
Qed.

End BackoffSchedule.


Lemma time_sleep_overflow {St} (seconds : Z) (w : World St) :
  sleep_nanoseconds_max < seconds * 10 ^ 9 →
  time_sleep (inject_Z seconds) w = (Raise OverflowError, w).
Proof.
  intros Hbig. unfold time_sleep.
  assert (H0 : Qle_bool 0 (inject_Z seconds) = true).
  { apply Qle_bool_iff. change 0%Q with (inject_Z 0). apply inject_Z_le.
    unfold sleep_nanoseconds_max in Hbig. lia. }
  rewrite H0. simpl.
  destruct (Qle_bool (inject_Z seconds * inject_Z (10 ^ 9))
              (inject_Z sleep_nanoseconds_max)) eqn:H1; [|done].
  apply Qle_bool_iff in H1. unfold Qle, Qmult, inject_Z in H1. simpl in H1. lia.
Qed.



(** Against a server that throttles every attempt with the same decimal
    Retry-After value: when that number of seconds is within the longest
    sleep of the model, the call makes all its attempts, every sleep is that
    number of seconds, whatever the attempt and the cap, and the random
    generator is never used.  When it is more than [time.sleep] can hold in
    nanoseconds, the call ends with the OverflowError of [time.sleep] after
    one request and no sleep. *)
Theorem backoff_schedule_retry_after {St} (transport : St → Request → Answer * St)
    (random_unit : nat → Q) (method : Method) (url : string)
    (headers : list (string * string)) (json : option Json)
    (timeout max_retries max_backoff_seconds seconds : Z) (w : World St) :
  let r := mkRequest method url headers json timeout in
  let run := Bulk.request_with_backoff transport random_unit method url headers json
               timeout max_retries max_backoff_seconds w in
  (∀ s, ∃ resp s', transport s r = (Responded resp, s') ∧
                   retryable resp = true ∧ retry_after_seconds resp = Some seconds) →
  (seconds ≤ sleep_horizon →
     slept (snd run) = slept w ++ replicate (Z.to_nat max_retries) (inject_Z seconds) ∧
     draws (snd run) = draws w ∧
     sent (snd run) = sent w ++ replicate (Z.to_nat max_retries) r) ∧
  (sleep_nanoseconds_max < seconds * 10 ^ 9 → 0 < max_retries →
     fst run = Raise OverflowError ∧
     sent (snd run) = sent w ++ [r] ∧
     slept (snd run) = slept w ∧
     draws (snd run) = draws w).
Proof.
  intros r run Hserver. subst run. unfold Bulk.request_with_backoff. fold r. split.
  - intros Hreach.
    apply (backoff_loop_retry_after transport random_unit r max_backoff_seconds
             (Z.to_nat max_retries) seconds Hreach Hserver 0 None w).
  - intros Hbig Hmax.
    destruct (Z.to_nat max_retries) as [|todo] eqn:Htodo; [lia|].
    destruct (Hserver (srv w)) as (resp & s' & Hsend & Hretry & Hseconds).
    rewrite (backoff_loop_throttled transport random_unit r max_backoff_seconds
               todo 0 None w _ resp s' _ Hsend Hretry
               (backoff_delay_seconds random_unit max_backoff_seconds resp 0
                  seconds (after_request r w s') Hseconds)).
    by rewrite time_sleep_overflow.
Qed.

Lemma backoff_schedule_retry_after_witness :
  let run := Bulk.request_with_backoff
               (constant_server (throttled_response 429 "slow" "007")) half
               GET "u" [] None 30 2 60 (initial_world tt) in
  let late := Bulk.request_with_backoff
                (constant_server (throttled_response 429 "slow" "9223372037")) half
                GET "u" [] None 30 8 60 (initial_world tt) in
  (slept (snd run) = [] ++ replicate (Z.to_nat 2) (inject_Z 7) ∧
   draws (snd run) = 0%nat) ∧
  fst late = Raise OverflowError.
Proof.
  split.
  - destruct (backoff_schedule_retry_after
                (constant_server (throttled_response 429 "slow" "007")) half
                GET "u" [] None 30 2 60 7 (initial_world tt)) as [Hnear _].
    + intros s. exists (throttled_response 429 "slow" "007"), s. by vm_compute.
    + destruct (Hnear ltac:(by vm_compute)) as (Hslept & Hdraws & _).
      split; [exact Hslept|exact Hdraws].
  - destruct (backoff_schedule_retry_after
                (constant_server (throttled_response 429 "slow" "9223372037")) half
                GET "u" [] None 30 8 60 9223372037 (initial_world tt)) as [_ Hfar].
    + intros s. exists (throttled_response 429 "slow" "9223372037"), s. by vm_compute.
    + destruct (Hfar ltac:(by vm_compute) ltac:(lia)) as (Hraise & _). exact Hraise.
Defined.

(** ** The mutation loops of [sync_team_cost_center_exact.py] *)

Section MutationPhase.

Context {St : Type}.
Variable mutate : string → M St (bool * string).
Variable action verb : string.

Local Abbreviation phase := (Exact.mutation_phase mutate action verb).

(** One turn of the loop, by what the mutation does. *)
Lemma mutation_phase_turn (login : string) (rest : list string) (results : list Row)
    (done_count error_count : Z) (w : World St) :
  phase (login :: rest) results done_count error_count w =
    match mutate login w with
    | (Return (ok, msg), w1) =>
        phase rest
          (results ++ [mkRow login action (if ok then "success" else "skipped") msg])
          (if ok then done_count + 1 else done_count) error_count w1
    | (Raise e, w1) =>
        if is_Exception e then
          phase rest
            (results ++ [mkRow login action "error"
                           ("Error " +:+ verb +:+ " " +:+ login +:+ ": " +:+ exn_str e)])
            done_count (error_count + 1) w1
        else (Raise e, w1)
    | (OutOfFuel, w1) => (OutOfFuel, w1)
    end.
Proof.
  simpl. unfold mbind, M_bind, try_except, mret, M_ret.
  destruct (mutate login w) as [[[ok msg]|e|] w1]; simpl; [done| |done].
  by destruct (is_Exception e).
Qed.

Lemma mutation_phase_rows (logins : list string) :
  ∀ (results : list Row) (done_count error_count : Z) (w : World St)
    (results' : list Row) (done' error' : Z),
    fst (phase logins results done_count error_count w)
      = Return (results', done', error') →
    ∃ rows,
      results' = results ++ rows ∧
      map row_login rows = logins ∧
      Forall (fun row => row_action row = action) rows ∧
      Forall (fun row => row_status row ∈ ["success"; "skipped"; "error"]) rows ∧
      done' = done_count + count_status "success" rows ∧
      error' = error_count + count_status "error" rows.
Proof.
  induction logins as [|login rest IH];
    intros results done_count error_count w results' done' error'.
  - simpl. intros [= <- <- <-]. exists []. rewrite app_nil_r.
    unfold count_status. simpl. repeat split; (done || constructor || lia).
  - rewrite mutation_phase_turn.
    destruct (mutate login w) as [[[ok msg]|e|] w1]; [| |done].
    + intros (rows & -> & Hlogins & Haction & Hstatus & -> & ->)%IH.
      eexists (_ :: rows). rewrite <- app_assoc. split; [done|]. simpl.
      split; [by rewrite Hlogins|]. split; [by constructor|].
      split; [constructor; [destruct ok; set_solver|done]|].
      unfold count_status. rewrite !filter_cons. simpl.
      destruct ok; repeat case_decide; simplify_eq; simpl; split; lia.
    + destruct (is_Exception e); [|done].
      intros (rows & -> & Hlogins & Haction & Hstatus & -> & ->)%IH.
      eexists (_ :: rows). rewrite <- app_assoc. split; [done|]. simpl.
      split; [by rewrite Hlogins|]. split; [by constructor|].
      split; [constructor; [set_solver|done]|].
      unfold count_status. rewrite !filter_cons. simpl.
      repeat case_decide; simplify_eq; simpl; split; lia.
Qed.

Lemma mutation_phase_raises (logins : list string) :
  ∀ (results : list Row) (done_count error_count : Z) (w : World St) (e : Exn),
    fst (phase logins results done_count error_count w) = Raise e →
    is_Exception e = false.
Proof.
  induction logins as [|login rest IH]; intros results done_count error_count w e.
  - done.
  - rewrite mutation_phase_turn.
    destruct (mutate login w) as [[[ok msg]|e'|] w1]; [apply IH| |done].
    destruct (is_Exception e') eqn:He; [apply IH|].
    simpl. by intros [= <-].
Qed.

End MutationPhase.

(** A mutation loop that returns has written one row for each login it was
    given, in the order given and after the rows already there; every row
    carries the action of the loop and the status success, skipped or
    error, and the two counters have grown by the numbers of success rows
    and of error rows.  A loop that raises never raises an exception that
    [except Exception] catches. *)
Theorem mutation_phase_report {St} (mutate : string → M St (bool * string))
    (action verb : string) (logins : list string) (results : list Row)
    (done_count error_count : Z) (w : World St) :
  let run := Exact.mutation_phase mutate action verb logins
               results done_count error_count w in
  (∀ results' done' error',
     fst run = Return (results', done', error') →
     ∃ rows,
       results' = results ++ rows ∧
       map row_login rows = logins ∧
       Forall (fun row => row_action row = action) rows ∧
       Forall (fun row => row_status row ∈ ["success"; "skipped"; "error"]) rows ∧
       done' = done_count + count_status "success" rows ∧
       error' = error_count + count_status "error" rows) ∧
  (∀ e, fst run = Raise e → is_Exception e = false).
Proof.
  intros run. split.
  - apply mutation_phase_rows.
  - apply mutation_phase_raises.
Qed.

Lemma mutation_phase_report_witness :
  ∃ rows,
    map row_login rows = ["alice"; "bob"] ∧
    2 = 0 + count_status "success" rows.
Proof.
  destruct (mutation_phase_report
              (Exact.add_user_to_cost_center (constant_server (plain_response 201 EmptyString))
                 "https://api.github.com" "acme" "cc-1" "token")
              "add" "adding" ["alice"; "bob"] [] 0 0 (initial_world tt)) as [H _].
  destruct (H _ 2 0 eq_refl) as (rows & _ & Hlogins & _ & _ & Hdone & _).
  exists rows. split; [exact Hlogins|exact Hdone].
Defined.

Section PhaseRequests.

Context {St : Type}.
Variable mutate : string → M St (bool * string).
Variable request_of : string → Request.
Variable action verb : string.

Hypothesis one_request :
  ∀ login w, sent (snd (mutate login w)) = sent w ++ [request_of login].

Lemma mutation_phase_requests (logins : list string) :
  ∀ (results : list Row) (done_count error_count : Z) (w : World St),
    let run := Exact.mutation_phase mutate action verb logins
                 results done_count error_count w in
    ∃ n, (n ≤ length logins)%nat ∧
         sent (snd run) = sent w ++ map request_of (take n logins) ∧
         ((∃ v, fst run = Return v) → n = length logins) ∧
         (logins ≠ [] → (0 < n)%nat).
Proof.
  induction logins as [|login rest IH]; intros results done_count error_count w.
  - exists 0%nat. simpl. rewrite app_nil_r. done.
  - cbv zeta. rewrite mutation_phase_turn.
    pose proof (one_request login w) as Hone.
    destruct (mutate login w) as [[[ok msg]|e|] w1]; simpl in Hone.
    + destruct (IH (results ++ [mkRow login action (if ok then "success" else "skipped") msg])
                  (if ok then done_count + 1 else done_count) error_count w1)
        as (n & Hn & Hsent & Hret & _).
      exists (S n). simpl. split; [lia|]. rewrite Hsent, Hone, <- app_assoc.
      split; [done|]. split; [|lia]. intros Hv. by rewrite Hret.
    + destruct (is_Exception e).
      * destruct (IH (results ++ [mkRow login action "error"
                        ("Error " +:+ verb +:+ " " +:+ login +:+ ": " +:+ exn_str e)])
                    done_count (error_count + 1) w1) as (n & Hn & Hsent & Hret & _).
        exists (S n). simpl. split; [lia|]. rewrite Hsent, Hone, <- app_assoc.
        split; [done|]. split; [|lia]. intros Hv. by rewrite Hret.
      * exists 1%nat. simpl. split; [lia|]. rewrite ?take_0. split; [done|].
        split; [|lia]. by intros [v Hv].
    + exists 1%nat. simpl. split; [lia|]. rewrite ?take_0. split; [done|].
      split; [|lia]. by intros [v Hv].
Qed.

End PhaseRequests.

Lemma request_then_classify {St A} (transport : St → Request → Answer * St)
    (r : Request) (classify : Response → Result A) (w : World St) :
  sent (snd ((resp ← requests_request transport r; lift (classify resp)) w))
  = sent w ++ [r].
Proof.
  unfold mbind, M_bind, requests_request, lift.
  destruct (transport (srv w) r) as [[resp|m] s']; simpl; [|done].
  by destruct (classify resp).
Qed.

Lemma add_user_one_request {St} (transport : St → Request → Answer * St)
    (base enterprise cost_center_id token login : string) (w : World St) :
  sent (snd (Exact.add_user_to_cost_center transport base enterprise
               cost_center_id token login w))
  = sent w ++ [add_request base enterprise cost_center_id token login].
Proof. apply request_then_classify. Qed.



(** A failure of the HTTP client during a mutation does not stop the run:
    the loop writes an error row that carries the text of the exception,
    counts one error and goes on with the next login. *)
Theorem mutation_phase_survives_failure {St} (transport : St → Request → Answer * St)
    (base enterprise cost_center_id token login message : string)
    (rest : list string) (results : list Row) (done_count error_count : Z)
    (w : World St) (s' : St) :
  let r := add_request base enterprise cost_center_id token login in
  transport (srv w) r = (Failed message, s') →
  Exact.mutation_phase
    (Exact.add_user_to_cost_center transport base enterprise cost_center_id token)
    "add" "adding" (login :: rest) results done_count error_count w
  = Exact.mutation_phase
      (Exact.add_user_to_cost_center transport base enterprise cost_center_id token)
      "add" "adding" rest
      (results ++ [mkRow login "add" "error"
                     ("Error adding " +:+ login +:+ ": " +:+ message)])
      done_count (error_count + 1) (after_request r w s').
Proof.
  intros r Hsend. rewrite mutation_phase_turn.
  unfold Exact.add_user_to_cost_center at 1, mbind, M_bind, requests_request, lift.
  fold (add_request base enterprise cost_center_id token login). fold r.
  rewrite Hsend. done.
Qed.

Lemma mutation_phase_survives_failure_witness :
  fst (Exact.mutation_phase
         (Exact.add_user_to_cost_center (failing_server "connection reset")
            "https://api.github.com" "acme" "cc-1" "token")
         "add" "adding" ["alice"] [] 0 0 (initial_world tt))
  = Return ([mkRow "alice" "add" "error" "Error adding alice: connection reset"], 0, 1).
Proof.
  rewrite (mutation_phase_survives_failure (failing_server "connection reset")
             "https://api.github.com" "acme" "cc-1" "token" "alice" "connection reset"
             [] [] 0 0 (initial_world tt) tt eq_refl).
  reflexivity.
Defined.

(** ** The report of [sync_team_cost_center_exact.py] *)

Lemma walk_permutation (order : gset string → list string) (s : gset string) :
  walks_each_once order → order s ≡ₚ elements s.
Proof.
  intros Horder. destruct (Horder s) as [Hnd Hel].
  apply NoDup_Permutation; [done|apply NoDup_elements|].
  intros x. by rewrite Hel, elem_of_elements.
Qed.

Lemma walk_length (order : gset string → list string) (s : gset string) :
  walks_each_once order → length (order s) = size s.
Proof. intros Horder. by rewrite (walk_permutation order s Horder). Qed.

Lemma count_status_bounds (status : string) (rows : list Row) :
  0 ≤ count_status status rows ≤ Z.of_nat (length rows).
Proof.
  unfold count_status.
  pose proof (length_filter (fun row => row_status row = status) rows). lia.
Qed.

(** A run of [main] that reaches its summary has written exactly one row
    for each user of the team or of the cost center: the users to add, then
    the users to remove, then the users already in sync.  The counts of the
    summary stay within the sizes of the three sets of the plan. *)
Theorem main_report {St} (transport : St → Request → Answer * St)
    (set_order : IterSite → gset string → list string)
    (base enterprise cost_center_id token : string)
    (team_members cost_center_users : list string) (w : World St)
    (plan : Plan) (summary : Summary) :
  walks_each_once (set_order UsersToAdd) →
  walks_each_once (set_order UsersToRemove) →
  walks_each_once (set_order UsersAlreadySynced) →
  fst (Exact.main_from_plan transport set_order base enterprise cost_center_id token
         team_members cost_center_users w) = Return (plan, summary) →
  plan = Exact.sync_plan team_members cost_center_users ∧
  map row_login (results summary)
    = set_order UsersToAdd (users_to_add plan)
      ++ set_order UsersToRemove (users_to_remove plan)
      ++ set_order UsersAlreadySynced (users_already_synced plan) ∧
  map row_login (results summary)
    ≡ₚ elements (list_to_set team_members ∪ list_to_set cost_center_users : gset string) ∧
  0 ≤ added_count summary ≤ Z.of_nat (size (users_to_add plan)) ∧
  0 ≤ removed_count summary ≤ Z.of_nat (size (users_to_remove plan)) ∧
  synced_count summary = Z.of_nat (size (users_already_synced plan)) ∧
  0 ≤ error_count summary
    ≤ Z.of_nat (size (users_to_add plan)) + Z.of_nat (size (users_to_remove plan)).
Proof.
  intros Hadd Hremove Hsynced. unfold Exact.main_from_plan.
  set (p := Exact.sync_plan team_members cost_center_users).
  unfold mbind at 1, M_bind at 1.
  destruct (Exact.mutation_phase _ "add" "adding" _ [] 0 0 w)
    as [[[[results1 added] errors1]|e|] w1] eqn:Hphase1; try done.
  apply (f_equal fst) in Hphase1. simpl in Hphase1.
  apply mutation_phase_rows in Hphase1
    as (rows1 & Hr1 & Hl1 & _ & _ & Ha & He1).
  simpl in Hr1. subst results1.
  unfold mbind at 1, M_bind at 1.
  destruct (Exact.mutation_phase _ "remove" "removing" _ rows1 0 errors1 w1)
    as [[[[results2 removed] errors2]|e|] w2] eqn:Hphase2; try done.
  apply (f_equal fst) in Hphase2. simpl in Hphase2.
  apply mutation_phase_rows in Hphase2
    as (rows2 & Hr2 & Hl2 & _ & _ & Hrm & He2).
  subst results2. simpl. intros [= <- <-]. simpl.
  pose proof (count_status_bounds "success" rows1).
  pose proof (count_status_bounds "error" rows1).
  pose proof (count_status_bounds "success" rows2).
  pose proof (count_status_bounds "error" rows2).
  change (map row_login rows1 = set_order UsersToAdd (users_to_add p)) in Hl1.
  change (map row_login rows2 = set_order UsersToRemove (users_to_remove p)) in Hl2.
  change (Exact.sync_plan team_members cost_center_users) with p.
  assert (Hn1 : length rows1 = size (users_to_add p)).
  { by rewrite <- (walk_length _ _ Hadd), <- Hl1, length_map. }
  assert (Hn2 : length rows2 = size (users_to_remove p)).
  { by rewrite <- (walk_length _ _ Hremove), <- Hl2, length_map. }
  assert (Hrows : map row_login
                    ((rows1 ++ rows2)
                     ++ map (fun login => mkRow login "none" "already_synced"
                                            "Already in sync")
                            (set_order UsersAlreadySynced (users_already_synced p)))
                  = set_order UsersToAdd (users_to_add p)
                    ++ set_order UsersToRemove (users_to_remove p)
                    ++ set_order UsersAlreadySynced (users_already_synced p)).
  { rewrite !map_app, Hl1, Hl2, map_map. simpl. rewrite map_id.
    by rewrite <- app_assoc. }
  split; [done|]. split; [done|].
  split; [|unfold p in Hn1, Hn2; simpl in Hn1, Hn2;
           split; [lia|split; [lia|split; [|lia]]]].
  - refine (eq_rect_r (fun l => l ≡ₚ _) _ Hrows). apply NoDup_Permutation.
    + destruct (Hadd (users_to_add p)) as [N1 E1].
      destruct (Hremove (users_to_remove p)) as [N2 E2].
      destruct (Hsynced (users_already_synced p)) as [N3 E3].
      apply NoDup_app. split; [done|]. split.
      * intros x Hx [Hy|Hy]%elem_of_app; rewrite E1 in Hx.
        -- rewrite E2 in Hy. subst p. simpl in *. set_solver.
        -- rewrite E3 in Hy. subst p. simpl in *. set_solver.
      * apply NoDup_app. split; [done|]. split; [|done].
        intros x Hx Hy. rewrite E2 in Hx. rewrite E3 in Hy.
        subst p. simpl in *. set_solver.
    + apply NoDup_elements.
    + intros x. rewrite !elem_of_app, elem_of_elements.
      destruct (Hadd (users_to_add p)) as [_ ->].
      destruct (Hremove (users_to_remove p)) as [_ ->].
      destruct (Hsynced (users_already_synced p)) as [_ ->].
      subst p. simpl.
      destruct (decide (x ∈ (list_to_set team_members : gset string))),
        (decide (x ∈ (list_to_set cost_center_users : gset string))); set_solver.
  - by rewrite (walk_length _ _ Hsynced).
Qed.

Lemma main_report_witness :
  ∃ plan summary,
    fst (Exact.main_from_plan (constant_server (plain_response 201 EmptyString))
           elements_walk "https://api.github.com" "acme" "cc-1" "token"
           ["alice"; "bob"; "carol"] ["bob"; "dan"] (initial_world tt))
      = Return (plan, summary) ∧
    map row_login (results summary)
      ≡ₚ elements (list_to_set ["alice"; "bob"; "carol"] ∪ list_to_set ["bob"; "dan"]
                   : gset string).
Proof.
  eexists _, _. split; [vm_compute; reflexivity|].
  eapply (main_report (constant_server (plain_response 201 EmptyString)) elements_walk
            "https://api.github.com" "acme" "cc-1" "token"
            ["alice"; "bob"; "carol"] ["bob"; "dan"] (initial_world tt));
    [apply elements_walk_each_once..|vm_compute; reflexivity].
Defined.

(** ** A cost center that does not exist *)

Lemma walk_empty (order : gset string → list string) :
  walks_each_once order → order ∅ = [].
Proof.
  intros Horder. destruct (Horder ∅) as [_ Hel].
  destruct (order ∅) as [|x l]; [done|].
  assert (Hx : x ∈ x :: l) by left. rewrite Hel in Hx. set_solver.
Qed.

(** [main] after the two fetches, when the cost center is empty: what is
    left of it is the add loop over the team and the summary. *)
Lemma main_from_plan_empty_center {St} (transport : St → Request → Answer * St)
    (set_order : IterSite → gset string → list string)
    (base enterprise cost_center_id token : string)
    (team_members : list string) (w : World St) :
  walks_each_once (set_order UsersToRemove) →
  walks_each_once (set_order UsersAlreadySynced) →
  Exact.main_from_plan transport set_order base enterprise cost_center_id token
    team_members [] w
  = match Exact.mutation_phase
            (Exact.add_user_to_cost_center transport base enterprise cost_center_id token)
            "add" "adding" (set_order UsersToAdd (list_to_set team_members)) [] 0 0 w with
    | (Return (results, added, errors), w') =>
        (Return (mkPlan (list_to_set team_members) ∅ ∅,
                 mkSummary results added 0 0 errors), w')
    | (Raise e, w') => (Raise e, w')
    | (OutOfFuel, w') => (OutOfFuel, w')
    end.
Proof.
  intros Hremove Hsynced. unfold Exact.main_from_plan.
  rewrite sync_plan_empty_center. simpl.
  rewrite (walk_empty _ Hremove), (walk_empty _ Hsynced).
  unfold mbind at 1, M_bind at 1.
  destruct (Exact.mutation_phase _ "add" "adding" _ [] 0 0 w)
    as [[[[results added] errors]|e|] w']; [|done|done].
  simpl. unfold mbind, M_bind, mret, M_ret. simpl. by rewrite app_nil_r.
Qed.

(** C10: when the cost-center request is answered by a 404, the fetch
    returns the empty list and [main] goes on: what it then does is the
    rest of [main] for an empty cost center.  Every team member, once each,
    is a user to add and nobody is a user to remove; the requests that
    follow the fetch are the additions of these users, in the order of the
    walk, up to a first hard failure if there is one, and at least one when
    the team is not empty; and a run that reaches its summary has the plan
    that adds the whole team, one [add] row for each team member, and has
    removed nobody.  When the request is answered by any status other than
    404 and 200, the fetch raises SystemExit and [main] ends with it. *)
Theorem cost_center_not_found {St} (transport : St → Request → Answer * St)
    (set_order : IterSite → gset string → list string)
    (base enterprise team_slug cost_center_id token : string)
    (w : World St) (resp : Response) (s' : St) :
  let r := cost_center_request base enterprise cost_center_id token in
  let fetch :=
    Exact.fetch_cost_center_users transport set_order base enterprise cost_center_id token in
  let main := Exact.main transport set_order base enterprise team_slug cost_center_id token in
  transport (srv w) r = (Responded resp, s') →
  (status_code resp = 404 →
     fetch w = (Return [], after_request r w s') ∧
     ∀ w0 team_members,
       Exact.fetch_enterprise_team_member_logins transport base enterprise team_slug token w0
         = (Return team_members, w) →
       let adds := set_order UsersToAdd (list_to_set team_members) in
       main w0
         = Exact.main_from_plan transport set_order base enterprise cost_center_id token
             team_members [] (after_request r w s') ∧
       Exact.sync_plan team_members [] = mkPlan (list_to_set team_members) ∅ ∅ ∧
       (walks_each_once (set_order UsersToAdd) →
        walks_each_once (set_order UsersToRemove) →
        walks_each_once (set_order UsersAlreadySynced) →
        adds ≡ₚ team_members ∧
        (∃ n, (n ≤ length adds)%nat ∧ (adds ≠ [] → (0 < n)%nat) ∧
              sent (snd (main w0))
                = sent w ++ r :: map (add_request base enterprise cost_center_id token)
                                     (take n adds) ∧
              ((∃ v, fst (main w0) = Return v) → n = length adds)) ∧
        (∀ plan summary,
           fst (main w0) = Return (plan, summary) →
           plan = mkPlan (list_to_set team_members) ∅ ∅ ∧
           map row_login (results summary) = adds ∧
           Forall (fun row => row_action row = "add") (results summary) ∧
           removed_count summary = 0 ∧
           synced_count summary = 0))) ∧
  (status_code resp ≠ 404 → status_code resp ≠ 200 →
     let exit :=
       SystemExit ("Fetch cost center users failed" +:+ nl
                   +:+ "URL: " +:+ req_url r +:+ nl
                   +:+ "HTTP " +:+ Str.of_int (status_code resp) +:+ nl
                   +:+ "Response: " +:+ Str.take 1000 (text resp)) in
     fetch w = (Raise exit, after_request r w s') ∧
     ∀ w0 team_members,
       Exact.fetch_enterprise_team_member_logins transport base enterprise team_slug token w0
         = (Return team_members, w) →
       main w0 = (Raise exit, after_request r w s')).
Proof.
  intros r fetch main Hsend. subst fetch main.
  assert (H404 : status_code resp = 404 →
            Exact.fetch_cost_center_users transport set_order base enterprise
              cost_center_id token w = (Return [], after_request r w s')).
  { intros Hs. unfold Exact.fetch_cost_center_users, mbind, M_bind,
      Exact.requests_get, requests_request.
    fold (cost_center_request base enterprise cost_center_id token). fold r.
    rewrite Hsend, Hs. done. }
  assert (Hother : status_code resp ≠ 404 → status_code resp ≠ 200 →
            Exact.fetch_cost_center_users transport set_order base enterprise
              cost_center_id token w
            = (Raise (SystemExit ("Fetch cost center users failed" +:+ nl
                   +:+ "URL: " +:+ req_url r +:+ nl
                   +:+ "HTTP " +:+ Str.of_int (status_code resp) +:+ nl
                   +:+ "Response: " +:+ Str.take 1000 (text resp))),
               after_request r w s')).
  { intros Hn404 Hn200. unfold Exact.fetch_cost_center_users, mbind, M_bind,
      Exact.requests_get, requests_request.
    fold (cost_center_request base enterprise cost_center_id token). fold r.
    rewrite Hsend.
    destruct (Z.eqb_spec (status_code resp) 404); [done|].
    destruct (Z.eqb_spec (status_code resp) 200); done. }
  split.
  - intros Hs. split; [by apply H404|].
    intros w0 team_members Hteam adds.
    assert (Hmain : Exact.main transport set_order base enterprise team_slug
                      cost_center_id token w0
                    = Exact.main_from_plan transport set_order base enterprise
                        cost_center_id token team_members [] (after_request r w s')).
    { unfold Exact.main, mbind at 1, M_bind at 1. rewrite Hteam.
      unfold mbind at 1, M_bind at 1. by rewrite (H404 Hs). }
    split; [done|]. split; [apply sync_plan_empty_center|].
    intros Hadd Hremove Hsynced.
    rewrite Hmain, (main_from_plan_empty_center _ _ _ _ _ _ _ _ Hremove Hsynced).
    fold adds.
    split; [|split].
    + destruct (team_fetch_dedup transport (fun _ => 0%Q) base enterprise team_slug token
                  w0 w team_members (or_introl Hteam)) as [names ->].
      destruct (Hadd (list_to_set (dedup names))) as [Hnodup Hmem].
      apply NoDup_Permutation; [done|apply dedup_NoDup|].
      intros x. subst adds. by rewrite Hmem, elem_of_list_to_set.
    + destruct (mutation_phase_requests _ _ "add" "adding"
                  (add_user_one_request transport base enterprise cost_center_id token)
                  adds [] 0 0 (after_request r w s'))
        as (n & Hn & Hsent & Hret & Hpos).
      exists n. split; [done|]. split; [done|].
      destruct (Exact.mutation_phase _ "add" "adding" adds [] 0 0 (after_request r w s'))
        as [[[[results added] errors]|e|] w1]; simpl in *.
      * split; [by rewrite Hsent, <- app_assoc|]. intros _. apply Hret. by eexists.
      * split; [by rewrite Hsent, <- app_assoc|]. by intros [v Hv].
      * split; [by rewrite Hsent, <- app_assoc|]. by intros [v Hv].
    + intros plan summary.
      destruct (Exact.mutation_phase _ "add" "adding" adds [] 0 0 (after_request r w s'))
        as [[[[results added] errors]|e|] w1] eqn:Hphase; simpl; [|done|done].
      intros [= <- <-]. simpl.
      apply (f_equal fst) in Hphase. simpl in Hphase.
      apply mutation_phase_rows in Hphase as (rows & -> & Hlogins & Haction & _).
      done.
  - intros Hn404 Hn200. split; [by apply Hother|].
    intros w0 team_members Hteam.
    unfold Exact.main, mbind at 1, M_bind at 1. rewrite Hteam.
    unfold mbind at 1, M_bind at 1. by rewrite (Hother Hn404 Hn200).
Qed.

Lemma cost_center_not_found_witness :
  let server := scripted_server (plain_response 201 EmptyString) in
  let run := Exact.main server elements_walk
               "https://api.github.com" "acme" "devs" "cc-1" "token"
               (initial_world [closing_page "alice"; plain_response 404 "Not Found"]) in
  (∀ plan summary,
     fst run = Return (plan, summary) →
     plan = mkPlan (list_to_set ["alice"]) ∅ ∅ ∧
     map row_login (results summary) = elements (list_to_set ["alice"] : gset string)) ∧
  ∃ plan summary, fst run = Return (plan, summary).
Proof.
  intros server run.
  pose (w0 := initial_world [closing_page "alice"; plain_response 404 "Not Found"]).
  pose (w := snd (Exact.fetch_enterprise_team_member_logins server
                    "https://api.github.com" "acme" "devs" "token" w0)).
  destruct (cost_center_not_found server elements_walk
              "https://api.github.com" "acme" "devs" "cc-1" "token"
              w (plain_response 404 "Not Found") [])
    as [Hfound _]; [reflexivity|].
  destruct (Hfound eq_refl) as [_ Hrun].
  destruct (Hrun w0 ["alice"] eq_refl) as (_ & _ & Hgoes).
  destruct (Hgoes (elements_walk_each_once _) (elements_walk_each_once _)
              (elements_walk_each_once _)) as (_ & _ & Hreport).
  split.
  - intros plan summary Hret.
    destruct (Hreport plan summary Hret) as (Hplan & Hrows & _).
    split; [exact Hplan|exact Hrows].
  - eexists _, _. vm_compute. reflexivity.
Defined.

(** ** The users of the cost center *)

Lemma user_names_omap (resources : list Json) :
  Exact.user_names resources = omap Exact.user_name resources.
Proof.
  unfold Exact.user_names.
  assert (H : ∀ acc,
            fold_left
              (fun acc r => match Exact.user_name r with
                            | Some name => acc ++ [name]
                            | None => acc
                            end) resources acc
            = acc ++ omap Exact.user_name resources); [|apply (H [])].
  induction resources as [|r rs IH]; intros acc; simpl.
  - by rewrite app_nil_r.
  - rewrite IH. destruct (Exact.user_name r); [|done]. by rewrite <- app_assoc.
Qed.

Lemma identities_return (logins : list Json) (names : list string) :
  identities logins = Return names → logins = map JStr names.
Proof.
  revert names. induction logins as [|x l IH]; intros names; simpl.
  - by intros [= <-].
  - destruct x as [| | |s| |]; try done.
    destruct (identities l) as [ns| |]; try done.
    intros [= <-]. simpl. f_equal. by apply IH.
Qed.

Lemma user_name_string (resource : Json) (s : string) :
  Exact.user_name resource = Some (JStr s) ↔
  s ≠ EmptyString ∧
  ∃ fields, resource = JDict fields ∧
            dict_get "type" fields = JStr "User" ∧
            dict_get "name" fields = JStr s.
Proof.
  split.
  - destruct resource as [| | | | |fields]; try done. simpl.
    destruct (dict_get "type" fields) as [| | |t| |] eqn:Htype; try done.
    destruct (String.eqb_spec t "User") as [->|]; [|done]. simpl.
    destruct (truthy (dict_get "name" fields)) eqn:Htruthy; [|done].
    intros [= Hname]. rewrite Hname in Htruthy. split.
    + intros ->. done.
    + by exists fields.
  - intros (Hs & fields & -> & Htype & Hname). simpl. rewrite Htype, Hname. simpl.
    by destruct s.
Qed.

(** When the cost-center request is answered by a 200 and the fetch
    returns, the body was a JSON object whose [resources] could be walked
    through, and the list returned holds, once each, exactly the non-empty
    names of the resources that are objects of type [User]. *)
Theorem cost_center_users_listed {St} (transport : St → Request → Answer * St)
    (set_order : IterSite → gset string → list string)
    (base enterprise cost_center_id token : string)
    (w : World St) (resp : Response) (s' : St) (users : list string) :
  walks_each_once (set_order CostCenterLogins) →
  transport (srv w) (cost_center_request base enterprise cost_center_id token)
    = (Responded resp, s') →
  status_code resp = 200 →
  fst (Exact.fetch_cost_center_users transport set_order base enterprise cost_center_id
         token w) = Return users →
  ∃ fields items,
    json resp = Some (JDict fields) ∧
    Exact.resource_items (dict_get_default "resources" fields (JList [])) = Some items ∧
    NoDup users ∧
    ∀ s, s ∈ users ↔
         s ≠ EmptyString ∧
         ∃ resource, JDict resource ∈ items ∧
                     dict_get "type" resource = JStr "User" ∧
                     dict_get "name" resource = JStr s.
Proof.
  intros Horder Hsend Hstatus.
  unfold Exact.fetch_cost_center_users, mbind at 1, M_bind at 1,
    Exact.requests_get, requests_request.
  fold (cost_center_request base enterprise cost_center_id token).
  rewrite Hsend, Hstatus. simpl.
  destruct (json resp) as [[| | | | |fields]|]; try done.
  destruct (Exact.resource_items _) as [items|] eqn:Hitems; [|done].
  unfold mbind, M_bind, lift.
  destruct (identities _) as [names|e|] eqn:Hnames; try done.
  simpl. intros [= <-]. exists fields, items. split; [done|]. split; [done|].
  apply identities_return in Hnames. rewrite user_names_omap in Hnames.
  unfold Exact.unique_logins.
  destruct (Horder (list_to_set names)) as [Hnodup Hmem]. split; [done|].
  intros s. rewrite Hmem, elem_of_list_to_set.
  assert (Hin : s ∈ names ↔ JStr s ∈ omap Exact.user_name items).
  { rewrite Hnames. rewrite list_elem_of_fmap. split.
    - intros Hs. by exists s.
    - by intros (s0 & [= ->] & Hs). }
  rewrite Hin, list_elem_of_omap. split.
  - intros (resource & Hres & (Hs & rfields & -> & Htype & Hname)%user_name_string).
    split; [done|]. by exists rfields.
  - intros (Hs & rfields & Hres & Htype & Hname).
    exists (JDict rfields). split; [done|]. apply user_name_string.
    split; [done|]. by exists rfields.
Qed.

Lemma cost_center_users_listed_witness :
  ∃ users,
    fst (Exact.fetch_cost_center_users (constant_server bob_alice_center) elements_walk
           "https://api.github.com" "acme" "cc-1" "token" (initial_world tt))
      = Return users ∧
    NoDup users ∧ "alice" ∈ users.
Proof.
  eexists. split; [vm_compute; reflexivity|].
  match goal with |- NoDup ?users ∧ _ =>
    destruct (cost_center_users_listed (constant_server bob_alice_center) elements_walk
                "https://api.github.com" "acme" "cc-1" "token" (initial_world tt)
                bob_alice_center tt users)
      as (fields & items & Hjson & Hitems & Hnodup & Hmem);
      [apply elements_walk_each_once|reflexivity|reflexivity|vm_compute; reflexivity|]
  end.
  split; [exact Hnodup|]. apply Hmem. split; [done|].
  injection Hjson as <-. injection Hitems as <-.
  exists [("type", JStr "User"); ("name", JStr "alice")].
  split; [|split; reflexivity]. apply list_elem_of_further, list_elem_of_here.
Defined.

(** ** Following the next locators *)

Section ExactChain.

Context (default : Response) (token : string).

Local Abbreviation fetch_loop := (Exact.fetch_loop (scripted_server default) token).

(** The loop on a chain of pages that fits under the page guard. *)
Lemma exact_fetch_chain (last : Response) (chain : list Response) :
  ∀ (fuel : nat) (url : string) (page : Z) (logins : list Json)
    (w : World (list Response)),
    Forall linked_page chain →
    readable_page last → next_locator last = None →
    Str.nonempty url = true →
    srv w = chain ++ [last] →
    page + Z.of_nat (length chain) < 200 →
    (length chain < fuel)%nat →
    fetch_loop fuel (Some url) page logins w
    = (Return (logins ++ chain_logins (chain ++ [last])),
       mkWorld [] (sent w ++ map (page_request token) (url :: omap next_locator chain))
         (draws w) (slept w) (pages w ++ progress_lines page (chain ++ [last]))).
Proof.
  induction chain as [|resp rest IH];
    intros fuel url page logins w Hchain Hlast Hnone Hurl Hsrv Hpage Hfuel;
    (destruct fuel as [|fuel]; [simpl in Hfuel; lia|]);
    simpl; rewrite Hurl; simpl;
    unfold mbind at 1, M_bind at 1, Exact.requests_get, requests_request;
    rewrite Hsrv; simpl.
  - destruct Hlast as [-> [payload Hjson]]. simpl. rewrite Hjson.
    unfold mbind, M_bind, print_page. simpl.
    destruct (Z.ltb_spec 200 (page + 1)); [simpl in Hpage; lia|].
    fold (next_locator last). rewrite Hnone.
    assert (Hm : page_members last = extract_memberships payload).
    { unfold page_members. by rewrite Hjson. }
    destruct fuel; simpl; unfold mret, M_ret; rewrite Hm;
      by rewrite append_logins_omap, app_nil_r.
  - apply Forall_cons in Hchain as [[[Hstatus [payload Hjson]] [next Hnext]] Hrest].
    rewrite Hstatus. simpl. rewrite Hjson.
    unfold mbind at 1, M_bind at 1, print_page. simpl.
    destruct (Z.ltb_spec 200 (page + 1)); [simpl in Hpage; lia|].
    fold (next_locator resp). rewrite Hnext.
    rewrite (IH fuel next (page + 1) _ _ Hrest Hlast Hnone);
      [|by apply (parse_next_link_nonempty (headers_get "Link" resp))
       |done|simpl in Hpage; lia|simpl in Hfuel; lia].
    assert (Hm : page_members resp = extract_memberships payload).
    { unfold page_members. by rewrite Hjson. }
    simpl. rewrite Hm, append_logins_omap, <- !app_assoc. done.
Qed.

(** The loop on a chain whose last page is the 200th. *)
Lemma exact_fetch_chain_abort (last : Response) (chain : list Response) :
  ∀ (fuel : nat) (url : string) (page : Z) (logins : list Json)
    (others : list Response) (w : World (list Response)),
    Forall linked_page chain →
    readable_page last →
    Str.nonempty url = true →
    srv w = chain ++ last :: others →
    page + Z.of_nat (length chain) = 200 →
    (length chain < fuel)%nat →
    fetch_loop fuel (Some url) page logins w
    = (Raise (SystemExit "Aborting: too many pages"),
       mkWorld others (sent w ++ map (page_request token) (url :: omap next_locator chain))
         (draws w) (slept w) (pages w ++ progress_lines page (chain ++ [last]))).
Proof.
  induction chain as [|resp rest IH];
    intros fuel url page logins others w Hchain Hlast Hurl Hsrv Hpage Hfuel;
    (destruct fuel as [|fuel]; [simpl in Hfuel; lia|]);
    simpl; rewrite Hurl; simpl;
    unfold mbind at 1, M_bind at 1, Exact.requests_get, requests_request;
    rewrite Hsrv; simpl.
  - destruct Hlast as [-> [payload Hjson]]. simpl. rewrite Hjson.
    unfold mbind, M_bind, print_page. simpl.
    destruct (Z.ltb_spec 200 (page + 1)); [|simpl in Hpage; lia].
    assert (Hm : page_members last = extract_memberships payload).
    { unfold page_members. by rewrite Hjson. }
    by rewrite Hm.
  - apply Forall_cons in Hchain as [[[Hstatus [payload Hjson]] [next Hnext]] Hrest].
    rewrite Hstatus. simpl. rewrite Hjson.
    unfold mbind at 1, M_bind at 1, print_page. simpl.
    destruct (Z.ltb_spec 200 (page + 1)); [simpl in Hpage; lia|].
    fold (next_locator resp). rewrite Hnext.
    rewrite (IH fuel next (page + 1) _ others _ Hrest Hlast);
      [|by apply (parse_next_link_nonempty (headers_get "Link" resp))
       |done|simpl in Hpage; lia|simpl in Hfuel; lia].
    assert (Hm : page_members resp = extract_memberships payload).
    { unfold page_members. by rewrite Hjson. }
    simpl. rewrite Hm, <- !app_assoc. done.
Qed.

End ExactChain.

(** Against a server that plays a chain of at most 199 pages, each but the
    last one naming a next page, the fetch of
    [sync_team_cost_center_exact.py] asks for the first page at the
    memberships address and for every other page at the locator that the
    page before it gave, prints one progress line for each page, and
    returns the logins of all the pages, in page order, de-duplicated. *)
Theorem team_fetch_follows_links (default last : Response) (chain : list Response)
    (base enterprise team_slug token : string) (names : list string)
    (w : World (list Response)) :
  let url := base +:+ "/enterprises/" +:+ enterprise
               +:+ "/teams/" +:+ team_slug +:+ "/memberships" in
  Forall linked_page chain →
  readable_page last → next_locator last = None →
  (length chain < 199)%nat →
  srv w = chain ++ [last] →
  chain_logins (chain ++ [last]) = map JStr names →
  Exact.fetch_enterprise_team_member_logins (scripted_server default)
    base enterprise team_slug token w
  = (Return (dedup names),
     mkWorld [] (sent w ++ map (page_request token) (url :: omap next_locator chain))
       (draws w) (slept w) (pages w ++ progress_lines 1 (chain ++ [last]))).
Proof.
  intros url Hchain Hlast Hnone Hlen Hsrv Hnames.
  unfold Exact.fetch_enterprise_team_member_logins. fold url.
  unfold mbind at 1, M_bind at 1.
  rewrite (exact_fetch_chain default token last chain 200 url 1 [] w);
    [|done|done|done|apply memberships_url_nonempty|done|lia|lia].
  simpl. rewrite Hnames.
  assert (Hid : identities (map JStr names) = Return names).
  { clear. induction names as [|n ns IH]; [done|]. simpl. by rewrite IH. }
  unfold mbind, M_bind, lift. by rewrite Hid.
Qed.

Lemma team_fetch_follows_links_witness :
  Exact.fetch_enterprise_team_member_logins (scripted_server looping_page)
    "https://api.github.com" "acme" "devs" "token"
    (initial_world [opening_page "bob"; closing_page "alice"])
  = (Return ["bob"; "alice"],
     mkWorld []
       [page_request "token" "https://api.github.com/enterprises/acme/teams/devs/memberships";
        page_request "token" "https://x/y?page=2"]
       0 [] [(1, 1); (2, 1)]).
Proof.
  apply (team_fetch_follows_links looping_page (closing_page "alice") [opening_page "bob"]
           "https://api.github.com" "acme" "devs" "token" ["bob"; "alice"]
           (initial_world [opening_page "bob"; closing_page "alice"])).
  - repeat constructor; vm_compute; eauto.
  - split; vm_compute; eauto.
  - vm_compute. reflexivity.
  - simpl. lia.
  - reflexivity.
  - vm_compute. reflexivity.
Defined.

(** The page guard counts the page just read: when the server plays 199
    linked pages and then a 200th readable page, the fetch of
    [sync_team_cost_center_exact.py] reads the 200th page and then aborts
    with the too-many-pages exit, whether or not that page names a next
    one; so a membership list of exactly 200 pages cannot be fetched. *)
Theorem team_fetch_two_hundred_pages (default last : Response) (chain : list Response)
    (base enterprise team_slug token : string) (w : World (list Response)) :
  let url := base +:+ "/enterprises/" +:+ enterprise
               +:+ "/teams/" +:+ team_slug +:+ "/memberships" in
  Forall linked_page chain →
  readable_page last →
  length chain = 199%nat →
  srv w = chain ++ [last] →
  Exact.fetch_enterprise_team_member_logins (scripted_server default)
    base enterprise team_slug token w
  = (Raise (SystemExit "Aborting: too many pages"),
     mkWorld [] (sent w ++ map (page_request token) (url :: omap next_locator chain))
       (draws w) (slept w) (pages w ++ progress_lines 1 (chain ++ [last]))).
Proof.
  intros url Hchain Hlast Hlen Hsrv.
  unfold Exact.fetch_enterprise_team_member_logins. fold url.
  unfold mbind at 1, M_bind at 1.
  by rewrite (exact_fetch_chain_abort default token last chain 200 url 1 [] [] w);
    [|done|done|apply memberships_url_nonempty|done|lia|lia].
Qed.

Lemma team_fetch_two_hundred_pages_witness :
  fst (Exact.fetch_enterprise_team_member_logins (scripted_server looping_page)
         "https://api.github.com" "acme" "devs" "token"
         (initial_world (replicate 199 (opening_page "bob") ++ [closing_page "alice"])))
  = Raise (SystemExit "Aborting: too many pages").
Proof.
  rewrite (team_fetch_two_hundred_pages looping_page (closing_page "alice")
             (replicate 199 (opening_page "bob"))
             "https://api.github.com" "acme" "devs" "token"
             (initial_world (replicate 199 (opening_page "bob") ++ [closing_page "alice"]))).
  - reflexivity.
  - apply Forall_replicate. repeat split; vm_compute; eauto.
  - split; vm_compute; eauto.
  - apply length_replicate.
  - reflexivity.
Defined.

(** ** The report of [sync_team_to_cost_center.py] *)

Lemma count_result_app (result : string) (a b : list ResultRow) :
  count_result result (a ++ b) = count_result result a + count_result result b.
Proof. unfold count_result. rewrite filter_app, length_app. lia. Qed.

Lemma count_result_one (result : string) (row : ResultRow) :
  count_result result [row] = if decide (rr_result row = result) then 1 else 0.
Proof.
  unfold count_result. rewrite filter_cons. by case_decide.
Qed.

Lemma count_result_added_skipped (rows : list ResultRow) :
  Forall (fun row => rr_result row ∈ ["added"; "skipped"]) rows →
  count_result "added" rows + count_result "skipped" rows = Z.of_nat (length rows).
Proof.
  unfold count_result. induction 1 as [|row rows Hrow _ IH]; [done|].
  rewrite !filter_cons. simpl.
  apply elem_of_cons in Hrow as [->|Hrow%list_elem_of_singleton].
  - repeat case_decide; simplify_eq; simpl; lia.
  - rewrite Hrow. repeat case_decide; simplify_eq; simpl; lia.
Qed.

Section PerUserPhase.

Context {St : Type}.
Variable transport : St → Request → Answer * St.
Variable base enterprise cost_center_id token : string.

Local Abbreviation add_phase :=
  (PerUser.add_phase transport base enterprise cost_center_id token).
Local Abbreviation post := (per_user_request base enterprise cost_center_id token).

Lemma per_user_add_sends (login : string) (w : World St) :
  sent (snd (PerUser.add_user_to_cost_center transport base enterprise cost_center_id
               token login w))
  = sent w ++ [post login].
Proof. apply request_then_classify. Qed.

(** The rows, the counts and the requests of a loop that ends. *)
Lemma add_phase_rows (members : list string) :
  ∀ (results : list ResultRow) (added skipped : Z) (w : World St)
    (results' : list ResultRow) (added' skipped' : Z) (w' : World St),
    add_phase members results added skipped w = (Return (results', added', skipped'), w') →
    ∃ rows,
      results' = results ++ rows ∧
      map rr_login rows = members ∧
      Forall (fun row => rr_result row ∈ ["added"; "skipped"]) rows ∧
      added' = added + count_result "added" rows ∧
      skipped' = skipped + count_result "skipped" rows ∧
      sent w' = sent w ++ map post members.
Proof.
  induction members as [|login rest IH];
    intros results added skipped w results' added' skipped' w'.
  - simpl. intros [= <- <- <- <-]. exists []. rewrite !app_nil_r.
    unfold count_result. simpl. repeat split; (done || constructor || lia).
  - simpl. unfold mbind at 1, M_bind at 1.
    pose proof (per_user_add_sends login w) as Hsent.
    destruct (PerUser.add_user_to_cost_center _ _ _ _ _ _ _)
      as [[[ok msg]|e|] w1]; [|done|done].
    simpl in Hsent. simpl.
    intros (rows & -> & Hlogins & Hresult & -> & -> & ->)%IH.
    eexists (_ :: rows). rewrite <- app_assoc. split; [done|]. simpl.
    split; [by rewrite Hlogins|]. split; [constructor; [destruct ok; set_solver|done]|].
    rewrite Hsent, <- app_assoc. simpl.
    change (?x :: rows) with ([x] ++ rows). rewrite !count_result_app.
    rewrite !count_result_one. simpl.
    destruct ok; repeat case_decide; simplify_eq; simpl; repeat split; lia.
Qed.

(** The requests of any loop: one for each member, in order, up to the
    first one whose call raises. *)
Lemma add_phase_requests (members : list string) :
  ∀ (results : list ResultRow) (added skipped : Z) (w : World St),
    ∃ k, (k ≤ length members)%nat ∧
         sent (snd (add_phase members results added skipped w))
           = sent w ++ map post (take k members) ∧
         (∀ e, fst (add_phase members results added skipped w) = Raise e →
               ∃ login w0,
                 members !! (k - 1)%nat = Some login ∧ (0 < k)%nat ∧
                 fst (PerUser.add_user_to_cost_center transport base enterprise
                        cost_center_id token login w0) = Raise e) ∧
         fst (add_phase members results added skipped w) ≠ OutOfFuel.
Proof.
  induction members as [|login rest IH]; intros results added skipped w.
  - exists 0%nat. simpl. rewrite app_nil_r. repeat split; (done || lia).
  - simpl. unfold mbind at 1 2 3, M_bind at 1 2 3.
    pose proof (per_user_add_sends login w) as Hsent.
    destruct (PerUser.add_user_to_cost_center _ _ _ _ _ _ _)
      as [[[ok msg]|e|] w1] eqn:Hadd.
    + simpl in Hsent. simpl.
      destruct (IH (results ++ [mkResultRow login (if ok then "added" else "skipped") msg])
                  (if ok then added + 1 else added)
                  (if ok then skipped else skipped + 1) w1)
        as (k & Hk & Hreq & Hraise & Hfuel).
      exists (S k). split; [simpl; lia|]. split; [|split; [|done]].
      * rewrite Hreq, Hsent, <- app_assoc. done.
      * intros e He. destruct (Hraise e He) as (l & w0 & Hl & Hpos & Hl').
        exists l, w0. split; [|split; [lia|done]].
        destruct k; [lia|]. simpl in *. by rewrite Nat.sub_0_r in Hl.
    + simpl in Hsent. exists 1%nat. simpl. split; [lia|]. rewrite ?take_0.
      split; [done|]. split; [|done].
      intros e' [= <-]. exists login, w. split; [done|]. split; [lia|].
      by rewrite Hadd.
    + exfalso. revert Hadd.
      unfold PerUser.add_user_to_cost_center, mbind, M_bind, requests_request, lift.
      destruct (transport _ _) as [[resp|m] s1]; [|done].
      unfold PerUser.add_outcome.
      destruct (status_in _ [200; 201; 202; 204]); [done|].
      destruct (status_in _ [409; 422]); [|done].
      by destruct (_ || _).
Qed.

End PerUserPhase.

(** A run of [main] of [sync_team_to_cost_center.py] that ends has asked
    for one addition for each team member, in the order of the fetch, and
    has written one row for each, [added] or [skipped]; the two counts of
    the summary are the numbers of these rows and add up to the number of
    members. *)
Theorem per_user_main_report {St} (transport : St → Request → Answer * St)
    (base enterprise team_slug cost_center_id token : string)
    (w w1 w' : World St) (members : list string)
    (results : list ResultRow) (added skipped : Z) :
  PerUser.fetch_enterprise_team_member_logins transport base enterprise team_slug token w
    = (Return members, w1) →
  PerUser.main transport base enterprise team_slug cost_center_id token w
    = (Return (results, added, skipped), w') →
  map rr_login results = members ∧
  NoDup (map rr_login results) ∧
  Forall (fun row => rr_result row ∈ ["added"; "skipped"]) results ∧
  added = count_result "added" results ∧
  skipped = count_result "skipped" results ∧
  added + skipped = Z.of_nat (length members) ∧
  sent w' = sent w1 ++ map (per_user_request base enterprise cost_center_id token) members.
Proof.
  intros Hfetch. unfold PerUser.main, mbind at 1, M_bind at 1. rewrite Hfetch.
  intros (rows & -> & Hlogins & Hresult & -> & -> & Hsent)%add_phase_rows.
  simpl. split; [done|]. split; [|split; [done|split; [done|split; [done|split; [|done]]]]].
  - rewrite Hlogins. revert Hfetch.
    unfold PerUser.fetch_enterprise_team_member_logins, mbind, M_bind, lift, mret, M_ret.
    destruct (PerUser.fetch_loop _ _ _ _ _ _ _) as [[logins|e|] w2]; try done.
    destruct (identities logins) as [names|e|]; try done.
    intros [= <- _]. apply dedup_NoDup.
  - pose proof (count_result_added_skipped rows Hresult).
    rewrite <- Hlogins, length_map. lia.
Qed.

Lemma per_user_main_report_witness :
  ∃ results added skipped w',
    PerUser.main (scripted_server (plain_response 201 EmptyString))
      "https://api.github.com" "acme" "devs" "cc-1" "token"
      (initial_world [opening_page "bob"; closing_page "alice";
                      plain_response 409 "Conflict"])
    = (Return (results, added, skipped), w') ∧
    map rr_login results = ["bob"; "alice"] ∧ added + skipped = 2.
Proof.
  pose (server := scripted_server (plain_response 201 EmptyString)).
  pose (w := initial_world [opening_page "bob"; closing_page "alice";
                            plain_response 409 "Conflict"]).
  pose (w1 := snd (PerUser.fetch_enterprise_team_member_logins server
                     "https://api.github.com" "acme" "devs" "token" w)).
  pose (w' := snd (PerUser.main server
                     "https://api.github.com" "acme" "devs" "cc-1" "token" w)).
  pose (results :=
          [mkResultRow "bob" "skipped" "Skip bob: already in cost center (HTTP 409)";
           mkResultRow "alice" "added" "Added alice (HTTP 201)"]).
  exists results, 1, 1, w'.
  destruct (per_user_main_report server
              "https://api.github.com" "acme" "devs" "cc-1" "token"
              w w1 w' ["bob"; "alice"] results 1 1)
    as (Hrows & _ & _ & _ & _ & Hsum & _);
    [vm_compute; reflexivity|vm_compute; reflexivity|].
  split; [vm_compute; reflexivity|]. split; [exact Hrows|exact Hsum].
Defined.

(** [main] of [sync_team_to_cost_center.py] stops at the first addition
    that fails: whatever the server does, the additions asked for are those
    of the first [k] members, in order; [k] is the number of members when
    the run ends, and when the run raises, the exception is the one of the
    addition of the [k]-th member. *)
Theorem per_user_main_fail_fast {St} (transport : St → Request → Answer * St)
    (base enterprise team_slug cost_center_id token : string)
    (w w1 : World St) (members : list string) :
  let run := PerUser.main transport base enterprise team_slug cost_center_id token w in
  PerUser.fetch_enterprise_team_member_logins transport base enterprise team_slug token w
    = (Return members, w1) →
  ∃ k, (k ≤ length members)%nat ∧
       sent (snd run)
         = sent w1 ++ map (per_user_request base enterprise cost_center_id token)
                          (take k members) ∧
       (∀ report, fst run = Return report → k = length members) ∧
       (∀ e, fst run = Raise e →
             ∃ login w0,
               members !! (k - 1)%nat = Some login ∧ (0 < k)%nat ∧
               fst (PerUser.add_user_to_cost_center transport base enterprise
                      cost_center_id token login w0) = Raise e) ∧
       fst run ≠ OutOfFuel.
Proof.
  intros run Hfetch. subst run.
  unfold PerUser.main, mbind at 1 2 3 4, M_bind at 1 2 3 4. rewrite Hfetch.
  destruct (add_phase_requests transport base enterprise cost_center_id token
              members [] 0 0 w1) as (k & Hk & Hreq & Hraise & Hfuel).
  exists k. split; [done|]. split; [done|]. split; [|split; [done|done]].
  intros [[results added] skipped] Hret.
  destruct (PerUser.add_phase _ _ _ _ _ _ _ _ _ _) as [res w'] eqn:Hphase.
  simpl in Hret. subst res.
  apply add_phase_rows in Hphase as (rows & _ & _ & _ & _ & _ & Hsent).
  simpl in Hreq. rewrite Hsent in Hreq. apply app_inv_head in Hreq.
  apply (f_equal length) in Hreq. rewrite !length_map, length_take in Hreq. lia.
Qed.

Lemma per_user_main_fail_fast_witness :
  ∃ k, (k ≤ 2)%nat ∧
       sent (snd (PerUser.main (scripted_server (plain_response 500 "Server Error"))
                    "https://api.github.com" "acme" "devs" "cc-1" "token"
                    (initial_world [opening_page "bob"; closing_page "alice"])))
       = [page_request "token" "https://api.github.com/enterprises/acme/teams/devs/memberships";
          page_request "token" "https://x/y?page=2"]
         ++ map (per_user_request "https://api.github.com" "acme" "cc-1" "token")
                (take k ["bob"; "alice"]).
Proof.
  destruct (per_user_main_fail_fast (scripted_server (plain_response 500 "Server Error"))
              "https://api.github.com" "acme" "devs" "cc-1" "token"
              (initial_world [opening_page "bob"; closing_page "alice"])
              (mkWorld []
                 [page_request "token"
                    "https://api.github.com/enterprises/acme/teams/devs/memberships";
                  page_request "token" "https://x/y?page=2"]
                 0 [] [(1, 1); (2, 1)])
              ["bob"; "alice"]) as (k & Hk & Hsent & _).
  - vm_compute. reflexivity.
  - exists k. split; [exact Hk|exact Hsent].
Defined.

(** ** The report of [test.py] *)

Lemma count_result_batch (result status msg : string) (batch : list string) :
  count_result result (map (fun login => mkResultRow login status msg) batch)
  = if decide (status = result) then Z.of_nat (length batch) else 0.
Proof.
  unfold count_result. induction batch as [|b bs IH]; simpl; [by case_decide|].
  rewrite filter_cons. simpl. repeat case_decide; simpl in *; (done || lia).
Qed.

Section BulkPhase.

Context {St : Type}.
Variable transport : St → Request → Answer * St.
Variable random_unit : nat → Q.
Variable base enterprise cost_center_id token : string.
Variable max_retries : Z.
Variable inter_batch_min inter_batch_max : Q.

Local Abbreviation add_bulk :=
  (Bulk.add_users_to_cost_center_bulk transport random_unit
     base enterprise cost_center_id token).
Local Abbreviation batch_phase :=
  (Bulk.batch_phase transport random_unit base enterprise cost_center_id token
     max_retries inter_batch_min inter_batch_max).
Local Abbreviation post := (bulk_request base enterprise cost_center_id token).

(** A call of the executor that returns has sent a request. *)
Lemma backoff_loop_sends (r : Request) (mb : Z) (todo : nat) (attempt : Z)
    (w : World St) (resp : Response) :
  fst (Bulk.backoff_loop transport random_unit r mb todo attempt None w) = Return resp →
  (length (sent w) < length (sent (snd (Bulk.backoff_loop transport random_unit r mb
                                           todo attempt None w))))%nat.
Proof.
  destruct todo as [|todo]; [done|]. simpl.
  unfold mbind, M_bind, requests_request.
  destruct (transport (srv w) r) as [[resp'|m] s']; simpl; [|done].
  destruct (negb (status_in (status_code resp') [403; 429])); simpl.
  { intros _. rewrite length_app. simpl. lia. }
  match goal with |- context [Bulk.backoff_delay _ _ _ _ ?w1] =>
    pose proof (backoff_delay_quiet random_unit mb resp' attempt w1)
      as (_ & Hs & _ & _ & _);
    destruct (Bulk.backoff_delay random_unit resp' attempt mb w1) as [[d|e|] w2]
  end; simpl in *; [|done|done].
  destruct ((status_code resp' =? 429) || Bulk.is_secondary_rate_limit resp'); simpl.
  - pose proof (time_sleep_outcome d w2) as (_ & _ & Hts & _).
    destruct (time_sleep d w2) as [[[]|e|] w3]; simpl in *; [|done|done].
    pose proof (backoff_loop_counts transport random_unit r mb todo (attempt + 1)
                  (Some resp') w3) as (_ & (n & _ & Hsent & _) & _).
    destruct (Bulk.backoff_loop transport random_unit r mb todo (attempt + 1)
                (Some resp') w3) as [res w4].
    simpl in *. intros _. rewrite Hsent, Hts, Hs, !length_app. simpl. lia.
  - intros _. rewrite Hs, length_app. simpl. lia.
Qed.

(** One bulk addition: the batch is sent at most [max_retries] times, and
    at least once when the call returns. *)
Lemma add_bulk_counts (logins : list string) (w : World St) :
  let run := add_bulk logins max_retries w in
  fst run ≠ OutOfFuel ∧
  ∃ n : nat,
    Z.of_nat n ≤ Z.max 0 max_retries ∧
    sent (snd run) = sent w ++ replicate n (post logins) ∧
    (∀ outcome, fst run = Return outcome → (1 ≤ n)%nat).
Proof.
  unfold Bulk.add_users_to_cost_center_bulk, Bulk.request_with_backoff.
  fold (post logins). unfold mbind, M_bind, lift.
  pose proof (backoff_loop_counts transport random_unit (post logins) 60
                (Z.to_nat max_retries) 0 None w) as (Hfuel & (n & Hn & Hsent & _) & _).
  pose proof (backoff_loop_sends (post logins) 60 (Z.to_nat max_retries) 0 w) as Hsends.
  destruct (Bulk.backoff_loop transport random_unit (post logins) 60
              (Z.to_nat max_retries) 0 None w) as [[resp|e|] w1];
    simpl in *; [| |done].
  - split.
    + unfold Bulk.add_outcome.
      destruct (status_in _ [200; 201; 202; 204]); [done|].
      destruct (status_in _ [409; 422]); [|done].
      by destruct (_ || _).
    + exists n. split; [lia|]. split; [done|]. intros _ _.
      specialize (Hsends resp eq_refl). rewrite Hsent, length_app, length_replicate in Hsends.
      lia.
  - split; [done|]. exists n. split; [lia|]. split; [done|]. done.
Qed.

(** The rows, the counts and the requests of a loop that ends. *)
Lemma batch_phase_rows (batches : list (list string)) :
  ∀ (results : list ResultRow) (added skipped : Z) (w : World St)
    (results' : list ResultRow) (added' skipped' : Z) (w' : World St),
    batch_phase batches results added skipped w
      = (Return (results', added', skipped'), w') →
    ∃ rows counts,
      results' = results ++ rows ∧
      map rr_login rows = concat batches ∧
      Forall (fun row => rr_result row ∈ ["added"; "skipped"]) rows ∧
      added' = added + count_result "added" rows ∧
      skipped' = skipped + count_result "skipped" rows ∧
      length counts = length batches ∧
      Forall (fun n => (1 ≤ n)%nat ∧ Z.of_nat n ≤ Z.max 0 max_retries) counts ∧
      sent w' = sent w ++ batch_requests base enterprise cost_center_id token batches counts.
Proof.
  induction batches as [|batch rest IH];
    intros results added skipped w results' added' skipped' w'.
  - simpl. intros [= <- <- <- <-]. exists [], []. rewrite !app_nil_r.
    unfold count_result. simpl. repeat split; (done || constructor || lia).
  - simpl. unfold mbind at 1, M_bind at 1.
    pose proof (add_bulk_counts batch w) as (_ & n & Hn & Hsent & Hone).
    destruct (Bulk.add_users_to_cost_center_bulk _ _ _ _ _ _ _ _ _)
      as [[[ok msg]|e|] w1]; [|done|done].
    simpl in Hsent, Hone. specialize (Hone _ eq_refl). simpl.
    unfold mbind at 1, M_bind at 1, random_uniform. simpl.
    unfold mbind at 1, M_bind at 1.
    match goal with |- context [time_sleep ?d ?w2] =>
      pose proof (time_sleep_outcome d w2) as (_ & _ & Hts & _);
      destruct (time_sleep d w2) as [[[]|e|] w3]
    end; simpl in Hts; [|done|done].
    intros (rows & counts & -> & Hlogins & Hresult & -> & -> & Hlen & Hcounts & ->)%IH.
    simpl.
    eexists (_ ++ rows), (n :: counts). rewrite <- app_assoc. split; [done|].
    rewrite map_app, map_map. simpl. rewrite map_id.
    split; [by rewrite Hlogins|]. split.
    { apply Forall_app. split; [|done]. apply Forall_map, Forall_true.
      intros login. simpl. destruct ok; set_solver. }
    rewrite !count_result_app.
    rewrite !count_result_batch. unfold batch_requests. simpl.
    rewrite Hts, Hsent, <- app_assoc.
    split; [destruct ok; repeat case_decide; simplify_eq; lia|].
    split; [destruct ok; repeat case_decide; simplify_eq; lia|].
    split; [by rewrite Hlen|]. split; [constructor; [lia|done]|done].
Qed.

End BulkPhase.

(** A run of [main] of [test.py] with a positive chunk size that ends has
    written one row for each team member, in the order of the fetch,
    [added] or [skipped]; the two counts of the summary are the numbers of
    these rows and add up to the number of members; and the requests after
    the fetch are the batches of [chunked] in order, each one sent at least
    once and at most [max_retries] times. *)
Theorem bulk_main_report {St} (transport : St → Request → Answer * St)
    (random_unit : nat → Q)
    (base enterprise team_slug cost_center_id token : string)
    (chunk_size : Z) (inter_batch_min inter_batch_max : Q) (max_retries : Z)
    (w w1 w' : World St) (members : list string)
    (results : list ResultRow) (added skipped : Z) :
  Bulk.fetch_enterprise_team_member_logins transport random_unit
    base enterprise team_slug token w = (Return members, w1) →
  0 < chunk_size →
  Bulk.main transport random_unit base enterprise team_slug cost_center_id token
    chunk_size inter_batch_min inter_batch_max max_retries w
    = (Return (results, added, skipped), w') →
  map rr_login results = members ∧
  NoDup (map rr_login results) ∧
  Forall (fun row => rr_result row ∈ ["added"; "skipped"]) results ∧
  added = count_result "added" results ∧
  skipped = count_result "skipped" results ∧
  added + skipped = Z.of_nat (length members) ∧
  ∃ batches counts,
    Bulk.chunked members chunk_size = Return batches ∧
    length counts = length batches ∧
    Forall (fun n => (1 ≤ n)%nat ∧ Z.of_nat n ≤ Z.max 0 max_retries) counts ∧
    sent w' = sent w1 ++ batch_requests base enterprise cost_center_id token batches counts.
Proof.
  intros Hfetch Hsize. unfold Bulk.main, mbind at 1, M_bind at 1. rewrite Hfetch.
  unfold mbind at 1, M_bind at 1, lift.
  destruct (Bulk.chunked members chunk_size) as [batches|e|] eqn:Hchunks; [|done|done].
  destruct (chunked_layout members chunk_size batches Hsize Hchunks) as (Hcat & _ & _).
  intros (rows & counts & -> & Hlogins & Hresult & -> & -> & Hlen & Hcounts & Hsent)
    %batch_phase_rows.
  simpl. rewrite Hcat in Hlogins.
  split; [done|]. split; [|split; [done|split; [done|split; [done|split]]]].
  - rewrite Hlogins.
    destruct (team_fetch_dedup transport random_unit base enterprise team_slug token
                w w1 members (or_intror Hfetch)) as [names ->].
    apply dedup_NoDup.
  - pose proof (count_result_added_skipped rows Hresult).
    rewrite <- Hlogins, length_map. lia.
  - by exists batches, counts.
Qed.

(** A chunk size that is not positive: with zero, [main] of [test.py] ends
    with the ValueError of [range] once the team is fetched; with a negative
    size it ends normally with an empty report and both counts at zero, and
    sends no request after the fetch, whatever the team holds. *)
Theorem bulk_main_chunk_size {St} (transport : St → Request → Answer * St)
    (random_unit : nat → Q)
    (base enterprise team_slug cost_center_id token : string)
    (chunk_size : Z) (inter_batch_min inter_batch_max : Q) (max_retries : Z)
    (w w1 : World St) (members : list string) :
  let run := Bulk.main transport random_unit base enterprise team_slug cost_center_id
               token chunk_size inter_batch_min inter_batch_max max_retries w in
  Bulk.fetch_enterprise_team_member_logins transport random_unit
    base enterprise team_slug token w = (Return members, w1) →
  (chunk_size = 0 → run = (Raise ValueError, w1)) ∧
  (chunk_size < 0 → run = (Return ([], 0, 0), w1)).
Proof.
  intros run Hfetch. subst run.
  split; unfold Bulk.main, mbind at 1, M_bind at 1; rewrite Hfetch;
    unfold mbind, M_bind, lift.
  - intros ->. reflexivity.
  - intros Hneg.
    assert (Hchunks : Bulk.chunked members chunk_size = Return []).
    { unfold Bulk.chunked, py_range.
      destruct (Z.eqb_spec chunk_size 0); [lia|].
      rewrite Z.sub_0_r.
      destruct (Z.to_nat (Z.abs (Z.of_nat (length members)))) as [|fuel]; [done|]. simpl.
      destruct (Z.ltb_spec 0 chunk_size); [lia|].
      destruct (Z.ltb_spec (Z.of_nat (length members)) 0); [lia|done]. }
    by rewrite Hchunks.
Qed.

Lemma bulk_main_report_witness :
  ∃ results added skipped w',
    Bulk.main (scripted_server (plain_response 201 EmptyString)) half
      "https://api.github.com" "acme" "devs" "cc-1" "token" 25 (1 # 2) (3 # 2) 8
      (initial_world [opening_page "bob"; closing_page "alice"])
    = (Return (results, added, skipped), w') ∧
    map rr_login results = ["bob"; "alice"] ∧ added + skipped = 2.
Proof.
  pose (server := scripted_server (plain_response 201 EmptyString)).
  pose (w := initial_world [opening_page "bob"; closing_page "alice"]).
  pose (w1 := snd (Bulk.fetch_enterprise_team_member_logins server half
                     "https://api.github.com" "acme" "devs" "token" w)).
  pose (w' := snd (Bulk.main server half
                     "https://api.github.com" "acme" "devs" "cc-1" "token"
                     25 (1 # 2) (3 # 2) 8 w)).
  pose (results :=
          [mkResultRow "bob" "added" "Added batch size=2 (HTTP 201)";
           mkResultRow "alice" "added" "Added batch size=2 (HTTP 201)"]).
  exists results, 2, 0, w'.
  destruct (bulk_main_report server half
              "https://api.github.com" "acme" "devs" "cc-1" "token"
              25 (1 # 2) (3 # 2) 8 w w1 w' ["bob"; "alice"] results 2 0)
    as (Hrows & _ & _ & _ & _ & Hsum & _);
    [vm_compute; reflexivity|lia|vm_compute; reflexivity|].
  split; [vm_compute; reflexivity|]. split; [exact Hrows|exact Hsum].
Defined.

Lemma bulk_main_chunk_size_witness :
  fst (Bulk.main (scripted_server (plain_response 201 EmptyString)) half
         "https://api.github.com" "acme" "devs" "cc-1" "token" (-1) (1 # 2) (3 # 2) 8
         (initial_world [opening_page "bob"; closing_page "alice"]))
  = Return ([], 0, 0).
Proof.
  pose (server := scripted_server (plain_response 201 EmptyString)).
  pose (w := initial_world [opening_page "bob"; closing_page "alice"]).
  pose (w1 := snd (Bulk.fetch_enterprise_team_member_logins server half
                     "https://api.github.com" "acme" "devs" "token" w)).
  destruct (bulk_main_chunk_size server half
              "https://api.github.com" "acme" "devs" "cc-1" "token"
              (-1) (1 # 2) (3 # 2) 8 w w1 ["bob"; "alice"]) as [_ Hneg];
    [vm_compute; reflexivity|].
  fold server w. rewrite (Hneg ltac:(lia)). reflexivity.
Defined.

(** ** Following the next locators, with pacing *)

Section BulkChain.

Context (default : Response) (random_unit : nat → Q) (token : string).

Local Abbreviation fetch_loop :=
  (Bulk.fetch_loop (scripted_server default) random_unit token).

Lemma bulk_fetch_chain (last : Response) (chain : list Response) :
  ∀ (fuel : nat) (url : string) (page : Z) (logins : list Json)
    (w : World (list Response)),
    Forall linked_page chain →
    readable_page last → next_locator last = None →
    Str.nonempty url = true →
    srv w = chain ++ [last] →
    page + Z.of_nat (length chain) < 200 →
    (length chain < fuel)%nat →
    fetch_loop fuel (Some url) page logins w
    = (Return (logins ++ chain_logins (chain ++ [last])),
       mkWorld [] (sent w ++ map (page_request token) (url :: omap next_locator chain))
         (draws w + S (length chain))
         (slept w ++ pauses random_unit (1 # 10) (3 # 10) (draws w) (S (length chain)))
         (pages w ++ progress_lines page (chain ++ [last]))).
Proof.
  induction chain as [|resp rest IH];
    intros fuel url page logins w Hchain Hlast Hnone Hurl Hsrv Hpage Hfuel;
    (destruct fuel as [|fuel]; [simpl in Hfuel; lia|]);
    simpl; rewrite Hurl; simpl;
    unfold mbind at 1, M_bind at 1, Bulk.request_with_backoff;
    change (Z.to_nat 8) with 8%nat.
  - pose proof Hlast as [Hstatus [payload Hjson]].
    rewrite (backoff_loop_other (scripted_server default) random_unit _ 60 7 0 None w
               last []); [|by rewrite Hsrv|rewrite Hstatus; set_solver].
    rewrite Hstatus. simpl. rewrite Hjson.
    unfold mbind at 1, M_bind at 1, print_page. simpl.
    destruct (Z.ltb_spec 200 (page + 1)); [simpl in Hpage; lia|].
    fold (next_locator last). rewrite Hnone.
    assert (Hm : page_members last = extract_memberships payload).
    { unfold page_members. by rewrite Hjson. }
    unfold mbind, M_bind, random_uniform. simpl.
    rewrite time_sleep_sleepable by (apply pause_sleepable; done).
    destruct fuel; simpl; unfold mret, M_ret; rewrite Hm, append_logins_omap, app_nil_r;
      unfold pauses; simpl; by rewrite Nat.add_1_r.
  - apply Forall_cons in Hchain as [[[Hstatus [payload Hjson]] [next Hnext]] Hrest].
    rewrite (backoff_loop_other (scripted_server default) random_unit _ 60 7 0 None w
               resp (rest ++ [last])); [|by rewrite Hsrv|rewrite Hstatus; set_solver].
    rewrite Hstatus. simpl. rewrite Hjson.
    unfold mbind at 1, M_bind at 1, print_page. simpl.
    destruct (Z.ltb_spec 200 (page + 1)); [simpl in Hpage; lia|].
    fold (next_locator resp). rewrite Hnext.
    unfold mbind at 1, M_bind at 1, random_uniform. simpl.
    unfold mbind at 1, M_bind at 1.
    rewrite time_sleep_sleepable by (apply pause_sleepable; done).
    rewrite (IH fuel next (page + 1) _ _ Hrest Hlast Hnone);
      [|by apply (parse_next_link_nonempty (headers_get "Link" resp))
       |done|simpl in Hpage; lia|simpl in Hfuel; lia].
    assert (Hm : page_members resp = extract_memberships payload).
    { unfold page_members. by rewrite Hjson. }
    simpl. rewrite Hm, append_logins_omap, <- !app_assoc. unfold pauses. simpl.
    f_equal. f_equal. lia.
Qed.

End BulkChain.

(** The fetch of [test.py] against a chain of at most 199 pages: the
    same requests, progress lines and logins as in
    [sync_team_cost_center_exact.py], and after every page, the last one
    included, one pause drawn between 0.1 and 0.3 seconds. *)
Theorem bulk_fetch_follows_links (default last : Response) (chain : list Response)
    (random_unit : nat → Q)
    (base enterprise team_slug token : string) (names : list string)
    (w : World (list Response)) :
  let url := base +:+ "/enterprises/" +:+ enterprise
               +:+ "/teams/" +:+ team_slug +:+ "/memberships" in
  Forall linked_page chain →
  readable_page last → next_locator last = None →
  (length chain < 199)%nat →
  srv w = chain ++ [last] →
  chain_logins (chain ++ [last]) = map JStr names →
  Bulk.fetch_enterprise_team_member_logins (scripted_server default) random_unit
    base enterprise team_slug token w
  = (Return (dedup names),
     mkWorld [] (sent w ++ map (page_request token) (url :: omap next_locator chain))
       (draws w + S (length chain))
       (slept w ++ pauses random_unit (1 # 10) (3 # 10) (draws w) (S (length chain)))
       (pages w ++ progress_lines 1 (chain ++ [last]))).
Proof.
  intros url Hchain Hlast Hnone Hlen Hsrv Hnames.
  unfold Bulk.fetch_enterprise_team_member_logins. fold url.
  unfold mbind at 1, M_bind at 1.
  rewrite (bulk_fetch_chain default random_unit token last chain 200 url 1 [] w);
    [|done|done|done|apply memberships_url_nonempty|done|lia|lia].
  simpl. rewrite Hnames.
  assert (Hid : identities (map JStr names) = Return names).
  { clear. induction names as [|n ns IH]; [done|]. simpl. by rewrite IH. }
  unfold mbind, M_bind, lift. by rewrite Hid.
Qed.

Lemma bulk_fetch_follows_links_witness :
  Bulk.fetch_enterprise_team_member_logins (scripted_server looping_page) half
    "https://api.github.com" "acme" "devs" "token"
    (initial_world [opening_page "bob"; closing_page "alice"])
  = (Return ["bob"; "alice"],
     mkWorld []
       [page_request "token" "https://api.github.com/enterprises/acme/teams/devs/memberships";
        page_request "token" "https://x/y?page=2"]
       2 (pauses half (1 # 10) (3 # 10) 0 2) [(1, 1); (2, 1)]).
Proof.
  apply (bulk_fetch_follows_links looping_page (closing_page "alice") [opening_page "bob"]
           half "https://api.github.com" "acme" "devs" "token" ["bob"; "alice"]
           (initial_world [opening_page "bob"; closing_page "alice"])).
  - repeat constructor; vm_compute; eauto.
  - split; vm_compute; eauto.
  - vm_compute. reflexivity.
  - simpl. lia.
  - reflexivity.
  - vm_compute. reflexivity.
Defined.
